(** * electricitylci.olca_jsonld_writer: a shallow embedding

    The module turns nested process descriptions (plain Python dictionaries)
    into olca-schema root entities, keeps them in a dictionary of parallel
    [ids]/[objs] lists, and merges that dictionary into a JSON-LD zip
    archive.  This development embeds the functions of
    [src/electricitylci/olca_jsonld_writer.py] and states the properties of
    the specification over them.

    Conventions of the embedding:
    - a Python value of the input is a [pyval]; a dictionary is an
      association list in insertion order;
    - a character is a Unicode code point below 256, so [str.lower] and
      [str.strip] act character by character;
    - a finite float is the rational it equals, and [float] of a text
      rounds to binary64; a NaN carries the number of its object, which is
      all that [in], [index] and a dictionary need to find it again;
    - an exception is the [Raise] case of [result]; the registry a builder
      had reached when it raised is not kept, the file system is;
    - the logging module is a list of (level, format string) pairs, the
      arguments of the format are not rendered;
    - library calls whose value is data of the environment (unit catalog,
      clock, package version, [repr] of floats and containers, [strptime])
      are the fields of a [Library] record the writer takes as argument;
      [uuid.uuid3] and [uuid.UUID] are computed. *)

From Stdlib Require Import String Ascii List ZArith QArith Qround Qabs Lia Bool Arith.
From Stdlib Require Import DecimalString.
Import ListNotations.
Set Warnings "-register-all".
Local Open Scope string_scope.
Local Open Scope Z_scope.

(** ** Python strings *)

Module PyStr.

Definition code (c : ascii) : Z := Z.of_N (N_of_ascii c).
Definition chr (z : Z) : ascii := ascii_of_N (Z.to_N z).

(** [str.isspace] on code points below 256. *)
Definition is_space (c : ascii) : bool :=
  let n := code c in
  ((9 <=? n) && (n <=? 13)) || ((28 <=? n) && (n <=? 32))
  || (n =? 133) || (n =? 160).

(** [str.lower] on one code point below 256. *)
Definition lower_char (c : ascii) : ascii :=
  let n := code c in
  if ((65 <=? n) && (n <=? 90))
     || ((192 <=? n) && (n <=? 222) && negb (n =? 215))
  then chr (n + 32) else c.

Fixpoint lower (s : string) : string :=
  match s with
  | EmptyString => EmptyString
  | String c r => String (lower_char c) (lower r)
  end.

(** [s.lstrip(chars)] and [s.rstrip(chars)], [chars] as a predicate. *)
Fixpoint lstrip_by (p : ascii -> bool) (s : string) : string :=
  match s with
  | EmptyString => EmptyString
  | String c r => if p c then lstrip_by p r else s
  end.

Fixpoint rstrip_by (p : ascii -> bool) (s : string) : string :=
  match s with
  | EmptyString => EmptyString
  | String c r =>
      match rstrip_by p r with
      | EmptyString => if p c then EmptyString else String c EmptyString
      | r' => String c r'
      end
  end.

Definition lstrip : string -> string := lstrip_by is_space.
Definition rstrip : string -> string := rstrip_by is_space.
Definition strip (s : string) : string := rstrip (lstrip s).

(** [s.split(sep)] for a separator of one character. *)
Fixpoint split (sep : ascii) (s : string) : list string :=
  match s with
  | EmptyString => [EmptyString]
  | String c r =>
      if Ascii.eqb c sep then EmptyString :: split sep r
      else match split sep r with
           | [] => [String c EmptyString]
           | x :: xs => String c x :: xs
           end
  end.

(** [sep.join(l)] *)
Fixpoint join (sep : string) (l : list string) : string :=
  match l with
  | [] => EmptyString
  | [x] => x
  | x :: r => x ++ sep ++ join sep r
  end.

(** [sub in s] *)
Fixpoint contains (sub s : string) : bool :=
  if String.prefix sub s then true
  else match s with
       | EmptyString => false
       | String _ r => contains sub r
       end.

Fixpoint chars (s : string) : list string :=
  match s with
  | EmptyString => []
  | String c r => String c EmptyString :: chars r
  end.

End PyStr.

(** ** Python values *)

(** A finite float is the rational it equals; [float] of a text rounds to
    the nearest binary64 number (see [binary64] below).  A NaN is known by
    its object: [obj] numbers the objects, so that [x is y] can be told
    for two NaN. *)
Inductive pyfloat : Type :=
| FNan (obj : nat)
| FInf (negative : bool)
| FFin (q : Q).

Inductive pyval : Type :=
| PNone
| PBool (b : bool)
| PInt (z : Z)
| PFloat (f : pyfloat)
| PStr (s : string)
| PList (l : list pyval)
| PDict (kvs : list (string * pyval)).

Inductive exn : Type :=
| TypeError | ValueError | AttributeError | KeyError | IndexError
| UnboundLocalError | OverflowError | OSError | BadZipFile.

Inductive result (A : Type) : Type :=
| Ok (a : A)
| Raise (e : exn).
Arguments Ok {A} a.
Arguments Raise {A} e.

Definition rbind {A B} (m : result A) (k : A -> result B) : result B :=
  match m with
  | Ok a => k a
  | Raise e => Raise e
  end.


(** *** Truth value, equality, hashing *)

Definition py_truthy (v : pyval) : bool :=
  match v with
  | PNone => false
  | PBool b => b
  | PInt z => negb (z =? 0)
  | PFloat (FFin q) => negb (Qeq_bool q 0)
  | PFloat _ => true
  | PStr s => negb (String.eqb s "")
  | PList l => match l with [] => false | _ => true end
  | PDict kvs => match kvs with [] => false | _ => true end
  end.

(** The number a value denotes in a comparison ([True == 1 == 1.0]). *)
Definition py_number (v : pyval) : option pyfloat :=
  match v with
  | PBool b => Some (FFin (inject_Z (if b then 1 else 0)))
  | PInt z => Some (FFin (inject_Z z))
  | PFloat f => Some f
  | _ => None
  end.

Definition float_eqb (a b : pyfloat) : bool :=
  match a, b with
  | FFin p, FFin q => Qeq_bool p q
  | FInf s, FInf t => Bool.eqb s t
  | _, _ => false
  end.

Fixpoint dict_get {A : Type} (kvs : list (string * A)) (k : string) : option A :=
  match kvs with
  | [] => None
  | (k', v) :: r => if String.eqb k' k then Some v else dict_get r k
  end.

(** [a is b or a == b] on floats: a NaN equals nothing, but is itself. *)
Definition float_same (a b : pyfloat) : bool :=
  match a, b with
  | FNan o, FNan p => Nat.eqb o p
  | _, _ => float_eqb a b
  end.

(** [a is b or a == b], the test of [in], of [list.index], of a dictionary
    for its keys, and of [==] for the items of two containers.  Apart from
    NaN, an object equals itself, so identity adds nothing to [==]. *)
Fixpoint py_same (a b : pyval) {struct a} : bool :=
  match a, b with
  | PNone, PNone => true
  | PStr s, PStr t => String.eqb s t
  | PList la, PList lb =>
      (fix all2 (la lb : list pyval) : bool :=
         match la, lb with
         | [], [] => true
         | x :: ra, y :: rb => py_same x y && all2 ra rb
         | _, _ => false
         end) la lb
  | PDict da, PDict db =>
      (length da =? length db)%nat &&
      (fix sub (da : list (string * pyval)) : bool :=
         match da with
         | [] => true
         | (k, v) :: r =>
             match dict_get db k with
             | Some w => py_same v w && sub r
             | None => false
             end
         end) da
  | _, _ =>
      match py_number a, py_number b with
      | Some x, Some y => float_same x y
      | _, _ => false
      end
  end.

(** [a == b]: a NaN is not equal to itself. *)
Definition py_eqb (a b : pyval) : bool :=
  match a, b with
  | PFloat (FNan _), _ | _, PFloat (FNan _) => false
  | _, _ => py_same a b
  end.

(** [x in l] and [l.index(x)] *)
Definition py_in (x : pyval) (l : list pyval) : bool :=
  existsb (fun y => py_same y x) l.

Fixpoint py_index (x : pyval) (l : list pyval) : option nat :=
  match l with
  | [] => None
  | y :: r => if py_same y x then Some O else option_map S (py_index x r)
  end.

Definition py_hashable (v : pyval) : bool :=
  match v with
  | PList _ | PDict _ => false
  | _ => true
  end.

(** [d[k] = v] on a dictionary with string keys. *)
Fixpoint dict_set {A : Type} (kvs : list (string * A)) (k : string) (v : A)
  : list (string * A) :=
  match kvs with
  | [] => [(k, v)]
  | (k', w) :: r =>
      if String.eqb k' k then (k', v) :: r else (k', w) :: dict_set r k v
  end.

(** *** [_val] *)

Fixpoint first_key (kvs : list (string * pyval)) (path : list string)
  : option pyval :=
  match path with
  | [] => None
  | p :: r =>
      match dict_get kvs p with
      | Some v => Some v
      | None => first_key kvs r
      end
  end.

Definition _val (dict_d : pyval) (path : list string) (default : option pyval)
  : pyval :=
  let r_val :=
    match dict_d with
    | PDict kvs =>
        match first_key kvs path with
        | Some v => v
        | None => PNone
        end
    | _ => PNone
    end in
  match r_val, default with
  | PNone, Some d => d
  | _, _ => r_val
  end.

(** The same lookup in continuation style: [found] receives the stored
    value, so a recursive builder applied to it is recursive on a part of
    the dictionary. *)
Section ItemWith.
Context {A : Type} (key : string) (found : pyval -> A) (missing : A).

Fixpoint item_with (kvs : list (string * pyval)) : A :=
  match kvs with
  | [] => missing
  | (k, v) :: r => if String.eqb k key then found v else item_with r
  end.
End ItemWith.

(** *** Numbers and their text *)

Definition str_of_Z (z : Z) : string := NilZero.string_of_int (Z.to_int z).

Definition is_digit (c : ascii) : bool :=
  let n := PyStr.code c in (48 <=? n) && (n <=? 57).
Definition digit_val (c : ascii) : Z := PyStr.code c - 48.

(** [digit (["_"] digit)*]: the value read, the number of digits, the rest. *)
Fixpoint digits_from (acc : Z) (n : nat) (s : string) {struct s}
  : Z * nat * string :=
  match s with
  | String c r =>
      if is_digit c then digits_from (acc * 10 + digit_val c) (S n) r
      else if Ascii.eqb c "_" then
        match n, r with
        | S _, String c2 r2 =>
            if is_digit c2
            then digits_from (acc * 10 + digit_val c2) (S n) r2
            else (acc, n, s)
        | _, _ => (acc, n, s)
        end
      else (acc, n, s)
  | EmptyString => (acc, n, s)
  end.

Definition take_sign (s : string) : bool * string :=
  match s with
  | String "-" r => (true, r)
  | String "+" r => (false, r)
  | _ => (false, s)
  end.

Definition pow10 (e : Z) : Q :=
  if 0 <=? e then inject_Z (10 ^ e) else Qinv (inject_Z (10 ^ (- e))).

Definition pow2 (e : Z) : Q :=
  if 0 <=? e then inject_Z (2 ^ e) else Qinv (inject_Z (2 ^ (- e))).

(** The nearest integer, a tie going to the even one. *)
Definition nearest_even (q : Q) : Z :=
  let lo := Qfloor q in
  match Qcompare (q - inject_Z lo) (1 # 2) with
  | Lt => lo
  | Gt => lo + 1
  | Eq => if Z.even lo then lo else lo + 1
  end.

(** [floor (log2 q)] of a positive rational. *)
Definition floor_log2 (q : Q) : Z :=
  let n := Qnum q in
  let d := Zpos (Qden q) in
  let e := Z.log2 n - Z.log2 d in
  if Qle_bool (pow2 e) q then e else e - 1.

(** The binary64 number nearest to a rational: 53 bits of mantissa, ties
    to the even mantissa, the last place no finer than [2 ** -1074], and
    infinite from [2 ** 1024 - 2 ** 970] on. *)
Definition binary64 (q : Q) : pyfloat :=
  match Qcompare q 0 with
  | Eq => FFin 0
  | c =>
      let a := Qabs q in
      let ulp := Z.max (floor_log2 a - 52) (- 1074) in
      let v := (inject_Z (nearest_even (a / pow2 ulp)) * pow2 ulp)%Q in
      let negative := match c with Lt => true | _ => false end in
      if Qle_bool (pow2 1024) v then FInf negative
      else FFin (Qred (if negative then (- v)%Q else v))
  end.

(** The decimal literal [mantissa * 10 ^ scale], as a float. *)
Definition decimal (negative : bool) (mantissa : Z) (scale : Z) : pyfloat :=
  let m := if negative then - mantissa else mantissa in
  binary64 (inject_Z m * pow10 scale)%Q.

Definition parse_exponent (negative : bool) (mantissa : Z) (nfrac : nat)
    (s : string) : option pyfloat :=
  match s with
  | EmptyString => Some (decimal negative mantissa (- Z.of_nat nfrac))
  | String c r =>
      if Ascii.eqb c "e" || Ascii.eqb c "E" then
        let '(eneg, r1) := take_sign r in
        match digits_from 0 0 r1 with
        | (e, S _, EmptyString) =>
            Some (decimal negative mantissa
                    ((if eneg then - e else e) - Z.of_nat nfrac))
        | _ => None
        end
      else None
  end.

(** [float(s)] for a string: [None] stands for [ValueError].  The NaN it
    makes is a new object, numbered 0 here: the writer never looks such a
    value up in a list or a dictionary. *)
Definition py_float_of_string (s : string) : option pyfloat :=
  let '(negative, body) := take_sign (PyStr.strip s) in
  let word := PyStr.lower body in
  if String.eqb word "inf" || String.eqb word "infinity"
  then Some (FInf negative)
  else if String.eqb word "nan" then Some (FNan 0)
  else
    let '(i, ni, r1) := digits_from 0 0 body in
    match r1 with
    | String "." r2 =>
        let '(m, nf, r3) := digits_from i 0 r2 in
        match (ni + nf)%nat with
        | O => None
        | S _ => parse_exponent negative m nf r3
        end
    | _ =>
        match ni with
        | O => None
        | S _ => parse_exponent negative i 0 r1
        end
    end.

(** [round(x)] of a float: to the nearest integer, ties to even. *)
Definition py_round (f : pyfloat) : result Z :=
  match f with
  | FNan _ => Raise ValueError
  | FInf _ => Raise OverflowError
  | FFin q =>
      let lo := Qfloor q in
      match Qcompare (q - inject_Z lo) (1 # 2) with
      | Lt => Ok lo
      | Gt => Ok (lo + 1)
      | Eq => Ok (if Z.even lo then lo else lo + 1)
      end
  end.

(** [int(s)] for a string, base ten: [None] stands for [ValueError]. *)
Definition py_int_of_string (s : string) : option Z :=
  let '(negative, body) := take_sign (PyStr.strip s) in
  match digits_from 0 0 body with
  | (z, S _, EmptyString) => Some (if negative then - z else z)
  | _ => None
  end.

(** ** The [uuid] module

    [uuid.uuid3] hashes the namespace bytes followed by the UTF-8 bytes of
    the name with MD5 and stamps version 3 on the digest; [uuid.UUID] reads
    the 32 hexadecimal digits of a string.  An identifier is the number of
    128 bits, as in the library. *)

Module UUID.

Definition mask32 : Z := 4294967295.
Definition add32 (a b : Z) : Z := Z.land (a + b) mask32.
Definition not32 (a : Z) : Z := Z.lxor a mask32.
Definition rotl32 (x : Z) (c : Z) : Z :=
  Z.land (Z.lor (Z.shiftl x c) (Z.shiftr x (32 - c))) mask32.

Definition K : list Z :=
  [ 3614090360; 3905402710; 606105819; 3250441966;
    4118548399; 1200080426; 2821735955; 4249261313;
    1770035416; 2336552879; 4294925233; 2304563134;
    1804603682; 4254626195; 2792965006; 1236535329;
    4129170786; 3225465664; 643717713; 3921069994;
    3593408605; 38016083; 3634488961; 3889429448;
    568446438; 3275163606; 4107603335; 1163531501;
    2850285829; 4243563512; 1735328473; 2368359562;
    4294588738; 2272392833; 1839030562; 4259657740;
    2763975236; 1272893353; 4139469664; 3200236656;
    681279174; 3936430074; 3572445317; 76029189;
    3654602809; 3873151461; 530742520; 3299628645;
    4096336452; 1126891415; 2878612391; 4237533241;
    1700485571; 2399980690; 4293915773; 2240044497;
    1873313359; 4264355552; 2734768916; 1309151649;
    4149444226; 3174756917; 718787259; 3951481745 ].

Definition shifts : list Z :=
  [ 7; 12; 17; 22; 7; 12; 17; 22; 7; 12; 17; 22; 7; 12; 17; 22;
    5; 9; 14; 20; 5; 9; 14; 20; 5; 9; 14; 20; 5; 9; 14; 20;
    4; 11; 16; 23; 4; 11; 16; 23; 4; 11; 16; 23; 4; 11; 16; 23;
    6; 10; 15; 21; 6; 10; 15; 21; 6; 10; 15; 21; 6; 10; 15; 21 ].

(** Little-endian words of a block of bytes. *)
Fixpoint words (bytes : list Z) : list Z :=
  match bytes with
  | b0 :: b1 :: b2 :: b3 :: r =>
      (b0 + Z.shiftl b1 8 + Z.shiftl b2 16 + Z.shiftl b3 24) :: words r
  | _ => []
  end.

Definition word_bytes (w : Z) : list Z :=
  [ Z.land w 255; Z.land (Z.shiftr w 8) 255;
    Z.land (Z.shiftr w 16) 255; Z.land (Z.shiftr w 24) 255 ].

Definition round (M : list Z) (st : Z * Z * Z * Z) (i : nat)
  : Z * Z * Z * Z :=
  let '(A, B, C, D) := st in
  let zi := Z.of_nat i in
  let '(F, g) :=
    if zi <? 16 then (Z.lor (Z.land B C) (Z.land (not32 B) D), zi)
    else if zi <? 32
    then (Z.lor (Z.land D B) (Z.land (not32 D) C), (5 * zi + 1) mod 16)
    else if zi <? 48 then (Z.lxor B (Z.lxor C D), (3 * zi + 5) mod 16)
    else (Z.lxor C (Z.lor B (not32 D)), (7 * zi) mod 16) in
  let F' := add32 (add32 (add32 F A) (nth i K 0)) (nth (Z.to_nat g) M 0) in
  (D, add32 B (rotl32 F' (nth i shifts 0)), B, C).

Definition block (st : Z * Z * Z * Z) (bytes : list Z) : Z * Z * Z * Z :=
  let '(a0, b0, c0, d0) := st in
  let '(A, B, C, D) := fold_left (round (words bytes)) (seq 0 64) st in
  (add32 a0 A, add32 b0 B, add32 c0 C, add32 d0 D).

Fixpoint blocks (n : nat) (st : Z * Z * Z * Z) (bytes : list Z)
  : Z * Z * Z * Z :=
  match n with
  | O => st
  | S n' => blocks n' (block st (firstn 64 bytes)) (skipn 64 bytes)
  end.

Definition pad (msg : list Z) : list Z :=
  let len := Z.of_nat (length msg) in
  let zeros := Z.to_nat ((55 - len) mod 64) in
  let bits := 8 * len in
  msg ++ [128] ++ repeat 0 zeros
      ++ word_bytes (Z.land bits mask32)
      ++ word_bytes (Z.land (Z.shiftr bits 32) mask32).

Definition md5 (msg : list Z) : list Z :=
  let p := pad msg in
  let '(A, B, C, D) :=
    blocks (length p / 64)
           (1732584193, 4023233417, 2562383102, 271733878) p in
  word_bytes A ++ word_bytes B ++ word_bytes C ++ word_bytes D.

(** [bytes(name, "utf-8")] for code points below 256. *)
Fixpoint utf8 (s : string) : list Z :=
  match s with
  | EmptyString => []
  | String c r =>
      let n := PyStr.code c in
      if n <? 128 then n :: utf8 r
      else Z.lor 192 (Z.shiftr n 6) :: Z.lor 128 (Z.land n 63) :: utf8 r
  end.

Definition int_of_bytes (bytes : list Z) : Z :=
  fold_left (fun acc b => acc * 256 + b) bytes 0.

(** The bits [UUID(..., version=v)] forces: RFC 4122 variant, version. *)
Definition stamp (version : Z) (i : Z) : Z :=
  let i := Z.land i (Z.lnot (Z.shiftl 49152 48)) in
  let i := Z.lor i (Z.shiftl 32768 48) in
  let i := Z.land i (Z.lnot (Z.shiftl 61440 64)) in
  Z.lor i (Z.shiftl version 76).

Definition hex_digit (d : Z) : ascii :=
  if d <? 10 then PyStr.chr (48 + d) else PyStr.chr (87 + d).

Fixpoint hex_of (n : nat) (i : Z) (acc : string) : string :=
  match n with
  | O => acc
  | S n' => hex_of n' (Z.shiftr i 4) (String (hex_digit (Z.land i 15)) acc)
  end.

(** [str(u)]: ['%032x'] cut 8-4-4-4-12. *)
Definition to_str (i : Z) : string :=
  let h := hex_of 32 i "" in
  substring 0 8 h ++ "-" ++ substring 8 4 h ++ "-" ++ substring 12 4 h
    ++ "-" ++ substring 16 4 h ++ "-" ++ substring 20 12 h.

Definition hex_val (c : ascii) : option Z :=
  let n := PyStr.code c in
  if (48 <=? n) && (n <=? 57) then Some (n - 48)
  else if (97 <=? n) && (n <=? 102) then Some (n - 87)
  else if (65 <=? n) && (n <=? 70) then Some (n - 55)
  else None.

Fixpoint int_of_hex (acc : Z) (s : string) : option Z :=
  match s with
  | EmptyString => Some acc
  | String c r =>
      match hex_val c with
      | Some d => int_of_hex (acc * 16 + d) r
      | None => None
      end
  end.

Fixpoint drop_hyphens (s : string) : string :=
  match s with
  | EmptyString => EmptyString
  | String c r =>
      if Ascii.eqb c "-" then drop_hyphens r else String c (drop_hyphens r)
  end.

(** [uuid.UUID(hex, version=v)]: [ValueError] unless 32 hexadecimal digits
    remain once the hyphens are gone, and unless the version is 1 to 5.
    The constructor also drops a [urn:uuid:] prefix and braces, and
    [int(hex, 16)] tolerates signs, blanks and underscores; a string
    accepted only through these can never be its own canonical text, so
    [_uid_is_valid] is the same without them. *)
Definition of_hex (hex : string) (version : Z) : result Z :=
  let h := drop_hyphens hex in
  if negb (String.length h =? 32)%nat then Raise ValueError
  else match int_of_hex 0 h with
       | None => Raise ValueError
       | Some i =>
           if (1 <=? version) && (version <=? 5)
           then Ok (stamp version i) else Raise ValueError
       end.

(** [NAMESPACE_OID.bytes] *)
Definition NAMESPACE_OID : list Z :=
  [107; 167; 184; 18; 157; 173; 17; 209; 128; 180; 0; 192; 79; 212; 48; 200].

(** [str(uuid.uuid3(uuid.NAMESPACE_OID, name))] *)
Definition uuid3 (name : string) : string :=
  to_str (stamp 3 (int_of_bytes (md5 (NAMESPACE_OID ++ utf8 name)))).

End UUID.

Arguments UUID.uuid3 : simpl never.

(** ** olca-schema objects

    Only the attributes the writer sets or reads are kept.  The random
    identifier and the [last_change] stamp that the olca-schema constructors
    put on a new object are left out: the writer overwrites the former and
    never reads the latter. *)

Inductive ModelType : Type :=
| ACTOR | DQ_SYSTEM | FLOW | LOCATION | PROCESS | SOURCE.

Inductive FlowType : Type := ELEMENTARY_FLOW | PRODUCT_FLOW | WASTE_FLOW.
Inductive ProcessType : Type := UNIT_PROCESS | LCI_RESULT.
Inductive UncertaintyType : Type := LOG_NORMAL_DISTRIBUTION.

(** [ref_type] holds the value of the [RefType] member, e.g. ["Flow"]. *)
Record Ref : Type := mkRef {
  ref_type : option string;
  ref_id : pyval;
  ref_name : pyval;
  ref_category : pyval
}.

Record Uncertainty : Type := mkUncertainty {
  distribution_type : UncertaintyType;
  geom_mean : pyval;
  geom_sd : pyval
}.

Record Exchange : Type := mkExchange {
  internal_id : Z;
  is_quantitative_reference : pyval;
  is_input : pyval;
  is_avoided_product : pyval;
  amount : pyval;
  e_dq_entry : pyval;
  e_description : pyval;
  e_unit : option Ref;
  e_flow_property : option Ref;
  e_flow : option Ref;
  e_uncertainty : option Uncertainty;
  e_default_provider : option Ref
}.

Record Flow : Type := mkFlow {
  f_id : pyval;
  f_name : pyval;
  f_category : pyval;
  f_flow_type : option FlowType;
  f_flow_property : option Ref
}.

Record Location : Type := mkLocation {
  l_id : pyval;
  l_code : pyval;
  l_name : pyval;
  l_latitude : pyval;
  l_longitude : pyval;
  l_description : pyval
}.

Record Actor : Type := mkActor { a_id : pyval; a_name : pyval }.

Record Source : Type := mkSource {
  s_id : pyval;
  s_category : pyval;
  s_name : pyval;
  s_url : pyval;
  s_version : pyval;
  s_text_reference : pyval;
  s_year : Z
}.

Record DQSystem : Type := mkDQSystem {
  dq_id : pyval;
  dq_name : pyval;
  dq_description : pyval
}.

Record ProcessDocumentation : Type := mkProcessDocumentation {
  copied : list (string * pyval);
  valid_from : pyval;
  valid_until : pyval;
  reviewer : option Ref;
  data_documentor : option Ref;
  data_generator : option Ref;
  data_set_owner : option Ref;
  publication : option Ref;
  sources : list Ref;
  creation_date : pyval
}.

Record Process : Type := mkProcess {
  p_id : pyval;
  p_name : pyval;
  p_category : pyval;
  p_version : pyval;
  p_description : pyval;
  p_process_type : ProcessType;
  p_location : option Ref;
  p_process_documentation : ProcessDocumentation;
  p_dq_entry : pyval;
  p_dq_system : option Ref;
  p_exchange_dq_system : option Ref;
  p_exchanges : list Exchange
}.

(** What an [objs] list can hold.  [EOpaque] is an object of a root entity
    class the builder never creates (unit groups, flow properties, ...),
    with its class name, identifier and name. *)
Inductive entity : Type :=
| EProcess (p : Process)
| EFlow (f : Flow)
| ELocation (l : Location)
| EActor (a : Actor)
| ESource (s : Source)
| EDQSystem (d : DQSystem)
| EOpaque (class : string) (id name : pyval)
| ERef (r : Ref).

Definition entity_id (e : entity) : pyval :=
  match e with
  | EProcess p => p_id p
  | EFlow f => f_id f
  | ELocation l => l_id l
  | EActor a => a_id a
  | ESource s => s_id s
  | EDQSystem d => dq_id d
  | EOpaque _ i _ => i
  | ERef r => ref_id r
  end.

(** [obj.to_ref()]; the [Ref] class itself has no such method. *)
Definition to_ref (e : entity) : result Ref :=
  match e with
  | EProcess p => Ok (mkRef (Some "Process") (p_id p) (p_name p) (p_category p))
  | EFlow f => Ok (mkRef (Some "Flow") (f_id f) (f_name f) (f_category f))
  | ELocation l => Ok (mkRef (Some "Location") (l_id l) (l_name l) PNone)
  | EActor a => Ok (mkRef (Some "Actor") (a_id a) (a_name a) PNone)
  | ESource s => Ok (mkRef (Some "Source") (s_id s) (s_name s) (s_category s))
  | EDQSystem d => Ok (mkRef (Some "DQSystem") (dq_id d) (dq_name d) PNone)
  | EOpaque c i n => Ok (mkRef (Some c) i n PNone)
  | ERef _ => Raise AttributeError
  end.

(** ** The root entity dictionary and the builder monad *)

Record slot : Type := mkSlot { ids : list pyval; objs : list entity }.

(** [dict_s] / [spec_map]: entity name to its two lists, in key order. *)
Definition registry : Type := list (string * slot).

Inductive level : Type := DEBUG | INFO | WARNING | ERROR.

Record world : Type := mkWorld {
  dict_s : registry;
  logged : list (level * string)
}.

Definition M (A : Type) : Type := world -> result (A * world).

Definition ret {A} (a : A) : M A := fun w => Ok (a, w).
Definition raise {A} (e : exn) : M A := fun _ => Raise e.
Definition bind {A B} (m : M A) (k : A -> M B) : M B :=
  fun w => match m w with
           | Ok (a, w') => k a w'
           | Raise e => Raise e
           end.
Definition lift {A} (r : result A) : M A :=
  fun w => match r with Ok a => Ok (a, w) | Raise e => Raise e end.

Declare Scope py_scope.
Delimit Scope py_scope with py.
Notation "x <- c ;; k" := (bind c (fun x => k))
  (at level 61, c at next level, right associativity) : py_scope.
Notation "' pat <- c ;; k" := (bind c (fun x => match x with pat => k end))
  (at level 61, pat pattern, c at next level, right associativity) : py_scope.
Notation "c ;; k" := (bind c (fun _ => k))
  (at level 61, right associativity) : py_scope.
Local Open Scope py_scope.

Definition log (lvl : level) (msg : string) : M unit :=
  fun w => Ok (tt, mkWorld (dict_s w) (logged w ++ [(lvl, msg)])).

(** [dict_s[key]] *)
Definition reg_slot (key : string) : M slot :=
  fun w => match dict_get (dict_s w) key with
           | Some s => Ok (s, w)
           | None => Raise KeyError
           end.

(** [if uid in dict_s[key]['ids']: idx = ....index(uid); dict_s[key]['objs'][idx]] *)
Definition reg_find (key : string) (uid : pyval) : M (option entity) :=
  s <- reg_slot key ;;
  if py_in uid (ids s) then
    match py_index uid (ids s) with
    | Some idx =>
        match nth_error (objs s) idx with
        | Some o => ret (Some o)
        | None => raise IndexError
        end
    | None => raise ValueError
    end
  else ret None.

(** [dict_s[key]['ids'].append(uid); dict_s[key]['objs'].append(obj)] *)
Definition reg_append (key : string) (uid : pyval) (obj : entity) : M unit :=
  s <- reg_slot key ;;
  fun w =>
    Ok (tt, mkWorld (dict_set (dict_s w) key
                       (mkSlot (ids s ++ [uid]) (objs s ++ [obj])))
                    (logged w)).

Fixpoint map_result {A B} (f : A -> result B) (l : list A) : result (list B) :=
  match l with
  | [] => Ok []
  | x :: r => rbind (f x) (fun y => rbind (map_result f r) (fun ys => Ok (y :: ys)))
  end.

(** [float(s)] and [int(v)] *)
Definition py_float (s : string) : result pyfloat :=
  match py_float_of_string s with
  | Some f => Ok f
  | None => Raise ValueError
  end.

Definition py_int (v : pyval) : result Z :=
  match v with
  | PInt z => Ok z
  | PBool b => Ok (if b then 1 else 0)
  | PFloat (FFin q) => Ok (Z.quot (Qnum q) (Zpos (Qden q)))
  | PFloat (FNan _) => Raise ValueError
  | PFloat (FInf _) => Raise OverflowError
  | PStr s => match py_int_of_string s with
              | Some z => Ok z
              | None => Raise ValueError
              end
  | _ => Raise TypeError
  end.

Definition model_type_str (m : ModelType) : string :=
  match m with
  | ACTOR => "ModelType.ACTOR"
  | DQ_SYSTEM => "ModelType.DQ_SYSTEM"
  | FLOW => "ModelType.FLOW"
  | LOCATION => "ModelType.LOCATION"
  | PROCESS => "ModelType.PROCESS"
  | SOURCE => "ModelType.SOURCE"
  end.

(** One positional argument of [_uid]: a model type tag or a value. *)
Inductive pyarg : Type :=
| AModel (m : ModelType)
| AVal (v : pyval).

(** What [_actor] hands back: a bare [None], or the pair. *)
Inductive actor_return : Type :=
| ReturnsNone
| ReturnsPair (r : Ref).

(** ** The writer *)

(** ** What the writer takes from its environment

    The standard library, olca-schema and the package globals, as far as
    their values are data of the installation or of the moment. *)

Record Library : Type := mkLibrary {
  (** [repr] of a float, a list or a dictionary *)
  py_repr : pyval -> string;
  (** [electricitylci.globals.elci_version] *)
  VERSION : pyval;
  (** [datetime.datetime.now(pytz.utc)]: its ISO text and its year *)
  now : string;
  current_year : Z;
  (** [datetime.strptime(s, '%m/%d/%Y').isoformat()], [None] on [ValueError] *)
  strptime_iso : string -> option string;
  (** [olca_schema.units.unit_ref] and [property_ref] *)
  unit_ref : pyval -> result (option Ref);
  property_ref : pyval -> result (option Ref);
  (** the reference [olca_schema.new_flow] stores for its flow property *)
  as_ref : option entity -> result (option Ref);
  (** [_read_fedefl()]: the unit groups and flow properties of the Federal
      Elementary Flow List, from the local cache or the network *)
  read_fedefl : result (list entity * list entity);
  (** [Process.to_dict] *)
  process_to_dict : Process -> list (string * pyval)
}.

Section Writer.

Variable lib : Library.

(** [str(v)] *)
Definition py_str (v : pyval) : string :=
  match v with
  | PStr s => s
  | PNone => "None"
  | PBool true => "True"
  | PBool false => "False"
  | PInt z => str_of_Z z
  | _ => py_repr lib v
  end.

Definition arg_str (a : pyarg) : string :=
  match a with
  | AModel m => model_type_str m
  | AVal v => py_str v
  end.

(** The debug line of [_uid], whose text is the path, is not recorded. *)
Definition _uid (args : list pyarg) : string :=
  let path :=
    PyStr.lower (PyStr.join "/" (map (fun arg => PyStr.strip (arg_str arg)) args)) in
  UUID.uuid3 path.

Definition _uid_is_valid (uuid_str : pyval) (version : Z) : bool :=
  match uuid_str with
  | PStr s =>
      match UUID.of_hex s version with
      | Ok uuid_obj => String.eqb (UUID.to_str uuid_obj) s
      | Raise _ => false
      end
  | _ => false
  end.

(** [math.isnan] turns an integer into a float first, which overflows from
    [2 ** 1024 - 2 ** 970] on. *)
Definition _isnum (n : pyval) : result bool :=
  match n with
  | PFloat (FNan _) => Ok false
  | PFloat _ | PBool _ => Ok true
  | PInt z =>
      if 2 ^ 1024 - 2 ^ 970 <=? Z.abs z then Raise OverflowError else Ok true
  | _ => Ok false
  end.

Definition _format_dq_entry (entry : pyval) : result pyval :=
  match entry with
  | PStr entry =>
      let e := PyStr.strip entry in
      if (String.length e <? 2)%nat then Ok PNone
      else
        let e := PyStr.lstrip_by (Ascii.eqb "(")
                   (PyStr.rstrip_by (Ascii.eqb ")") e) in
        rbind
          (map_result
             (fun n =>
                if String.eqb n "n.a." || String.eqb n "nan" then Ok n
                else rbind (py_float n) (fun f =>
                     rbind (py_round f) (fun z => Ok (str_of_Z z))))
             (PyStr.split ";" e))
          (fun nums => Ok (PStr ("(" ++ PyStr.join ";" nums ++ ")")))
  | _ => Ok PNone
  end.

Definition _format_date (entry : pyval) : M pyval :=
  match entry with
  | PStr s =>
      match strptime_iso lib s with
      | Some iso => ret (PStr iso)
      | None =>
          log WARNING "Received unexpected date format (M/D/YYYY): '%s'" ;;
          ret PNone
      end
  | _ =>
      log WARNING "Expected date as string, found %s" ;;
      ret PNone
  end.

Definition _current_time : pyval := PStr (now lib).
Definition _current_year : Z := current_year lib.

Definition _check_source_year (s_year : pyval) : M Z :=
  match py_int s_year with
  | Raise _ =>
      log WARNING "Invalid source year, defaulting to current year." ;;
      ret _current_year
  | Ok r_year =>
      if (r_year <? 0) || (_current_year + 1 <? r_year) then
        log WARNING "Source year out of range! Default to current year." ;;
        ret _current_year
      else ret r_year
  end.

Definition _uncertainty (dict_d : pyval) : M (option Uncertainty) :=
  match dict_d with
  | PDict _ =>
      let dt := _val dict_d ["distributionType"] None in
      if negb (py_eqb dt (PStr "Logarithmic Normal Distribution")) then
        log DEBUG "Found invalid uncertainty method, '%s'" ;;
        ret None
      else
        gmean <- lift match _val dict_d ["geomMean"] None with
                      | PStr s => rbind (py_float s) (fun f => Ok (PFloat f))
                      | v => Ok v
                      end ;;
        gsd <- lift match _val dict_d ["geomSd"] None with
                    | PStr s => rbind (py_float s) (fun f => Ok (PFloat f))
                    | v => Ok v
                    end ;;
        mean_ok <- lift (_isnum gmean) ;;
        sd_ok <- (if mean_ok then lift (_isnum gsd) else ret false) ;;
        if negb mean_ok || negb sd_ok then
          log DEBUG "Found invalid geometric mean/standard deviation!" ;;
          ret None
        else ret (Some (mkUncertainty LOG_NORMAL_DISTRIBUTION gmean gsd))
  | _ => ret None
  end.

Definition _unit (unit_name : pyval) : M (option Ref) :=
  unit_name <- match unit_name with
               | PDict kvs =>
                   match dict_get kvs "name" with
                   | Some v => ret v
                   | None =>
                       log ERROR "dict passed as unit_name but does not contain name key" ;;
                       ret (PStr "")
                   end
               | _ => ret unit_name
               end ;;
  log DEBUG "Creating unit, '%s'" ;;
  r_obj <- lift (unit_ref lib unit_name) ;;
  match r_obj with
  | None => log ERROR "unknown unit, '%s'; no unit reference" ;; ret None
  | Some r => ret (Some r)
  end.

Definition _flow_property (unit_name : pyval) : M (option entity) :=
  let resolve (unit_name : pyval) : M (option entity) :=
    p_ref <- lift (property_ref lib unit_name) ;;
    match p_ref with
    | None =>
        log ERROR "Unknown unit, '%s'; no flow property reference!" ;;
        ret None
    | Some p_ref =>
        found <- reg_find "FlowProperty" (ref_id p_ref) ;;
        match found with
        | Some r_obj => log DEBUG "Reading existing flow property" ;; ret (Some r_obj)
        | None => log INFO "Failed to find flow property for '%s'" ;; ret None
        end
    end in
  match unit_name with
  | PDict kvs =>
      match dict_get kvs "name" with
      | Some v => resolve v
      | None =>
          log ERROR "Missing the required 'name' key in unit dictionary!" ;;
          ret None
      end
  | _ => resolve unit_name
  end.

Definition _flow_type (f_type : pyval) : option FlowType :=
  if py_eqb (PStr "ELEMENTARY_FLOW") f_type then Some ELEMENTARY_FLOW
  else if py_eqb (PStr "PRODUCT_FLOW") f_type then Some PRODUCT_FLOW
  else if py_eqb (PStr "WASTE_FLOW") f_type then Some WASTE_FLOW
  else None.

(** [_flow] assigns to [dict_d['flowType']]: the first component is the
    caller's flow dictionary once the call is over, whether it returned or
    raised. *)
Definition _flow (dict_d : pyval) (flowprop : option entity) (w : world)
  : pyval * result (option Ref * world) :=
  match dict_d with
  | PDict kvs =>
      let uid := _val dict_d ["id"; "@id"] None in
      let name := _val dict_d ["name"] None in
      match _val dict_d ["category"] (Some (PStr "")) with
      | PStr category_path =>
          let is_waste := PyStr.contains "waste" (PyStr.lower category_path) in
          match reg_find "Flow" uid w with
          | Raise e => (dict_d, Raise e)
          | Ok (Some flow, w) =>
              (dict_d,
               (log DEBUG "Found previous flow, '%s'" ;;
                r <- lift (to_ref flow) ;;
                ret (Some r)) w)
          | Ok (None, w) =>
              let dict_d' :=
                if is_waste
                then PDict (dict_set kvs "flowType" (PStr "WASTE_FLOW"))
                else dict_d in
              (dict_d',
               (log DEBUG "Creating new flow for, '%s' (%s)" ;;
                uid <- (if _uid_is_valid uid 3 || _uid_is_valid uid 4
                        then ret uid
                        else
                          log DEBUG "Generating new UUID for flow, '%s'" ;;
                          ret (PStr (_uid [AModel FLOW;
                                           AVal (PStr category_path);
                                           AVal name]))) ;;
                let def_type :=
                  if is_waste then "WASTE_FLOW" else "ELEMENTARY_FLOW" in
                let f_type :=
                  _flow_type (_val dict_d' ["flowType"] (Some (PStr def_type))) in
                prop <- lift (as_ref lib flowprop) ;;
                let flow := mkFlow uid name (PStr category_path) f_type prop in
                reg_append "Flow" uid (EFlow flow) ;;
                r <- lift (to_ref (EFlow flow)) ;;
                ret (Some r)) w)
          end
      | _ => (dict_d, Raise AttributeError)
      end
  | _ => (dict_d, (log WARNING "No flow data received!" ;; ret None) w)
  end.

Definition _location (dict_d : pyval) : M (option Ref) :=
  let '(code, uid) :=
    match dict_d with
    | PStr _ => (dict_d, PNone)
    | PDict _ => (_val dict_d ["name"] None, _val dict_d ["id"; "@id"] None)
    | _ => (PStr "", PStr "")
    end in
  match code with
  | PStr "" => ret None
  | PStr _ =>
      let uid :=
        if _uid_is_valid uid 3 then uid
        else PStr (_uid [AModel LOCATION; AVal code]) in
      found <- reg_find "Location" uid ;;
      match found with
      | Some location =>
          log DEBUG "Using existing location, %s" ;;
          r <- lift (to_ref location) ;;
          ret (Some r)
      | None =>
          log DEBUG "Creating new location entry for '%s'" ;;
          let location :=
            mkLocation uid code code
              (_val dict_d ["latitude"] None)
              (_val dict_d ["longitude"] None)
              (_val dict_d ["description"] None) in
          reg_append "Location" uid (ELocation location) ;;
          r <- lift (to_ref (ELocation location)) ;;
          ret (Some r)
      end
  | _ => ret None
  end.

Definition _actor (name : pyval) : M actor_return :=
  match name with
  | PStr "" => ret ReturnsNone
  | PStr _ =>
      let uid := PStr (_uid [AModel ACTOR; AVal name]) in
      found <- reg_find "Actor" uid ;;
      match found with
      | Some actor =>
          log DEBUG "Found existing actor, %s" ;;
          r <- lift (to_ref actor) ;;
          ret (ReturnsPair r)
      | None =>
          log DEBUG "Creating new actor entity for '%s'" ;;
          let actor := mkActor uid name in
          reg_append "Actor" uid (EActor actor) ;;
          r <- lift (to_ref (EActor actor)) ;;
          ret (ReturnsPair r)
      end
  | _ => ret ReturnsNone
  end.

(** [x, dict_s = _actor(...)]: a bare [None] cannot be unpacked. *)
Definition unpack (m : M actor_return) : M (option Ref) :=
  r <- m ;;
  match r with
  | ReturnsPair ref => ret (Some ref)
  | ReturnsNone => raise TypeError
  end.

Definition all_str (l : list pyval) : option (list string) :=
  fold_right (fun v acc =>
                match v, acc with
                | PStr s, Some r => Some (s :: r)
                | _, _ => None
                end) (Some []) l.

Definition _source (src_data : pyval) : M (option Ref) :=
  match src_data with
  | PDict kvs =>
      match dict_get kvs "Name" with
      | None => ret None
      | Some name =>
          if py_eqb name (PStr "") then ret None
          else
            category <- match dict_get kvs "Category" with
                        | Some (PList l) =>
                            match all_str l with
                            | Some segs => ret (PyStr.join "/" segs)
                            | None => raise UnboundLocalError
                            end
                        | Some (PStr s) => ret s
                        | Some _ => ret ""
                        | None => ret ""
                        end ;;
            let uid := PStr (_uid [AModel SOURCE; AVal (PStr category); AVal name]) in
            found <- reg_find "Source" uid ;;
            match found with
            | Some source =>
                log DEBUG "Found existing source, %s" ;;
                r <- lift (to_ref source) ;;
                ret (Some r)
            | None =>
                log DEBUG "Creating new source entity for '%s'" ;;
                year <- _check_source_year (_val src_data ["Year"] None) ;;
                let source :=
                  mkSource uid (PStr category) name
                    (_val src_data ["Url"] (Some PNone))
                    (_val src_data ["Version"] (Some (VERSION lib)))
                    (_val src_data ["TextReference"] (Some name))
                    year in
                reg_append "Source" uid (ESource source) ;;
                r <- lift (to_ref (ESource source)) ;;
                ret (Some r)
            end
      end
  | _ => ret None
  end.

Fixpoint source_loop (s_data : list pyval) (r_list : list Ref) : M (list Ref) :=
  match s_data with
  | [] => ret r_list
  | d :: rest =>
      s_ref <- _source d ;;
      source_loop rest (match s_ref with
                        | Some r => r_list ++ [r]
                        | None => r_list
                        end)
  end.

Definition _source_list (s_data : pyval) : M (list Ref) :=
  match s_data with
  | PList (d :: rest) => source_loop (d :: rest) []
  | _ => log WARNING "No source data provided!" ;; ret []
  end.

Definition copy_fields : list string :=
  [ "timeDescription"; "technologyDescription"; "dataCollectionDescription";
    "completenessDescription"; "dataSelectionDescription"; "reviewDetails";
    "dataTreatmentDescription"; "inventoryMethodDescription";
    "modelingConstantsDescription"; "samplingDescription";
    "restrictionsDescription"; "copyright"; "intendedApplication";
    "projectDescription" ].

Definition _process_doc (dict_d : pyval) : M ProcessDocumentation :=
  match dict_d with
  | PDict _ =>
      let fields := map (fun field => (field, _val dict_d [field] None)) copy_fields in
      valid_from <- _format_date (_val dict_d ["validFrom"] None) ;;
      valid_until <- _format_date (_val dict_d ["validUntil"] None) ;;
      reviewer <- unpack (_actor (_val dict_d ["reviewer"] None)) ;;
      data_documentor <- unpack (_actor (_val dict_d ["dataDocumentor"] None)) ;;
      data_generator <- unpack (_actor (_val dict_d ["dataGenerator"] None)) ;;
      data_set_owner <- unpack (_actor (_val dict_d ["dataSetOwner"] None)) ;;
      publication <- _source (_val dict_d ["publication"] None) ;;
      sources <- _source_list (_val dict_d ["sources"] (Some (PList []))) ;;
      ret (mkProcessDocumentation fields valid_from valid_until reviewer
             data_documentor data_generator data_set_owner publication
             sources _current_time)
  | _ =>
      ret (mkProcessDocumentation
             (map (fun field => (field, PNone)) copy_fields)
             PNone PNone None None None None None [] _current_time)
  end.

Fixpoint _find_dq (dict_d : pyval) (dict_key : string) {struct dict_d} : M pyval :=
  let dq := _val dict_d [dict_key] None in
  match dict_d with
  | PDict kvs =>
      if negb (py_truthy dq) then
        log DEBUG "Searching process documentation for data quality key!" ;;
        item_with "processDocumentation"
          (fun v => _find_dq v dict_key) (ret PNone) kvs
      else ret dq
  | _ => ret dq
  end.

Definition _dq_entry (dict_d : pyval) : M pyval :=
  dq <- _find_dq dict_d "dqEntry" ;;
  lift (_format_dq_entry dq).

Definition _dq_system (dict_d : pyval) (dq_type : string) : M (option Ref) :=
  if negb (String.eqb dq_type "dqSystem" || String.eqb dq_type "exchangeDqSystem")
  then raise ValueError
  else
    let dq_desc :=
      if String.eqb dq_type "exchangeDqSystem"
      then "An exchange data quality system entry."
      else "A process data quality system entry." in
    dq <- _find_dq dict_d dq_type ;;
    match dq with
    | PDict _ =>
        let dq_id := _val dq ["@id"] None in
        let dq_name := _val dq ["name"] (Some (PStr "none")) in
        found <- reg_find "DQSystem" dq_id ;;
        match found with
        | Some dq_obj =>
            log DEBUG "Found existing DQSystem, %s" ;;
            r <- lift (to_ref dq_obj) ;;
            ret (Some r)
        | None =>
            log DEBUG "Creating new DQSystem entity for '%s'" ;;
            dq_id <- (if negb (_uid_is_valid dq_id 4) then
                        log DEBUG "Generating DQSystem UUID" ;;
                        ret (PStr (_uid [AModel DQ_SYSTEM; AVal (PStr dq_type);
                                         AVal dq_name]))
                      else ret dq_id) ;;
            let dq_obj := mkDQSystem dq_id dq_name (PStr dq_desc) in
            reg_append "DQSystem" dq_id (EDQSystem dq_obj) ;;
            r <- lift (to_ref (EDQSystem dq_obj)) ;;
            ret (Some r)
        end
    | _ => ret None
    end.

Definition _find_ref_exchange (p : Process) : option Exchange :=
  fold_left (fun e_obj e =>
               if py_truthy (is_quantitative_reference e) then Some e else e_obj)
            (p_exchanges p) None.

(** The part of [_exchange] after the test for [None]; [provider] is the
    call [_process(_val(dict_d, 'provider'), dict_s)].  The sequence number
    is assigned by [_exchange_list]. *)
Definition exchange_body (dict_d : pyval)
    (provider : M (option Process * option Exchange)) : M (option Exchange) :=
  dq <- lift (_format_dq_entry (_val dict_d ["dqEntry"] None)) ;;
  let unit_name := _val dict_d ["unit"] (Some (PStr "kg")) in
  unit <- _unit unit_name ;;
  f_prop <- _flow_property unit_name ;;
  flow_property <- match f_prop with
                   | Some f => r <- lift (to_ref f) ;; ret (Some r)
                   | None => ret None
                   end ;;
  flow <- (fun w => snd (_flow (_val dict_d ["flow"] None) f_prop w)) ;;
  uncertainty <- _uncertainty (_val dict_d ["uncertainty"] None) ;;
  '(p_ref, _) <- provider ;;
  default_provider <- match p_ref with
                      | Some p => r <- lift (to_ref (EProcess p)) ;; ret (Some r)
                      | None => ret None
                      end ;;
  ret (Some (mkExchange 0
               (_val dict_d ["quantitativeReference"] (Some (PBool false)))
               (_val dict_d ["input"] (Some (PBool false)))
               (_val dict_d ["avoidedProduct"] (Some (PBool false)))
               (_val dict_d ["amount"] (Some (PFloat (FFin 0))))
               dq
               (_val dict_d ["comment"] None)
               unit flow_property flow uncertainty default_provider)).

Definition set_internal_id (e : Exchange) (n : Z) : Exchange :=
  mkExchange n (is_quantitative_reference e) (is_input e)
    (is_avoided_product e) (amount e) (e_dq_entry e) (e_description e)
    (e_unit e) (e_flow_property e) (e_flow e) (e_uncertainty e)
    (e_default_provider e).

(** The [for] loop of [_exchange_list], over any [_exchange]. *)
Section ExchangeLoop.
Variable exchange : pyval -> M (option Exchange).

Fixpoint exchange_loop (l : list pyval)
    (acc : list Exchange * Z * option Exchange)
  : M (list Exchange * Z * option Exchange) :=
  match l with
  | [] => ret acc
  | e :: rest =>
      let '(r_list, last_id, q_ref) := acc in
      ex_obj <- exchange e ;;
      match ex_obj with
      | Some ex_obj =>
          let last_id := last_id + 1 in
          let ex_obj := set_internal_id ex_obj last_id in
          exchange_loop rest
            ((r_list ++ [ex_obj])%list, last_id,
             if py_truthy (is_quantitative_reference ex_obj)
             then Some ex_obj else q_ref)
      | None => exchange_loop rest acc
      end
  end.

Definition exchange_for (l : list pyval) : M (list Exchange * option Exchange) :=
  '(r_list, _, q_ref) <- exchange_loop l ([], 0, None) ;;
  ret (r_list, q_ref).
End ExchangeLoop.

(** [for e in v]: a list yields its items, a dictionary its keys, a string
    its characters; nothing else is iterable. *)
Definition py_iter (v : pyval) : result (list pyval) :=
  match v with
  | PList l => Ok l
  | PDict kvs => Ok (map (fun kv => PStr (fst kv)) kvs)
  | PStr s => Ok (map PStr (PyStr.chars s))
  | _ => Raise TypeError
  end.

(** The body of [_process] for a dictionary; [exchange_list] is the call
    [_exchange_list(dict_d, dict_s)]. *)
Definition process_body (dict_d : pyval)
    (exchange_list : M (list Exchange * option Exchange))
  : M (option Process * option Exchange) :=
  let uid := _val dict_d ["@id"] None in
  let name := _val dict_d ["name"] None in
  let category := _val dict_d ["category"] (Some (PStr "")) in
  let location_code := _val dict_d ["location"; "name"] (Some (PStr "")) in
  uid <- match uid with
         | PNone =>
             log DEBUG "Generating new process UUID for '%s'" ;;
             ret (PStr (_uid [AModel PROCESS; AVal category;
                              AVal location_code; AVal name]))
         | _ => ret uid
         end ;;
  found <- reg_find "Process" uid ;;
  match found with
  | Some obj =>
      log DEBUG "Found existing process, %s" ;;
      match obj with
      | EProcess p => ret (Some p, _find_ref_exchange p)
      | _ => raise AttributeError
      end
  | None =>
      log DEBUG "Creating new Process entity for '%s'" ;;
      let version := _val dict_d ["version"] (Some (VERSION lib)) in
      let description := _val dict_d ["description"] None in
      let p_type := _val dict_d ["processType"] (Some (PStr "UNIT_PROCESS")) in
      process_type <- (if negb (py_eqb p_type (PStr "UNIT_PROCESS")) then
                         log DEBUG "Setting process type to LCI RESULT" ;;
                         ret LCI_RESULT
                       else ret UNIT_PROCESS) ;;
      location <- _location (_val dict_d ["location"] None) ;;
      process_documentation <-
        _process_doc (_val dict_d ["processDocumentation"] None) ;;
      dq_entry <- _dq_entry dict_d ;;
      dq_system <- _dq_system dict_d "dqSystem" ;;
      exchange_dq_system <- _dq_system dict_d "exchangeDqSystem" ;;
      '(exchanges, e_ref) <- exchange_list ;;
      ret (Some (mkProcess uid name category version description
                   process_type location process_documentation dq_entry
                   dq_system exchange_dq_system exchanges),
           e_ref)
  end.

(** [_process] and [_exchange] call each other along the nesting of the
    description: a process holds exchanges, an exchange a provider. *)
Fixpoint _process (dict_d : pyval) {struct dict_d}
  : M (option Process * option Exchange) :=
  match dict_d with
  | PDict kvs =>
      process_body dict_d
        (item_with "exchanges"
           (fun v =>
              match v with
              | PNone => exchange_for _exchange []
              | PList l => exchange_for _exchange l
              | _ =>
                  l <- lift (py_iter v) ;;
                  exchange_for (fun e => exchange_body e (ret (None, None))) l
              end)
           (exchange_for _exchange []) kvs)
  | _ => ret (None, None)
  end
with _exchange (dict_d : pyval) {struct dict_d} : M (option Exchange) :=
  match dict_d with
  | PNone => log DEBUG "No exchange data!" ;; ret None
  | PDict kvs =>
      exchange_body dict_d
        (item_with "provider" (fun v => _process v) (ret (None, None)) kvs)
  | _ => exchange_body dict_d (ret (None, None))
  end.

Definition _exchange_list (dict_d : pyval) : M (list Exchange * option Exchange) :=
  l <- lift (py_iter (_val dict_d ["exchanges"] (Some (PList [])))) ;;
  exchange_for _exchange l.

(** *** The archive

    A JSON-LD archive is the list of its documents in the order they were
    written: the class folder, the identifier that makes the file name, and
    the object the document reads back as ([None] when it cannot be read).
    The writer of [olca_schema.zipio] opens the zip file for appending; the
    version note it puts into a new file lies in no class folder and is
    left out. *)

Record zentry : Type := mkZentry {
  z_class : string;
  z_id : string;
  z_obj : option entity
}.

Inductive file : Type :=
| Corrupt
| Archive (entries : list zentry).

(** The file at [json_file], and how many documents the device still
    takes before a write fails ([None]: no failure). *)
Record io : Type := mkIO {
  disk : option file;
  quota : option nat
}.

Definition class_of (e : entity) : string :=
  match e with
  | EProcess _ => "Process"
  | EFlow _ => "Flow"
  | ELocation _ => "Location"
  | EActor _ => "Actor"
  | ESource _ => "Source"
  | EDQSystem _ => "DQSystem"
  | EOpaque c _ _ => c
  | ERef _ => "Ref"
  end.

Definition root_entity_names : list string :=
  [ "Actor"; "Currency"; "DQSystem"; "EPD"; "Flow"; "FlowProperty";
    "ImpactCategory"; "ImpactMethod"; "Location"; "Parameter"; "Process";
    "ProductSystem"; "Project"; "Result"; "SocialIndicator"; "Source";
    "UnitGroup" ].

(** The ['class'] entry of a key is the olca-schema class of that name. *)
Definition _root_entity_dict : registry :=
  map (fun name => (name, mkSlot [] [])) root_entity_names.

(** [ZipReader.ids_of(spec)] and [ZipReader.read(spec, rid)]; the zip
    directory keeps the last document written under a name. *)
Definition ids_of (entries : list zentry) (spec : string) : list string :=
  map z_id (filter (fun z => String.eqb (z_class z) spec) entries).

Definition zip_read (entries : list zentry) (spec : string) (rid : string)
  : option entity :=
  fold_left (fun found z =>
               if String.eqb (z_class z) spec && String.eqb (z_id z) rid
               then z_obj z else found) entries None.

Fixpoint read_ids (entries : list zentry) (name : string) (id_only : bool)
    (r_ids : list string) : M unit :=
  match r_ids with
  | [] => ret tt
  | rid :: rest =>
      s <- reg_slot name ;;
      (if py_in (PStr rid) (ids s) then
         log DEBUG "Skipping existing UUID for %s (%s)"
       else if id_only then
         fun w => Ok (tt, mkWorld (dict_set (dict_s w) name
                                     (mkSlot (ids s ++ [PStr rid]) (objs s)))
                                  (logged w))
       else
         match zip_read entries name rid with
         | Some r_obj => reg_append name (PStr rid) r_obj
         | None => log WARNING "Failed to read %s (%s) from file! %s"
         end) ;;
      read_ids entries name id_only rest
  end.

Fixpoint read_names (entries : list zentry) (id_only : bool)
    (names : list string) : M unit :=
  match names with
  | [] => ret tt
  | name :: rest =>
      log INFO "Read %d UUIDs for %s" ;;
      read_ids entries name id_only (ids_of entries name) ;;
      read_names entries id_only rest
  end.

(** [_read_jsonld(json_file, root_dict, id_only)]; the world carries
    [root_dict]. *)
Definition _read_jsonld (json_file : option file) (id_only : bool) : M unit :=
  match json_file with
  | None => raise OSError
  | Some Corrupt => log INFO "Opening JSON-LD file, %s" ;; raise BadZipFile
  | Some (Archive entries) =>
      log INFO "Opening JSON-LD file, %s" ;;
      (fun w => read_names entries id_only (map fst (dict_s w)) w)
  end.

(** *** Merging *)

(** A dictionary keyed by identifiers, in insertion order. *)
Fixpoint odict_set (d : list (pyval * entity)) (k : pyval) (v : entity)
  : list (pyval * entity) :=
  match d with
  | [] => [(k, v)]
  | (k', w) :: r =>
      if py_same k' k then (k', v) :: r else (k', w) :: odict_set r k v
  end.

Fixpoint entity_dict_loop (e_ids : list pyval) (e_objs : list entity)
    (r_dict : list (pyval * entity)) : M (list (pyval * entity)) :=
  match e_ids with
  | [] => ret r_dict
  | uid :: ids' =>
      match e_objs with
      | [] =>
          log WARNING "Skipping %s (%s)! Missing class info!" ;;
          entity_dict_loop ids' [] r_dict
      | obj :: objs' =>
          if py_hashable uid
          then entity_dict_loop ids' objs' (odict_set r_dict uid obj)
          else raise TypeError
      end
  end.

Definition _make_entity_dict (e_dict : registry) (e_key : string)
  : M (list (pyval * entity)) :=
  match dict_get e_dict e_key with
  | None => raise KeyError
  | Some s => entity_dict_loop (ids s) (objs s) []
  end.

(** [d_cur.update(d_new)] *)
Definition odict_update (d_cur d_new : list (pyval * entity))
  : list (pyval * entity) :=
  fold_left (fun d kv => odict_set d (fst kv) (snd kv)) d_new d_cur.

Fixpoint update_loop (cur_data : registry) (keys : list string)
    (new_data : registry) : M registry :=
  match keys with
  | [] => ret new_data
  | k :: rest =>
      d_cur <- _make_entity_dict cur_data k ;;
      d_new <- _make_entity_dict new_data k ;;
      let d_cur := odict_update d_cur d_new in
      update_loop cur_data rest
        (dict_set new_data k (mkSlot (map fst d_cur) (map snd d_cur)))
  end.

Definition _update_data (cur_data new_data : registry) : M registry :=
  update_loop cur_data (map fst cur_data) new_data.

(** *** Saving *)

(** [e_dict[k_type]['class'].from_dict(k_obj.to_dict())] for a [Ref]. *)
Definition fix_ref (e_dict : registry) (k_obj : entity) : result entity :=
  match k_obj with
  | ERef r =>
      match ref_type r with
      | None => Raise AttributeError
      | Some k_type =>
          match dict_get e_dict k_type with
          | None => Raise KeyError
          | Some _ => Ok (EOpaque k_type (ref_id r) (ref_name r))
          end
      end
  | _ => Ok k_obj
  end.

(** [ZipWriter.write(entity)] refuses an entity whose [id] is [None] or
    the empty string. *)
Definition has_id (e : entity) : bool :=
  match entity_id e with
  | PNone | PStr "" => false
  | _ => true
  end.

(** One turn of the inner loop of [_save_to_json]: the document that
    [writer.write] puts into the archive for [k_obj]. *)
Definition document (e_dict : registry) (k_obj : entity) : result entity :=
  rbind (fix_ref e_dict k_obj)
        (fun o => if has_id o then Ok o else Raise ValueError).

(** The documents the two [for] loops of [_save_to_json] hand to
    [writer.write], in order, up to the first that is refused or cannot be
    built. *)
Fixpoint to_write (e_dict : registry) (k_objs : list entity)
  : list entity * option exn :=
  match k_objs with
  | [] => ([], None)
  | k_obj :: rest =>
      match document e_dict k_obj with
      | Raise e => ([], Some e)
      | Ok o => let '(l, err) := to_write e_dict rest in (o :: l, err)
      end
  end.

(** The file of an entity: its class folder and ['%s.json' % id]. *)
Definition entry_of (e : entity) : zentry :=
  mkZentry (class_of e) (py_str (entity_id e)) (Some e).

(** [with zipio.ZipWriter(json_file) as writer]: the documents reach the
    file one by one until the loop raises or the device refuses; leaving
    the block closes the archive with what it holds. *)
Definition zip_write (e_dict : registry) (fs : io) : io * result unit :=
  let before := match disk fs with
                | Some (Archive entries) => entries
                | _ => []
                end in
  let '(docs, err) := to_write e_dict (flat_map (fun kv => objs (snd kv)) e_dict) in
  match quota fs with
  | Some n =>
      if (n <? length docs)%nat then
        (mkIO (Some (Archive (before ++ map entry_of (firstn n docs)))) (Some O),
         Raise OSError)
      else
        (mkIO (Some (Archive (before ++ map entry_of docs)))
              (Some (n - length docs)%nat),
         match err with Some e => Raise e | None => Ok tt end)
  | None =>
      (mkIO (Some (Archive (before ++ map entry_of docs))) None,
       match err with Some e => Raise e | None => Ok tt end)
  end.

Definition _save_to_json (e_dict : registry) (fs : io) (w : world)
  : io * result (registry * world) :=
  let w := mkWorld (dict_s w) (logged w ++ [(INFO, "Looking for %s");
                                            (INFO, "Found existing data in JSON-LD")]) in
  match _read_jsonld (disk fs) false (mkWorld _root_entity_dict (logged w)) with
  | Raise OSError =>
      match (log INFO "No existing JSON-LD found" ;;
             _update_data _root_entity_dict e_dict) w with
      | Raise e => (fs, Raise e)
      | Ok (e_dict, w) =>
          let '(fs, r) := zip_write e_dict fs in
          (fs, rbind r (fun _ => Ok (e_dict, w)))
      end
  | Raise _ => (fs, Raise UnboundLocalError)
  | Ok (_, rw) =>
      let c_data := dict_s rw in
      let w := mkWorld (dict_s w)
                 (logged rw ++ [(INFO, "Successfully read data from previous JSON-LD");
                                (INFO, "Removing old archive file")]) in
      let fs := mkIO None (quota fs) in
      match _update_data c_data e_dict w with
      | Raise e => (fs, Raise e)
      | Ok (e_dict, w) =>
          let '(fs, r) := zip_write e_dict fs in
          (fs, rbind r (fun _ => Ok (e_dict, w)))
      end
  end.

(** *** [write] *)

Fixpoint append_all (key : string) (l : list entity) : M unit :=
  match l with
  | [] => ret tt
  | obj :: rest => reg_append key (entity_id obj) obj ;; append_all key rest
  end.

Definition _add_unit_groups : M unit :=
  _ <- reg_slot "UnitGroup" ;;
  _ <- reg_slot "FlowProperty" ;;
  '(u_list, p_list) <- lift (read_fedefl lib) ;;
  append_all "UnitGroup" u_list ;;
  append_all "FlowProperty" p_list.

(** [_init_root_entities(json_file)], started on [_root_entity_dict()]. *)
Definition _init_root_entities (json_file : option file) : M unit :=
  match json_file with
  | Some _ => _read_jsonld json_file false
  | None => _add_unit_groups
  end.

(** The annotations [write] puts on a process description. *)
Definition annotate (d_vals : list (string * pyval)) (p : Process)
    (e : option Exchange) : M (list (string * pyval)) :=
  let d := fold_left (fun d kv => dict_set d (fst kv) (snd kv))
             (process_to_dict lib p) d_vals in
  let d := dict_set d "uuid" (p_id p) in
  match e with
  | Some e =>
      match e_flow e with
      | Some f =>
          let d := dict_set d "q_reference_name" (ref_name f) in
          let d := dict_set d "q_reference_id" (ref_id f) in
          let d := dict_set d "q_reference_cat" (ref_category f) in
          match e_unit e with
          | Some u => ret (dict_set d "q_reference_unit" (ref_name u))
          | None =>
              log WARNING "Unexpected error when accessing quantitative reference exchange for '%s'. %s" ;;
              ret d
          end
      | None =>
          log WARNING "Unexpected error when accessing quantitative reference exchange for '%s'. %s" ;;
          ret d
      end
  | None => ret d
  end.

Fixpoint write_loop (processes : list (string * pyval))
  : M (list (string * pyval)) :=
  match processes with
  | [] => ret []
  | (p_key, d_vals) :: rest =>
      log INFO "Generating process for %s" ;;
      '(p, e) <- _process d_vals ;;
      match p, d_vals with
      | Some p, PDict kvs =>
          reg_append "Process" (p_id p) (EProcess p) ;;
          kvs <- annotate kvs p e ;;
          rest <- write_loop rest ;;
          ret ((p_key, PDict kvs) :: rest)
      | _, _ => raise AttributeError
      end
  end.

(** [write(processes, file_path, to_save)]: the result is the state of
    the file system, and the annotated mapping with the root entity
    dictionary unless an exception escaped.  Creating the output folder
    is not modelled. *)
Definition write (processes : list (string * pyval)) (to_save : bool)
    (fs : io) : io * result (list (string * pyval) * world) :=
  match (_init_root_entities (disk fs) ;; write_loop processes)
          (mkWorld _root_entity_dict []) with
  | Raise e => (fs, Raise e)
  | Ok (processes, w) =>
      if to_save then
        let w := mkWorld (dict_s w) (logged w ++ [(INFO, "Saving to '%s'")]) in
        let '(fs, r) := _save_to_json (dict_s w) fs w in
        (fs, rbind r (fun '(e_dict, w) =>
                        Ok (processes, mkWorld e_dict (logged w))))
      else (fs, Ok (processes, w))
  end.

End Writer.

(** ** A concrete environment

    Values for the fields of [Library], to run the writer on concrete
    descriptions: three units with their flow properties, a fixed clock,
    and the Federal Elementary Flow List reduced to the flow properties of
    these units. *)

Module Env.

(** The descriptions below never pass a float or a container to [str]. *)
Definition py_repr (v : pyval) : string := "<object>".
Definition VERSION : pyval := PStr "2.0.0".
Definition now : string := "2023-12-07T00:00:00+00:00".
Definition current_year : Z := 2023.
Definition strptime_iso (s : string) : option string := None.

Definition mass_id : string := "93a60a56-a3c8-11da-a746-0800200b9a66".
Definition energy_id : string := "f6811440-ee37-11de-8a39-0800200c9a66".

Definition unit_ref (v : pyval) : result (option Ref) :=
  match v with
  | PStr "kg" =>
      Ok (Some (mkRef (Some "Unit") (PStr "20aadc24-a391-41cf-b340-3e4529f44bde")
                  (PStr "kg") PNone))
  | PStr "MJ" =>
      Ok (Some (mkRef (Some "Unit") (PStr "52765a6c-3896-43c2-b2f4-c679acf13efe")
                  (PStr "MJ") PNone))
  | PStr "MWh" =>
      Ok (Some (mkRef (Some "Unit") (PStr "92e3bd49-8ed5-4885-9db6-fc88c7afcfcb")
                  (PStr "MWh") PNone))
  | PList _ | PDict _ => Raise TypeError
  | _ => Ok None
  end.

Definition property_ref (v : pyval) : result (option Ref) :=
  match v with
  | PStr "kg" =>
      Ok (Some (mkRef (Some "FlowProperty") (PStr mass_id) (PStr "Mass") PNone))
  | PStr "MJ" | PStr "MWh" =>
      Ok (Some (mkRef (Some "FlowProperty") (PStr energy_id) (PStr "Energy") PNone))
  | PList _ | PDict _ => Raise TypeError
  | _ => Ok None
  end.

Definition as_ref (e : option entity) : result (option Ref) :=
  match e with
  | None => Raise AttributeError
  | Some (ERef r) => Ok (Some r)
  | Some e => rbind (to_ref e) (fun r => Ok (Some r))
  end.

Definition read_fedefl : result (list entity * list entity) :=
  Ok ([],
      [ EOpaque "FlowProperty" (PStr mass_id) (PStr "Mass");
        EOpaque "FlowProperty" (PStr energy_id) (PStr "Energy") ]).

Definition process_to_dict (p : Process) : list (string * pyval) :=
  [ ("@type", PStr "Process"); ("@id", p_id p); ("name", p_name p);
    ("category", p_category p) ].

Definition lib : Library :=
  mkLibrary py_repr VERSION now current_year strptime_iso unit_ref
    property_ref as_ref read_fedefl process_to_dict.

End Env.

(** ** Vocabulary of the statements *)

(** The path segment an argument of [_uid] contributes: its text, trimmed,
    in lower case. *)
Definition segment (lib : Library) (arg : pyarg) : string :=
  PyStr.lower (PyStr.strip (arg_str lib arg)).


(** An entry of an exchange list yields an exchange unless it is [None]. *)
Definition is_entry (e : pyval) : bool :=
  match e with
  | PNone => false
  | _ => true
  end.

(** The exchange is marked as quantitative reference. *)
Definition flagged (e : Exchange) : bool :=
  py_truthy (is_quantitative_reference e).

(** What an exchange owes to the entry it was built from: the flag and the
    amount as given (with their defaults), and no flow when the entry has no
    flow dictionary. *)
Definition built_from (e : pyval) (x : Exchange) : Prop :=
  is_quantitative_reference x
    = _val e ["quantitativeReference"] (Some (PBool false)) /\
  amount x = _val e ["amount"] (Some (PFloat (FFin 0))) /\
  ((forall kvs, _val e ["flow"] None <> PDict kvs) -> e_flow x = None).

(** [n; n + 1; ...], [k] numbers. *)
Fixpoint count_from (n : Z) (k : nat) : list Z :=
  match k with
  | O => []
  | S k' => n :: count_from (n + 1) k'
  end.


(** The flag an entry of an exchange list carries. *)
Definition entry_flag (e : pyval) : pyval :=
  _val e ["quantitativeReference"] (Some (PBool false)).

(** *** Sample descriptions *)

(** The empty root entity dictionary, nothing logged. *)
Definition sample_world : world := mkWorld _root_entity_dict [].

(** Two entries marked as quantitative reference, around one that is not. *)
Definition two_references : pyval :=
  PDict [("name", PStr "plant");
         ("exchanges",
          PList [PDict [("quantitativeReference", PBool true);
                        ("amount", PInt 1); ("unit", PStr "MWh")];
                 PDict [("amount", PInt 2); ("unit", PStr "MJ")];
                 PNone;
                 PDict [("quantitativeReference", PBool true);
                        ("amount", PInt 3); ("unit", PStr "MWh")]])].



(** The identifier is in the [ids] list of the entity name. *)
Definition registered (reg : registry) (key : string) (uid : pyval) : bool :=
  match dict_get reg key with
  | Some s => py_in uid (ids s)
  | None => false
  end.

(** The identifier [_process] resolves for a description. *)
Definition process_uid (lib : Library) (dict_d : pyval) : pyval :=
  match _val dict_d ["@id"] None with
  | PNone =>
      PStr (_uid lib [AModel PROCESS;
                      AVal (_val dict_d ["category"] (Some (PStr "")));
                      AVal (_val dict_d ["location"; "name"] (Some (PStr "")));
                      AVal (_val dict_d ["name"] None)])
  | uid => uid
  end.

(** A process description with an identifier that is no UUID. *)
Definition process_with_bad_id : pyval :=
  PDict [("@id", PStr "not-a-uuid"); ("name", PStr "plant");
         ("category", PStr "power"); ("location", PStr "US")].


(** A waste flow that states another flow type, and a registry that
    already holds a flow under its identifier. *)
Definition waste_flow_items : list (string * pyval) :=
  [("id", PStr "0f1d2a4c-7b1e-4c55-9d0a-3f2b6c8e9a10");
   ("name", PStr "Ash"); ("category", PStr "Waste/solid");
   ("flowType", PStr "ELEMENTARY_FLOW")].

Definition waste_flow : pyval := PDict waste_flow_items.

Definition waste_world : world :=
  mkWorld
    (dict_set _root_entity_dict "Flow"
       (mkSlot [PStr "0f1d2a4c-7b1e-4c55-9d0a-3f2b6c8e9a10"]
               [EFlow (mkFlow (PStr "0f1d2a4c-7b1e-4c55-9d0a-3f2b6c8e9a10")
                         (PStr "Ash") (PStr "Waste/solid")
                         (Some WASTE_FLOW) None)]))
    [].


(** *** Merging, as the specification words it *)

Definition is_pystr (v : pyval) : bool :=
  match v with
  | PStr _ => true
  | _ => false
  end.

(** The entries of a slot: identifier and object, in list order. *)
Definition entries_of (s : slot) : list (pyval * entity) :=
  combine (ids s) (objs s).

(** A slot the merge reads in full: one object per identifier, and
    identifiers that are strings. *)
Definition aligned (s : slot) : Prop :=
  length (ids s) = length (objs s) /\
  Forall (fun uid => is_pystr uid = true) (ids s).

(** [dict(zip(ids, objs))], the entries as Python keeps them in a
    dictionary: an identifier that comes twice keeps its first place and
    its last object. *)
Definition as_dict (l : list (pyval * entity)) : list (pyval * entity) :=
  odict_update [] l.

Fixpoint odict_get (d : list (pyval * entity)) (k : pyval) : option entity :=
  match d with
  | [] => None
  | (k', v) :: r => if py_same k' k then Some v else odict_get r k
  end.

(** No entry of the dictionary has this identifier. *)
Definition absent (d : list (pyval * entity)) (k : pyval) : bool :=
  match odict_get d k with
  | Some _ => false
  | None => true
  end.

(** The merge of section 4.6: the existing entries in their order, each
    replaced by the fresh entry of the same identifier when there is one,
    then the fresh entries whose identifier is not among the existing. *)
Definition merge_spec (existing fresh : list (pyval * entity))
  : list (pyval * entity) :=
  map (fun kv => (fst kv, match odict_get fresh (fst kv) with
                          | Some v => v
                          | None => snd kv
                          end)) existing
  ++ filter (fun kv => absent existing (fst kv)) fresh.

(** Every key of the dictionary is a string. *)
Definition str_keys (d : list (pyval * entity)) : Prop :=
  Forall (fun kv => is_pystr (fst kv) = true) d.


(** An archive side and a fresh side that share one identifier. *)
Definition archived_flows : registry :=
  [("Flow", mkSlot [PStr "flow-a"; PStr "flow-b"]
                   [EOpaque "Flow" (PStr "flow-a") (PStr "old a");
                    EOpaque "Flow" (PStr "flow-b") (PStr "old b")])].

Definition fresh_flows : registry :=
  [("Flow", mkSlot [PStr "flow-b"; PStr "flow-c"]
                   [EOpaque "Flow" (PStr "flow-b") (PStr "new b");
                    EOpaque "Flow" (PStr "flow-c") (PStr "new c")]);
   ("Process", mkSlot [] [])].


(** *** The registry an archive denotes *)

(** The items of [l] that are not in [seen], each at its first place. *)
Fixpoint first_occurrences (seen l : list string) : list string :=
  match l with
  | [] => []
  | x :: r =>
      if existsb (fun y => String.eqb y x) seen then first_occurrences seen r
      else x :: first_occurrences (seen ++ [x]) r
  end.

(** The archive has a document of the class under the identifier, and the
    document can be read. *)
Definition readable (entries : list zentry) (name rid : string) : bool :=
  match zip_read entries name rid with
  | Some _ => true
  | None => false
  end.

(** The identifiers of a class that have a readable document, each once,
    in the order of the archive; and the slot they make with the objects
    of their documents. *)
Definition archive_ids (entries : list zentry) (name : string) : list string :=
  first_occurrences [] (filter (readable entries name) (ids_of entries name)).

Definition archive_slot (entries : list zentry) (name : string) : slot :=
  mkSlot (map PStr (archive_ids entries name))
         (flat_map (fun rid => match zip_read entries name rid with
                               | Some r_obj => [r_obj]
                               | None => []
                               end)
                   (archive_ids entries name)).

Definition archive_registry (entries : list zentry) : registry :=
  map (fun name => (name, archive_slot entries name)) root_entity_names.

(** All objects of a registry, in the order [_save_to_json] visits them. *)
Definition all_objects (e_dict : registry) : list entity :=
  flat_map (fun kv => objs (snd kv)) e_dict.

(** A prior archive with one process, a registry with one new flow, and a
    registry with an actor that has no identifier. *)
Definition prior_archive : file :=
  Archive [mkZentry "Process" "process-1"
             (Some (EOpaque "Process" (PStr "process-1") (PStr "plant")))].

Definition registry_with_flow : registry :=
  dict_set _root_entity_dict "Flow"
    (mkSlot [PStr "flow-c"] [EOpaque "Flow" (PStr "flow-c") (PStr "new c")]).

Definition registry_with_unnamed_actor : registry :=
  dict_set _root_entity_dict "Actor"
    (mkSlot [PNone] [EOpaque "Actor" PNone (PStr "nobody")]).


(** A process description submitted under two names, and a process whose
    two exchanges use the same flow, given without identifier. *)
Definition plant : pyval :=
  PDict [("name", PStr "plant"); ("category", PStr "power");
         ("location", PStr "US")].

Definition plant_with_two_emissions : pyval :=
  PDict [("name", PStr "plant");
         ("exchanges",
          PList [PDict [("amount", PInt 1);
                        ("flow", PDict [("name", PStr "Carbon dioxide");
                                        ("category", PStr "air")])];
                 PDict [("amount", PInt 2);
                        ("flow", PDict [("name", PStr "Carbon dioxide");
                                        ("category", PStr "air")])]])].


(** Every slot of the registry holds one object per string identifier, and
    no identifier twice. *)
Definition tidy (reg : registry) : Prop :=
  forall k s, dict_get reg k = Some s -> aligned s /\ NoDup (ids s).

(** *** Descriptions that build without an exception *)

(** The call has only logged: the registry is as before. *)
Definition only_logs (w w' : world) : Prop :=
  dict_s w' = dict_s w /\ exists extra, logged w' = (logged w ++ extra)%list.

(** The unit of an exchange entry. *)
Definition unit_of (e : pyval) : pyval := _val e ["unit"] (Some (PStr "kg")).

(** The units table answers for the name, and when it names a flow
    property the registry can be searched for it: the slot of the flow
    properties has an object for every identifier, none of them a bare
    reference. *)
Definition property_ready (lib : Library) (reg : registry) (v : pyval) : Prop :=
  exists p_ref,
    property_ref lib v = Ok p_ref /\
    match p_ref with
    | None => True
    | Some _ =>
        exists s, dict_get reg "FlowProperty" = Some s /\
                  (length (ids s) <= length (objs s))%nat /\
                  Forall (fun o => exists rf, to_ref o = Ok rf) (objs s)
    end.

Definition unit_ready (lib : Library) (reg : registry) (u : pyval) : Prop :=
  match u with
  | PDict kvs =>
      match dict_get kvs "name" with
      | Some v => (exists r, unit_ref lib v = Ok r) /\ property_ready lib reg v
      | None => exists r, unit_ref lib (PStr "") = Ok r
      end
  | _ => (exists r, unit_ref lib u = Ok r) /\ property_ready lib reg u
  end.

(** An exchange entry with no flow dictionary and an amount of any kind,
    and nothing else that could stop the build: no data quality entry, a
    unit that can be looked up, no uncertainty record and no provider. *)
Definition plain_entry (lib : Library) (reg : registry) (e : pyval) : Prop :=
  (forall s, _val e ["dqEntry"] None <> PStr s) /\
  unit_ready lib reg (unit_of e) /\
  (forall kvs, _val e ["flow"] None <> PDict kvs) /\
  (forall kvs, _val e ["uncertainty"] None <> PDict kvs) /\
  (forall kvs, _val e ["provider"] None <> PDict kvs).

(** A process description without location, documentation and data
    quality records. *)
Definition bare_process (dict_d : pyval) : Prop :=
  Forall (fun k => _val dict_d [k] None = PNone)
         ["location"; "processDocumentation"; "dqEntry"; "dqSystem";
          "exchangeDqSystem"].

(** *** The text of an identifier *)

(** Every character of the string passes the test. *)
Fixpoint all_chars (p : ascii -> bool) (s : string) : bool :=
  match s with
  | EmptyString => true
  | String c r => p c && all_chars p r
  end.

(** A decimal digit or a letter from a to f. *)
Definition is_lower_hex (c : ascii) : bool :=
  let n := PyStr.code c in
  ((48 <=? n) && (n <=? 57)) || ((97 <=? n) && (n <=? 102)).

(** *** Sources with a name *)


(** A registry with the flow property of mass. *)
Definition world_with_mass : world :=
  mkWorld
    (dict_set _root_entity_dict "FlowProperty"
       (mkSlot [PStr Env.mass_id]
               [EOpaque "FlowProperty" (PStr Env.mass_id) (PStr "Mass")]))
    [].

(** *** What a call does to the registry *)

(** Whenever the call returns, the registry it leaves is related by [R] to
    the registry it was given. *)
Definition keeps {A : Type} (R : registry -> registry -> Prop) (m : M A)
  : Prop :=
  forall w a w', m w = Ok (a, w') -> R (dict_s w) (dict_s w').

(** The slot of [key] is the same in both registries. *)
Definition same_slot (key : string) (reg reg' : registry) : Prop :=
  dict_get reg' key = dict_get reg key.

(** The second registry has the entity names of the first, in the same
    order, and every slot has only grown at its end, by as many objects as
    identifiers. *)
Definition grown (reg reg' : registry) : Prop :=
  map fst reg' = map fst reg /\
  forall key s, dict_get reg key = Some s ->
    exists new_ids new_objs,
      dict_get reg' key
      = Some (mkSlot (ids s ++ new_ids) (objs s ++ new_objs)) /\
      length new_ids = length new_objs.


(** A process whose only exchange names the process that provides it. *)
Definition plant_with_provider : pyval :=
  PDict [("name", PStr "plant");
         ("exchanges",
          PList [PDict [("amount", PInt 1);
                        ("flow", PDict [("name", PStr "Coal");
                                        ("category", PStr "resource")]);
                        ("provider", PDict [("name", PStr "mine")])]])].

(** * Properties *)

(** ** Strings *)

Lemma lower_app (a b : string) :
  PyStr.lower (a ++ b) = PyStr.lower a ++ PyStr.lower b.
Proof.
  induction a as [|c a IH]; simpl; [reflexivity | now rewrite IH].
Qed.

Lemma lower_join (sep : string) (l : list string) :
  PyStr.lower (PyStr.join sep l) =
  PyStr.join (PyStr.lower sep) (map PyStr.lower l).
Proof.
  induction l as [|x r IH]; [reflexivity|].
  destruct r as [|y r]; [reflexivity|].
  change (PyStr.join sep (x :: y :: r)) with (x ++ sep ++ PyStr.join sep (y :: r)).
  rewrite !lower_app, IH. reflexivity.
Qed.

(** ** C2: identifier derivation *)

Section Identity.
Variable lib : Library.

Lemma uid_of_segments (args : list pyarg) :
  _uid lib args = UUID.uuid3 (PyStr.join "/" (map (segment lib) args)).
Proof.
  unfold _uid. rewrite lower_join, map_map. reflexivity.
Qed.

(** C2. [_uid] is a function of the trimmed, lower-cased path segments: two
    argument sequences whose corresponding segments agree once trimmed and
    compared without case derive the same identifier.  Calling it twice on
    the same arguments is the case of equal sequences. *)
Theorem uid_deterministic (args1 args2 : list pyarg) :
  Forall2 (fun a b => segment lib a = segment lib b) args1 args2 ->
  _uid lib args1 = _uid lib args2.
Proof.
  intros H. rewrite !uid_of_segments. f_equal. f_equal.
  induction H as [|a b l1 l2 Hab _ IH]; simpl; [reflexivity|].
  now rewrite Hab, IH.
Qed.

End Identity.

Lemma uid_deterministic_witness :
  let args1 := [AModel PROCESS; AVal (PStr " Power Plants "); AVal (PStr "US");
                AVal (PStr "Electricity; at grid")] in
  let args2 := [AModel PROCESS; AVal (PStr "power plants"); AVal (PStr "us ");
                AVal (PStr "ELECTRICITY; AT GRID")] in
  Forall2 (fun a b => segment Env.lib a = segment Env.lib b) args1 args2 /\
  _uid Env.lib args1 = _uid Env.lib args2.
Proof.
  intros args1 args2.
  assert (H : Forall2 (fun a b => segment Env.lib a = segment Env.lib b) args1 args2)
    by (repeat constructor).
  split; [exact H | exact (uid_deterministic Env.lib args1 args2 H)].
Defined.

(** ** The builder monad *)

Lemma item_with_get {A : Type} (key : string) (found : pyval -> A)
    (missing : A) (kvs : list (string * pyval)) :
  item_with key found missing kvs =
  match dict_get kvs key with Some v => found v | None => missing end.
Proof.
  induction kvs as [|[k v] r IH]; simpl; [reflexivity|].
  destruct (String.eqb k key); [reflexivity|exact IH].
Qed.

Lemma bind_ok {A B : Type} (m : M A) (k : A -> M B) (w : world) (r : B * world) :
  bind m k w = Ok r -> exists a w1, m w = Ok (a, w1) /\ k a w1 = Ok r.
Proof.
  unfold bind. destruct (m w) as [[a w1]|e]; [|discriminate].
  intros H. now exists a, w1.
Qed.

Lemma bind_raise {A B : Type} (m : M A) (k : A -> M B) (w : world) (e : exn) :
  m w = Raise e -> bind m k w = Raise e.
Proof. unfold bind. now intros ->. Qed.

Lemma bind_step {A B : Type} (m : M A) (k : A -> M B) (w w1 : world) (a : A) :
  m w = Ok (a, w1) -> bind m k w = k a w1.
Proof. unfold bind. now intros ->. Qed.

Lemma lift_ok {A : Type} (x : result A) (w : world) (r : A * world) :
  lift x w = Ok r -> exists a, x = Ok a /\ r = (a, w).
Proof.
  unfold lift. destruct x as [a|e]; [|discriminate].
  intros H. exists a. split; [reflexivity | congruence].
Qed.

Lemma ret_ok {A : Type} (a : A) (w : world) (r : A * world) :
  ret a w = Ok r -> r = (a, w).
Proof. unfold ret. congruence. Qed.

(** Peels the binds of a computation known to return. *)
Ltac run_ok H :=
  repeat (cbv beta zeta in H;
          match type of H with
          | bind _ _ _ = Ok _ =>
              let a := fresh "a" in
              let w := fresh "w" in
              let Hm := fresh "Hm" in
              apply bind_ok in H; destruct H as (a & w & Hm & H)
          | ret _ _ = Ok _ => apply ret_ok in H
          | log _ _ _ = Ok _ => unfold log in H
          end).

(** Replaces the world after a log line by its value. *)
Ltac logs :=
  repeat match goal with
         | Hl : log _ _ _ = Ok _ |- _ =>
             unfold log in Hl; injection Hl as ? ?; subst
         end.

Lemma reg_find_ok (key : string) (uid : pyval) (w w' : world) (o : option entity) :
  reg_find key uid w = Ok (o, w') ->
  w' = w /\
  registered (dict_s w) key uid = match o with Some _ => true | None => false end.
Proof.
  unfold reg_find, reg_slot, registered, bind.
  destruct (dict_get (dict_s w) key) as [s|]; [|discriminate].
  destruct (py_in uid (ids s)).
  - destruct (py_index uid (ids s)) as [idx|]; [|discriminate].
    destruct (nth_error (objs s) idx); [|discriminate].
    unfold ret. intros H. injection H as <- <-. auto.
  - unfold ret. intros H. injection H as <- <-. auto.
Qed.

Lemma dict_get_set_same {A : Type} (kvs : list (string * A)) (k : string) (v : A) :
  dict_get (dict_set kvs k v) k = Some v.
Proof.
  induction kvs as [|[k' x] r IH]; simpl.
  - now rewrite String.eqb_refl.
  - destruct (String.eqb k' k) eqn:E; simpl; rewrite E; [reflexivity | exact IH].
Qed.

Lemma reg_find_new (key : string) (uid : pyval) (w : world) (s : slot) :
  dict_get (dict_s w) key = Some s ->
  registered (dict_s w) key uid = false ->
  reg_find key uid w = Ok (None, w).
Proof.
  unfold registered, reg_find, reg_slot, bind. intros -> ->. reflexivity.
Qed.

Lemma only_logs_refl (w : world) : only_logs w w.
Proof. split; [reflexivity|]. exists []. now rewrite app_nil_r. Qed.

Lemma only_logs_trans (w1 w2 w3 : world) :
  only_logs w1 w2 -> only_logs w2 w3 -> only_logs w1 w3.
Proof.
  intros (D1 & x1 & L1) (D2 & x2 & L2). split; [congruence|].
  exists (x1 ++ x2)%list. now rewrite L2, L1, app_assoc.
Qed.

Lemma only_logs_log (w : world) (lvl : level) (msg : string) :
  only_logs w (mkWorld (dict_s w) (logged w ++ [(lvl, msg)])).
Proof. split; [reflexivity|]. now exists [(lvl, msg)]. Qed.

Lemma only_logs_in (w w' : world) (l : level * string) :
  only_logs w w' -> In l (logged w) -> In l (logged w').
Proof.
  intros (_ & x & ->) H. apply in_or_app. now left.
Qed.

Lemma py_index_in (x : pyval) (l : list pyval) :
  py_in x l = true ->
  exists idx, py_index x l = Some idx /\ (idx < length l)%nat.
Proof.
  unfold py_in. induction l as [|y l IH]; simpl; [discriminate|].
  destruct (py_same y x); simpl.
  - intros _. exists O. split; [reflexivity | lia].
  - intros H. destruct (IH H) as (idx & -> & Hlt). exists (S idx).
    split; [reflexivity | lia].
Qed.

(** Searching a slot that has an object for every identifier does not
    raise, and finds an object of the slot. *)
Lemma reg_find_total (key : string) (uid : pyval) (w : world) (s : slot) :
  dict_get (dict_s w) key = Some s ->
  (length (ids s) <= length (objs s))%nat ->
  exists o, reg_find key uid w = Ok (o, w) /\
            forall x, o = Some x -> In x (objs s).
Proof.
  intros Hs Hlen. unfold reg_find, bind, reg_slot. rewrite Hs.
  destruct (py_in uid (ids s)) eqn:Hin.
  - destruct (py_index_in _ _ Hin) as (idx & -> & Hlt).
    destruct (nth_error (objs s) idx) as [o|] eqn:Hn.
    + exists (Some o). split; [reflexivity|]. intros x E. injection E as <-.
      eapply nth_error_In. exact Hn.
    + apply nth_error_None in Hn. lia.
  - exists None. split; [reflexivity | discriminate].
Qed.

Lemma reg_append_ok (key : string) (uid : pyval) (obj : entity) (w : world)
    (s : slot) :
  dict_get (dict_s w) key = Some s ->
  reg_append key uid obj w
  = Ok (tt, mkWorld (dict_set (dict_s w) key
                       (mkSlot (ids s ++ [uid]) (objs s ++ [obj])))
                    (logged w)).
Proof. intros Hs. unfold reg_append, bind, reg_slot. now rewrite Hs. Qed.

(** ** C9: uncertainty *)

(** C9. A log-normal record whose geometric mean is a string that is not a
    number makes [_uncertainty] raise [ValueError]: [float] is applied to it
    before the check that would have returned [None]. *)
Theorem uncertainty_unparseable_mean_raises (w : world) :
  _uncertainty
    (PDict [("distributionType", PStr "Logarithmic Normal Distribution");
            ("geomMean", PStr "abc"); ("geomSd", PStr "1.1")]) w
  = Raise ValueError.
Proof. vm_compute. reflexivity. Qed.

(** The scenario of the specification: numeric strings become numbers,
    the binary64 numbers nearest to 3.2 and 1.1. *)
Lemma uncertainty_numeric_strings (w : world) :
  _uncertainty
    (PDict [("distributionType", PStr "Logarithmic Normal Distribution");
            ("geomMean", PStr "3.2"); ("geomSd", PStr "1.1")]) w
  = Ok (Some (mkUncertainty LOG_NORMAL_DISTRIBUTION
                (PFloat (binary64 (16 # 5))) (PFloat (binary64 (11 # 10)))), w)
  /\ binary64 (16 # 5) = FFin (3602879701896397 # 2 ^ 50)
  /\ binary64 (11 # 10) = FFin (2476979795053773 # 2 ^ 51).
Proof. repeat split; vm_compute; reflexivity. Qed.

(** Numbers are taken as they are. *)
Lemma uncertainty_numbers (kvs : list (string * pyval)) (gmean gsd : pyval)
    (w : world) :
  _val (PDict kvs) ["distributionType"] None
    = PStr "Logarithmic Normal Distribution" ->
  _val (PDict kvs) ["geomMean"] None = gmean ->
  _val (PDict kvs) ["geomSd"] None = gsd ->
  (forall s, gmean <> PStr s) -> (forall s, gsd <> PStr s) ->
  _isnum gmean = Ok true -> _isnum gsd = Ok true ->
  _uncertainty (PDict kvs) w
  = Ok (Some (mkUncertainty LOG_NORMAL_DISTRIBUTION gmean gsd), w).
Proof.
  intros Hdt Hm Hs Nm Ns Im Is. unfold _uncertainty.
  rewrite Hdt, Hm, Hs. simpl py_eqb. simpl negb.
  destruct gmean; try discriminate; try (exfalso; eapply Nm; reflexivity);
    destruct gsd; try discriminate; try (exfalso; eapply Ns; reflexivity);
    unfold bind, lift, ret; simpl in *; rewrite ?Im, ?Is; reflexivity.
Qed.

(** Any other distribution type, or a value that is no dictionary, gives no
    uncertainty. *)
Lemma uncertainty_other_distribution (dict_d : pyval) (w : world) :
  py_eqb (_val dict_d ["distributionType"] None)
         (PStr "Logarithmic Normal Distribution") = false ->
  exists w', _uncertainty dict_d w = Ok (None, w').
Proof.
  intros H. unfold _uncertainty. destruct dict_d; try (eexists; reflexivity).
  rewrite H. simpl. eexists. reflexivity.
Qed.

(** ** C8: documentation and actors *)

Lemma format_date_returns (lib : Library) (entry : pyval) (w : world) :
  exists v w', _format_date lib entry w = Ok (v, w').
Proof.
  unfold _format_date. destruct entry; try (eexists; eexists; reflexivity).
  destruct (strptime_iso lib s); eexists; eexists; reflexivity.
Qed.

(** An actor name that is missing, empty or no string makes [_actor] return
    a bare [None]. *)
Lemma actor_unnamed (lib : Library) (name : pyval) (w : world) :
  (forall s, name = PStr s -> s = "") ->
  _actor lib name w = Ok (ReturnsNone, w).
Proof.
  intros H. unfold _actor. destruct name; try reflexivity.
  rewrite (H s eq_refl). reflexivity.
Qed.

(** A documentation dictionary whose reviewer is missing, empty or no string
    cannot be built: the bare [None] of [_actor] is unpacked as a pair. *)
Lemma process_doc_unnamed_reviewer_raises (lib : Library)
    (kvs : list (string * pyval)) (w : world) :
  (forall s, _val (PDict kvs) ["reviewer"] None = PStr s -> s = "") ->
  _process_doc lib (PDict kvs) w = Raise TypeError.
Proof.
  intros H. unfold _process_doc.
  destruct (format_date_returns lib (_val (PDict kvs) ["validFrom"] None) w)
    as (v1 & w1 & E1).
  rewrite (bind_step _ _ _ _ _ E1).
  destruct (format_date_returns lib (_val (PDict kvs) ["validUntil"] None) w1)
    as (v2 & w2 & E2).
  rewrite (bind_step _ _ _ _ _ E2).
  apply bind_raise. unfold unpack.
  rewrite (bind_step _ _ _ _ _ (actor_unnamed lib _ w2 H)). reflexivity.
Qed.

(** A documentation value that is no dictionary is skipped. *)
Lemma process_doc_not_a_dict (lib : Library) (dict_d : pyval) (w : world) :
  (forall kvs, dict_d <> PDict kvs) ->
  exists doc, _process_doc lib dict_d w = Ok (doc, w) /\ reviewer doc = None.
Proof.
  intros H. unfold _process_doc.
  destruct dict_d; try (eexists; split; reflexivity).
  exfalso. eapply H. reflexivity.
Qed.

(** C8. A process description whose documentation dictionary names no
    reviewer aborts the whole [write]: [TypeError] escapes and nothing is
    saved. *)
Theorem write_aborts_on_unnamed_actor :
  write Env.lib
    [("plant", PDict [("name", PStr "plant");
                      ("processDocumentation",
                       PDict [("timeDescription", PStr "2016")])])]
    true (mkIO None None)
  = (mkIO None None, Raise TypeError).
Proof. vm_compute. reflexivity. Qed.

(** ** Exchanges *)

Section Exchanges.
Variable lib : Library.

(** A flow record that is no dictionary: no flow, and a warning. *)
Lemma flow_not_a_dict (dict_d : pyval) (flowprop : option entity) (w : world) :
  (forall kvs, dict_d <> PDict kvs) ->
  _flow lib dict_d flowprop w
  = (dict_d, Ok (None, mkWorld (dict_s w)
                         (logged w ++ [(WARNING, "No flow data received!")]))).
Proof.
  intros H. destruct dict_d; try reflexivity.
  exfalso. eapply H. reflexivity.
Qed.

Lemma exchange_body_ok (dict_d : pyval)
    (provider : M (option Process * option Exchange))
    (w w' : world) (o : option Exchange) :
  exchange_body lib dict_d provider w = Ok (o, w') ->
  exists x, o = Some x /\ internal_id x = 0 /\ built_from dict_d x.
Proof.
  intros H. unfold exchange_body in H. run_ok H.
  destruct a5 as [p_ref e_ref]. run_ok H.
  injection H as -> ->.
  eexists. split; [reflexivity|]. split; [reflexivity|].
  repeat split.
  intros Hflow. simpl.
  match goal with
  | Hf : snd (_flow lib _ ?fp ?w0) = Ok _ |- _ =>
      rewrite (flow_not_a_dict _ fp w0 Hflow) in Hf; simpl in Hf; congruence
  end.
Qed.

(** [_exchange], as the source writes it. *)
Lemma exchange_unfold (dict_d : pyval) (w : world) :
  _exchange lib dict_d w =
  match dict_d with
  | PNone => (log DEBUG "No exchange data!" ;; ret None) w
  | _ => exchange_body lib dict_d
           (_process lib (_val dict_d ["provider"] None)) w
  end.
Proof.
  destruct dict_d; try reflexivity.
  simpl _exchange. rewrite item_with_get. unfold _val. simpl first_key.
  destruct (dict_get kvs "provider") as [[]|]; reflexivity.
Qed.

Lemma exchange_ok (dict_d : pyval) (w w' : world) (o : option Exchange) :
  _exchange lib dict_d w = Ok (o, w') ->
  match o with
  | None => dict_d = PNone
  | Some x => dict_d <> PNone /\ internal_id x = 0 /\ built_from dict_d x
  end.
Proof.
  rewrite exchange_unfold. intros H.
  destruct dict_d;
    try (apply exchange_body_ok in H; destruct H as (x & -> & H);
         split; [discriminate | exact H]).
  unfold bind, log, ret in H. injection H as <- _. reflexivity.
Qed.

Lemma filter_entry_cons (e : pyval) (rest : list pyval) :
  e <> PNone -> filter is_entry (e :: rest) = e :: filter is_entry rest.
Proof. intros H. destruct e; try reflexivity. now elim H. Qed.

(** The loop of [_exchange_list]: one exchange per entry that is not
    [None], in order, numbered from the counter on; the reference is the
    last exchange whose flag is true, or the one handed in. *)
Lemma exchange_loop_spec (ex : pyval -> M (option Exchange)) :
  (forall e w o w', ex e w = Ok (o, w') ->
     match o with
     | None => e = PNone
     | Some x => e <> PNone /\ internal_id x = 0 /\ built_from e x
     end) ->
  forall l r0 n0 q0 w r n q w',
    exchange_loop ex l (r0, n0, q0) w = Ok ((r, n, q), w') ->
    exists xs,
      r = (r0 ++ xs)%list /\
      Forall2 built_from (filter is_entry l) xs /\
      map internal_id xs = count_from (n0 + 1) (length xs) /\
      n = n0 + Z.of_nat (length xs) /\
      q = fold_left (fun acc e => if flagged e then Some e else acc) xs q0.
Proof.
  intros Hex. induction l as [|e rest IH]; intros r0 n0 q0 w r n q w' H.
  - apply ret_ok in H. injection H as <- <- <- <-.
    exists []. rewrite app_nil_r. simpl. repeat split; [constructor | lia].
  - simpl in H. apply bind_ok in H. destruct H as (o & w1 & He & H).
    apply Hex in He. destruct o as [x|].
    + destruct He as (Hne & Hid & Hb).
      apply IH in H. destruct H as (xs & -> & HF & Hids & -> & ->).
      exists (set_internal_id x (n0 + 1) :: xs).
      rewrite <- app_assoc, (filter_entry_cons e rest Hne). simpl.
      repeat split.
      * constructor; [exact Hb | exact HF].
      * now rewrite Hids.
      * lia.
    + subst e. apply IH in H. exact H.
Qed.

Lemma last_flagged_spec (xs : list Exchange) : forall q0,
  match fold_left (fun acc e => if flagged e then Some e else acc) xs q0 with
  | Some e =>
      (exists before after,
          xs = (before ++ e :: after)%list /\ flagged e = true /\
          Forall (fun x => flagged x = false) after)
      \/ (q0 = Some e /\ Forall (fun x => flagged x = false) xs)
  | None => q0 = None /\ Forall (fun x => flagged x = false) xs
  end.
Proof.
  induction xs as [|x xs IH]; intros q0; simpl.
  - destruct q0; [right|]; split; auto.
  - specialize (IH (if flagged x then Some x else q0)).
    destruct (fold_left _ xs _) as [e|]; destruct (flagged x) eqn:Fx.
    + left. destruct IH as [(b & a & -> & Fe & Ha) | [Hq Hxs]].
      * exists (x :: b), a. auto.
      * injection Hq as <-. exists [], xs. auto.
    + destruct IH as [(b & a & -> & Fe & Ha) | [Hq Hxs]].
      * left. exists (x :: b), a. auto.
      * right. split; [exact Hq | constructor; assumption].
    + destruct IH as [Hq _]. discriminate.
    + destruct IH as [Hq Hxs]. split; [exact Hq | constructor; assumption].
Qed.

(** What [_exchange_list] returns, against the entries it iterates. *)
Lemma exchange_list_spec (dict_d : pyval) (w w' : world)
    (r_list : list Exchange) (q_ref : option Exchange) :
  _exchange_list lib dict_d w = Ok (r_list, q_ref, w') ->
  exists entries,
    py_iter (_val dict_d ["exchanges"] (Some (PList []))) = Ok entries /\
    Forall2 built_from (filter is_entry entries) r_list /\
    map internal_id r_list = count_from 1 (length r_list) /\
    q_ref = fold_left (fun acc e => if flagged e then Some e else acc) r_list None.
Proof.
  intros H. unfold _exchange_list in H.
  apply bind_ok in H. destruct H as (l & w1 & Hl & H).
  apply lift_ok in Hl. destruct Hl as (l' & Hl & E). injection E as <- <-.
  unfold exchange_for in H.
  apply bind_ok in H. destruct H as ([[r n] q] & w2 & Hloop & H).
  apply ret_ok in H. injection H as <- <- <-.
  apply (exchange_loop_spec (_exchange lib)
           (fun e w o w' => exchange_ok e w w' o)) in Hloop.
  destruct Hloop as (xs & -> & HF & Hids & _ & ->).
  exists l. simpl. auto.
Qed.

End Exchanges.

(** ** [_process], as the source writes it *)

Lemma bind_ext {A B : Type} (m : M A) (k1 k2 : A -> M B) (w : world) :
  (forall a w', k1 a w' = k2 a w') -> bind m k1 w = bind m k2 w.
Proof.
  intros H. unfold bind. destruct (m w) as [[a w']|e]; [apply H | reflexivity].
Qed.

Lemma bind_ext_l {A B : Type} (m1 m2 : M A) (k : A -> M B) (w : world) :
  m1 w = m2 w -> bind m1 k w = bind m2 k w.
Proof. unfold bind. now intros ->. Qed.

Lemma exchange_loop_ext (ex1 ex2 : pyval -> M (option Exchange))
    (l : list pyval) :
  (forall e w, In e l -> ex1 e w = ex2 e w) ->
  forall acc w, exchange_loop ex1 l acc w = exchange_loop ex2 l acc w.
Proof.
  induction l as [|e rest IH]; intros H acc w; [reflexivity|].
  simpl. destruct acc as [[r_list last_id] q_ref].
  unfold bind. rewrite (H e w (or_introl eq_refl)).
  destruct (ex2 e w) as [[[x|] w1]|]; try reflexivity;
    apply IH; intros; apply H; now right.
Qed.

Lemma exchange_list_inline (lib : Library) (kvs : list (string * pyval))
    (w : world) :
  item_with "exchanges"
    (fun v =>
       match v with
       | PNone => exchange_for (_exchange lib) []
       | PList l => exchange_for (_exchange lib) l
       | _ =>
           l <- lift (py_iter v) ;;
           exchange_for (fun e => exchange_body lib e (ret (None, None))) l
       end)
    (exchange_for (_exchange lib) []) kvs w
  = _exchange_list lib (PDict kvs) w.
Proof.
  rewrite item_with_get. unfold _exchange_list, _val. simpl first_key.
  destruct (dict_get kvs "exchanges") as [v|]; [|reflexivity].
  destruct v; try reflexivity; simpl py_iter.
  - rewrite !(bind_step (lift (Ok _)) _ w w _ eq_refl). unfold exchange_for.
    apply bind_ext_l. apply exchange_loop_ext.
    intros e w0 He. apply in_map_iff in He. destruct He as (c & <- & _).
    reflexivity.
  - rewrite !(bind_step (lift (Ok _)) _ w w _ eq_refl). unfold exchange_for.
    apply bind_ext_l. apply exchange_loop_ext.
    intros e w0 He. apply in_map_iff in He. destruct He as (c & <- & _).
    reflexivity.
Qed.

Lemma process_unfold (lib : Library) (dict_d : pyval) (w : world) :
  _process lib dict_d w =
  match dict_d with
  | PDict _ => process_body lib dict_d (_exchange_list lib dict_d) w
  | _ => ret (None, None) w
  end.
Proof.
  destruct dict_d; try reflexivity.
  simpl _process. unfold process_body.
  apply bind_ext; intros uid w1. apply bind_ext; intros found w2.
  destruct found; [reflexivity|].
  repeat (apply bind_ext; intros).
  apply bind_ext_l. apply exchange_list_inline.
Qed.

(** At the level of [_process]: the reference handed back with a process,
    stored or new, is the one [_find_ref_exchange] finds on it. *)
Lemma process_reports_reference (lib : Library) (dict_d : pyval)
    (w w' : world) (p : Process) (e_ref : option Exchange) :
  _process lib dict_d w = Ok (Some p, e_ref, w') ->
  e_ref = _find_ref_exchange p.
Proof.
  rewrite process_unfold. intros H.
  destruct dict_d; try (apply ret_ok in H; discriminate).
  unfold process_body in H. apply bind_ok in H.
  destruct H as (uid & w1 & _ & H).
  apply bind_ok in H. destruct H as (found & w2 & _ & H).
  destruct found as [obj|].
  - run_ok H. destruct obj; try discriminate.
    apply ret_ok in H. injection H as -> -> _. reflexivity.
  - run_ok H.
    match goal with x : (list Exchange * option Exchange)%type |- _ =>
      destruct x as [exchanges q] end.
    run_ok H. injection H as -> -> _.
    match goal with
    | Hl : _exchange_list _ _ _ = Ok _ |- _ =>
        apply exchange_list_spec in Hl;
        destruct Hl as (entries & _ & _ & _ & Hq)
    end.
    exact Hq.
Qed.

(** ** Descriptions that build without an exception *)

Section Returning.
Variable lib : Library.

Lemma unit_returns (u : pyval) (w : world) :
  (match u with
   | PDict kvs =>
       match dict_get kvs "name" with
       | Some v => exists r, unit_ref lib v = Ok r
       | None => exists r, unit_ref lib (PStr "") = Ok r
       end
   | _ => exists r, unit_ref lib u = Ok r
   end) ->
  exists r w', _unit lib u w = Ok (r, w') /\ only_logs w w'.
Proof.
  intros H. unfold _unit.
  assert (G : forall v w0, (exists r, unit_ref lib v = Ok r) -> only_logs w w0 ->
            exists r w',
              (log DEBUG "Creating unit, '%s'" ;;
               r_obj <- lift (unit_ref lib v) ;;
               match r_obj with
               | None => log ERROR "unknown unit, '%s'; no unit reference" ;; ret None
               | Some r => ret (Some r)
               end) w0 = Ok (r, w') /\ only_logs w w').
  { intros v w0 (r & Hr) Hw0. unfold bind, log, lift, ret. rewrite Hr.
    destruct r as [r|]; eexists; eexists; (split; [reflexivity|]);
      repeat (eapply only_logs_trans; [|apply only_logs_log]); exact Hw0. }
  destruct u; try (unfold bind at 1, ret at 1; apply G; [exact H | apply only_logs_refl]).
  destruct (dict_get kvs "name") as [v|].
  - unfold bind at 1, ret at 1. apply G; [exact H | apply only_logs_refl].
  - unfold bind at 1 2, log at 1, ret at 1. apply G; [exact H|].
    apply only_logs_log.
Qed.

Lemma flow_property_resolves (v : pyval) (w : world) :
  property_ready lib (dict_s w) v ->
  exists fp w',
    (p_ref <- lift (property_ref lib v) ;;
     match p_ref with
     | None =>
         log ERROR "Unknown unit, '%s'; no flow property reference!" ;;
         ret None
     | Some p_ref =>
         found <- reg_find "FlowProperty" (ref_id p_ref) ;;
         match found with
         | Some r_obj => log DEBUG "Reading existing flow property" ;; ret (Some r_obj)
         | None => log INFO "Failed to find flow property for '%s'" ;; ret None
         end
     end) w = Ok (fp, w') /\
    only_logs w w' /\
    forall f, fp = Some f -> exists rf, to_ref f = Ok rf.
Proof.
  intros (p_ref & Hp & Hs). unfold bind at 1. unfold lift. rewrite Hp.
  destruct p_ref as [r|].
  - destruct Hs as (s & Hs & Hlen & Hobjs).
    destruct (reg_find_total "FlowProperty" (ref_id r) w s Hs Hlen)
      as (found & Hfind & Hin).
    unfold bind at 1. rewrite Hfind.
    destruct found as [f|]; unfold bind, log, ret; eexists; eexists;
      (split; [reflexivity|]); (split; [apply only_logs_log|]).
    + intros f' E. injection E as <-. rewrite Forall_forall in Hobjs.
      apply Hobjs. now apply Hin.
    + discriminate.
  - unfold bind, log, ret. eexists. eexists. split; [reflexivity|].
    split; [apply only_logs_log | discriminate].
Qed.

Lemma flow_property_returns (u : pyval) (w : world) :
  (match u with
   | PDict kvs =>
       match dict_get kvs "name" with
       | Some v => property_ready lib (dict_s w) v
       | None => True
       end
   | _ => property_ready lib (dict_s w) u
   end) ->
  exists fp w',
    _flow_property lib u w = Ok (fp, w') /\ only_logs w w' /\
    forall f, fp = Some f -> exists rf, to_ref f = Ok rf.
Proof.
  intros H. unfold _flow_property.
  destruct u; try (now apply flow_property_resolves).
  destruct (dict_get kvs "name") as [v|]; [now apply flow_property_resolves|].
  unfold bind, log, ret. eexists. eexists. split; [reflexivity|].
  split; [apply only_logs_log | discriminate].
Qed.

Lemma uncertainty_not_a_dict (v : pyval) (w : world) :
  (forall kvs, v <> PDict kvs) -> _uncertainty v w = Ok (None, w).
Proof.
  intros H. destruct v; try reflexivity. exfalso. eapply H. reflexivity.
Qed.

Lemma format_dq_entry_not_a_string (v : pyval) :
  (forall s, v <> PStr s) -> _format_dq_entry v = Ok PNone.
Proof.
  intros H. destruct v; try reflexivity. exfalso. eapply H. reflexivity.
Qed.

Lemma unit_ready_unit (reg : registry) (u : pyval) :
  unit_ready lib reg u ->
  match u with
  | PDict kvs =>
      match dict_get kvs "name" with
      | Some v => exists r, unit_ref lib v = Ok r
      | None => exists r, unit_ref lib (PStr "") = Ok r
      end
  | _ => exists r, unit_ref lib u = Ok r
  end.
Proof.
  unfold unit_ready. destruct u; try tauto.
  destruct (dict_get kvs "name"); tauto.
Qed.

Lemma unit_ready_property (reg : registry) (u : pyval) :
  unit_ready lib reg u ->
  match u with
  | PDict kvs =>
      match dict_get kvs "name" with
      | Some v => property_ready lib reg v
      | None => True
      end
  | _ => property_ready lib reg u
  end.
Proof.
  unfold unit_ready. destruct u; try tauto.
  destruct (dict_get kvs "name"); tauto.
Qed.

(** An entry with no flow dictionary is built: the exchange has the amount
    as given and no flow, and the warning of [_flow] is logged. *)
Lemma plain_exchange_returns (e : pyval) (w : world) :
  plain_entry lib (dict_s w) e -> e <> PNone ->
  exists x w',
    _exchange lib e w = Ok (Some x, w') /\ only_logs w w' /\
    In (WARNING, "No flow data received!") (logged w') /\
    internal_id x = 0 /\ built_from e x /\ e_flow x = None.
Proof.
  intros (Hdq & Hunit & Hflow & Hunc & Hprov) Hne.
  rewrite exchange_unfold.
  replace (match e with
           | PNone => (log DEBUG "No exchange data!" ;; ret None) w
           | _ => exchange_body lib e (_process lib (_val e ["provider"] None)) w
           end)
    with (exchange_body lib e (_process lib (_val e ["provider"] None)) w)
    by (destruct e; try reflexivity; now elim Hne).
  unfold exchange_body.
  rewrite (format_dq_entry_not_a_string _ Hdq).
  rewrite (bind_step (lift (Ok PNone)) _ w w PNone eq_refl).
  fold (unit_of e).
  destruct (unit_returns (unit_of e) w (unit_ready_unit _ _ Hunit))
    as (unit & w1 & Hu & L1).
  rewrite (bind_step _ _ _ _ _ Hu).
  assert (Hunit1 : unit_ready lib (dict_s w1) (unit_of e))
    by (now rewrite (proj1 L1)).
  destruct (flow_property_returns (unit_of e) w1 (unit_ready_property _ _ Hunit1))
    as (f_prop & w2 & Hfp & L2 & Href).
  rewrite (bind_step _ _ _ _ _ Hfp).
  assert (Hfr : exists fr, (match f_prop with
                            | Some f => r <- lift (to_ref f) ;; ret (Some r)
                            | None => ret None
                            end) w2 = Ok (fr, w2)).
  { destruct f_prop as [f|]; [|now exists None].
    destruct (Href f eq_refl) as (rf & Hrf). exists (Some rf).
    unfold bind, lift, ret. now rewrite Hrf. }
  destruct Hfr as (fr & Hfr). rewrite (bind_step _ _ _ _ _ Hfr).
  unfold bind at 1. rewrite (flow_not_a_dict lib _ f_prop w2 Hflow). cbn [snd].
  set (w3 := mkWorld (dict_s w2) (logged w2 ++ [(WARNING, "No flow data received!")])).
  rewrite (bind_step _ _ _ _ _ (uncertainty_not_a_dict _ w3 Hunc)).
  assert (Hp : _process lib (_val e ["provider"] None) w3 = Ok (None, None, w3)).
  { rewrite process_unfold. destruct (_val e ["provider"] None); try reflexivity.
    exfalso. eapply Hprov. reflexivity. }
  rewrite (bind_step _ _ _ _ _ Hp). cbn beta iota.
  unfold bind, ret. eexists. exists w3. split; [reflexivity|].
  split; [|split; [|split; [reflexivity|split; [|reflexivity]]]].
  - eapply only_logs_trans; [exact L1|]. eapply only_logs_trans; [exact L2|].
    apply only_logs_log.
  - unfold w3. simpl. apply in_or_app. right. now left.
  - repeat split.
Qed.

End Returning.

Section ReturningProcess.
Variable lib : Library.

(** A list of such entries is built to the end. *)
Lemma plain_exchange_loop (l : list pyval) :
  forall acc w,
    Forall (fun e => e = PNone \/ plain_entry lib (dict_s w) e) l ->
    exists res w',
      exchange_loop (_exchange lib) l acc w = Ok (res, w') /\ only_logs w w' /\
      (filter is_entry l <> [] ->
       In (WARNING, "No flow data received!") (logged w')).
Proof.
  induction l as [|e rest IH]; intros acc w Hl.
  - exists acc, w. split; [reflexivity|]. split; [apply only_logs_refl|].
    intros H. now elim H.
  - inversion Hl as [|? ? He Hrest]; subst.
    destruct acc as [[r_list last_id] q_ref]. simpl exchange_loop.
    destruct (is_entry e) eqn:Hentry.
    + assert (Hne : e <> PNone) by (intros ->; discriminate).
      destruct He as [->|He]; [now elim Hne|].
      destruct (plain_exchange_returns lib e w He Hne)
        as (x & w1 & Hx & L1 & Hwarn & _).
      rewrite (bind_step _ _ _ _ _ Hx).
      destruct (IH (r_list ++ [set_internal_id x (last_id + 1)],
                    last_id + 1,
                    if py_truthy (is_quantitative_reference
                                    (set_internal_id x (last_id + 1)))
                    then Some (set_internal_id x (last_id + 1)) else q_ref)%list
                  w1)
        as (res & w' & Hrun & L2 & _).
      { rewrite (proj1 L1). exact Hrest. }
      exists res, w'. split; [exact Hrun|].
      split; [eapply only_logs_trans; eassumption|].
      intros _. eapply only_logs_in; eassumption.
    + destruct e; try discriminate.
      assert (Hx : _exchange lib PNone w
                   = Ok (None, mkWorld (dict_s w)
                                 (logged w ++ [(DEBUG, "No exchange data!")])))
        by reflexivity.
      rewrite (bind_step _ _ _ _ _ Hx).
      destruct (IH (r_list, last_id, q_ref)
                  (mkWorld (dict_s w) (logged w ++ [(DEBUG, "No exchange data!")])))
        as (res & w' & Hrun & L2 & Hwarn).
      { exact Hrest. }
      exists res, w'. split; [exact Hrun|].
      split; [eapply only_logs_trans; [apply only_logs_log | exact L2]|].
      simpl. exact Hwarn.
Qed.

Lemma plain_exchange_list (dict_d : pyval) (entries : list pyval) (w : world) :
  _val dict_d ["exchanges"] (Some (PList [])) = PList entries ->
  Forall (fun e => e = PNone \/ plain_entry lib (dict_s w) e) entries ->
  exists r_list q_ref w',
    _exchange_list lib dict_d w = Ok (r_list, q_ref, w') /\ only_logs w w' /\
    (filter is_entry entries <> [] ->
     In (WARNING, "No flow data received!") (logged w')).
Proof.
  intros Hx Hl. unfold _exchange_list. rewrite Hx. simpl py_iter.
  rewrite (bind_step (lift (Ok entries)) _ w w entries eq_refl).
  unfold exchange_for.
  destruct (plain_exchange_loop entries ([], 0, None) w Hl)
    as ([[r_list n] q_ref] & w' & Hrun & L & Hwarn).
  rewrite (bind_step _ _ _ _ _ Hrun). exists r_list, q_ref, w'.
  split; [reflexivity | auto].
Qed.

Lemma find_dq_absent (kvs : list (string * pyval)) (dict_key : string)
    (w : world) :
  _val (PDict kvs) [dict_key] None = PNone ->
  _val (PDict kvs) ["processDocumentation"] None = PNone ->
  exists w', _find_dq (PDict kvs) dict_key w = Ok (PNone, w') /\ only_logs w w'.
Proof.
  intros Hk Hdoc. simpl _find_dq. rewrite Hk. simpl py_truthy. cbn [negb].
  rewrite item_with_get. unfold _val in Hdoc. simpl first_key in Hdoc.
  unfold bind, log.
  destruct (dict_get kvs "processDocumentation") as [v|].
  - destruct v; try discriminate. eexists. split; [reflexivity|].
    apply only_logs_log.
  - eexists. split; [reflexivity|]. apply only_logs_log.
Qed.

(** A bare description of a process that is not yet registered: all of
    [_process] but the exchange list returns without touching the
    registry, and the process is made of what the exchange list gives. *)
Lemma bare_process_unfold (kvs : list (string * pyval)) (w : world) (s : slot) :
  bare_process (PDict kvs) ->
  dict_get (dict_s w) "Process" = Some s ->
  registered (dict_s w) "Process" (process_uid lib (PDict kvs)) = false ->
  exists w1 p0,
    only_logs w w1 /\
    p_id p0 = process_uid lib (PDict kvs) /\
    _process lib (PDict kvs) w
    = match _exchange_list lib (PDict kvs) w1 with
      | Ok (exchanges, e_ref, w') =>
          Ok (Some (mkProcess (p_id p0) (p_name p0) (p_category p0)
                      (p_version p0) (p_description p0) (p_process_type p0)
                      None (p_process_documentation p0) PNone None None
                      exchanges),
              e_ref, w')
      | Raise e => Raise e
      end.
Proof.
  intros Hbare Hs Hnew.
  unfold bare_process in Hbare.
  repeat match goal with
         | H : Forall _ (_ :: _) |- _ =>
             let H1 := fresh "B" in
             inversion H as [|? ? H1 ?]; subst; clear H
         end.
  rewrite process_unfold. unfold process_body. cbv zeta.
  assert (Hu : exists w0,
             (match _val (PDict kvs) ["@id"] None with
              | PNone =>
                  log DEBUG "Generating new process UUID for '%s'" ;;
                  ret (PStr (_uid lib [AModel PROCESS;
                                       AVal (_val (PDict kvs) ["category"] (Some (PStr "")));
                                       AVal (_val (PDict kvs) ["location"; "name"] (Some (PStr "")));
                                       AVal (_val (PDict kvs) ["name"] None)]))
              | _ => ret (_val (PDict kvs) ["@id"] None)
              end) w = Ok (process_uid lib (PDict kvs), w0) /\ only_logs w w0).
  { unfold process_uid.
    destruct (_val (PDict kvs) ["@id"] None); unfold bind, log, ret;
      eexists; (split; [reflexivity|]);
      first [apply only_logs_refl | apply only_logs_log]. }
  destruct Hu as (w0 & Hu & L0). rewrite (bind_step _ _ _ _ _ Hu).
  assert (Hs0 : dict_get (dict_s w0) "Process" = Some s)
    by (now rewrite (proj1 L0)).
  assert (Hnew0 : registered (dict_s w0) "Process" (process_uid lib (PDict kvs)) = false)
    by (now rewrite (proj1 L0)).
  rewrite (bind_step _ _ _ _ _ (reg_find_new _ _ _ _ Hs0 Hnew0)).
  unfold bind at 1. unfold log at 1.
  set (w1 := mkWorld (dict_s w0)
               (logged w0 ++ [(DEBUG, "Creating new Process entity for '%s'")])).
  assert (Ht : exists t w2,
             (if negb (py_eqb (_val (PDict kvs) ["processType"]
                                 (Some (PStr "UNIT_PROCESS")))
                              (PStr "UNIT_PROCESS"))
              then log DEBUG "Setting process type to LCI RESULT" ;; ret LCI_RESULT
              else ret UNIT_PROCESS) w1 = Ok (t, w2) /\ only_logs w1 w2).
  { destruct (negb _); unfold bind, log, ret; eexists; eexists;
      (split; [reflexivity|]);
      first [apply only_logs_refl | apply only_logs_log]. }
  destruct Ht as (t & w2 & Ht & L2). rewrite (bind_step _ _ _ _ _ Ht).
  rewrite B. rewrite (bind_step (_location lib PNone) _ w2 w2 None eq_refl).
  rewrite B0.
  rewrite (bind_step (_process_doc lib PNone) _ w2 w2 _ eq_refl).
  destruct (find_dq_absent kvs "dqEntry" w2 B1 B0) as (w3 & Hd3 & L3).
  unfold _dq_entry. unfold bind at 1. unfold bind at 1. rewrite Hd3.
  cbn [_format_dq_entry lift].
  destruct (find_dq_absent kvs "dqSystem" w3 B2 B0) as (w4 & Hd4 & L4).
  unfold _dq_system at 1. cbn [String.eqb Ascii.eqb Bool.eqb orb negb].
  unfold bind at 1. unfold bind at 1. rewrite Hd4. unfold ret at 1.
  destruct (find_dq_absent kvs "exchangeDqSystem" w4 B3 B0) as (w5 & Hd5 & L5).
  unfold _dq_system at 1. cbn [String.eqb Ascii.eqb Bool.eqb orb negb].
  unfold bind at 1. unfold bind at 1. rewrite Hd5. unfold ret at 1.
  exists w5.
  exists (mkProcess (process_uid lib (PDict kvs)) (_val (PDict kvs) ["name"] None)
            (_val (PDict kvs) ["category"] (Some (PStr "")))
            (_val (PDict kvs) ["version"] (Some (VERSION lib)))
            (_val (PDict kvs) ["description"] None) t None
            (mkProcessDocumentation
               (map (fun field => (field, PNone)) copy_fields)
               PNone PNone None None None None None [] (_current_time lib))
            PNone None None []).
  split; [|split; [reflexivity|]].
  - eapply only_logs_trans; [exact L0|].
    eapply only_logs_trans; [apply only_logs_log|]. fold w1.
    eapply only_logs_trans; [exact L2|].
    eapply only_logs_trans; [exact L3|].
    eapply only_logs_trans; [exact L4 | exact L5].
  - cbn [p_id p_name p_category p_version p_description p_process_type
         p_process_documentation].
    unfold bind.
    destruct (_exchange_list lib (PDict kvs) w5) as [[[exchanges e_ref] w']|e];
      reflexivity.
Qed.

End ReturningProcess.

Section NewEntities.
Variable lib : Library.

(** The process [_process] makes for a description that is not yet
    registered holds what [_exchange_list] returns for the description. *)
Lemma process_new_exchanges (dict_d : pyval) (w w' : world) (p : Process)
    (e_ref : option Exchange) :
  _process lib dict_d w = Ok (Some p, e_ref, w') ->
  registered (dict_s w) "Process" (process_uid lib dict_d) = false ->
  exists w1, _exchange_list lib dict_d w1 = Ok (p_exchanges p, e_ref, w').
Proof.
  rewrite process_unfold. intros H Hnew.
  destruct dict_d; try (apply ret_ok in H; discriminate).
  unfold process_body in H. apply bind_ok in H.
  destruct H as (uid & w1 & Hu & H).
  assert (uid = process_uid lib (PDict kvs) /\ dict_s w1 = dict_s w) as [-> Hw].
  { unfold process_uid.
    destruct (_val (PDict kvs) ["@id"] None); run_ok Hu; logs;
      injection Hu as -> ->; auto. }
  apply bind_ok in H. destruct H as (found & w2 & R & H).
  apply reg_find_ok in R. destruct R as [-> R]. rewrite Hw, Hnew in R.
  destruct found; [discriminate|].
  run_ok H.
  match goal with x : (list Exchange * option Exchange)%type |- _ =>
    destruct x as [exchanges q] end.
  run_ok H. injection H as E1 E2 E3. subst p q w'.
  match goal with
  | Hl : _exchange_list _ _ ?w0 = Ok _ |- _ => exists w0; exact Hl
  end.
Qed.

(** A flow that is not yet registered is built whatever identifier it
    carries: a valid one of version 3 or 4 is kept, anything else is
    replaced by the derived identifier. *)
Lemma flow_identifier_new (kvs : list (string * pyval))
    (flowprop : option entity) (w : world) (s : slot)
    (category_path : string) (prop : option Ref) :
  dict_get (dict_s w) "Flow" = Some s ->
  _val (PDict kvs) ["category"] (Some (PStr "")) = PStr category_path ->
  as_ref lib flowprop = Ok prop ->
  registered (dict_s w) "Flow" (_val (PDict kvs) ["id"; "@id"] None) = false ->
  exists ref w',
    snd (_flow lib (PDict kvs) flowprop w) = Ok (Some ref, w') /\
    ref_id ref =
      (let uid := _val (PDict kvs) ["id"; "@id"] None in
       if _uid_is_valid uid 3 || _uid_is_valid uid 4 then uid
       else PStr (_uid lib [AModel FLOW; AVal (PStr category_path);
                            AVal (_val (PDict kvs) ["name"] None)])) /\
    exists flow,
      dict_get (dict_s w') "Flow"
      = Some (mkSlot (ids s ++ [ref_id ref]) (objs s ++ [EFlow flow])) /\
      f_id flow = ref_id ref.
Proof.
  intros Hs Hc Hprop Hnew. unfold _flow. rewrite Hc.
  rewrite (reg_find_new _ _ _ _ Hs Hnew). cbn [snd].
  unfold bind at 1. unfold log at 1.
  set (w1 := mkWorld (dict_s w) (logged w ++ [(DEBUG, "Creating new flow for, '%s' (%s)")])).
  set (uid := _val (PDict kvs) ["id"; "@id"] None).
  set (uid' := if _uid_is_valid uid 3 || _uid_is_valid uid 4 then uid
               else PStr (_uid lib [AModel FLOW; AVal (PStr category_path);
                                    AVal (_val (PDict kvs) ["name"] None)])).
  assert (Hu : exists w2,
             (if _uid_is_valid uid 3 || _uid_is_valid uid 4
              then ret uid
              else
                log DEBUG "Generating new UUID for flow, '%s'" ;;
                ret (PStr (_uid lib [AModel FLOW; AVal (PStr category_path);
                                     AVal (_val (PDict kvs) ["name"] None)]))) w1
             = Ok (uid', w2) /\ dict_s w2 = dict_s w).
  { unfold uid'. destruct (_uid_is_valid uid 3 || _uid_is_valid uid 4);
      unfold bind, log, ret; eexists; split; reflexivity. }
  destruct Hu as (w2 & Hu & D2). rewrite (bind_step _ _ _ _ _ Hu). cbv zeta.
  unfold bind at 1. unfold lift at 1. rewrite Hprop.
  assert (Hs2 : dict_get (dict_s w2) "Flow" = Some s) by (now rewrite D2).
  rewrite (bind_step _ _ _ _ _ (reg_append_ok "Flow" _ _ w2 s Hs2)).
  unfold bind, lift, ret. cbn [to_ref].
  eexists. eexists. split; [reflexivity|]. split; [reflexivity|].
  eexists. cbn [dict_s ref_id]. rewrite dict_get_set_same.
  split; reflexivity.
Qed.

(** A location that is not yet registered, likewise: a valid identifier of
    version 3 is kept, anything else is replaced by the identifier derived
    from the code. *)
Lemma location_identifier_new (kvs : list (string * pyval)) (w : world)
    (s : slot) (code : string) :
  dict_get (dict_s w) "Location" = Some s ->
  _val (PDict kvs) ["name"] None = PStr code -> code <> "" ->
  let uid := _val (PDict kvs) ["id"; "@id"] None in
  let uid' := if _uid_is_valid uid 3 then uid
              else PStr (_uid lib [AModel LOCATION; AVal (PStr code)]) in
  registered (dict_s w) "Location" uid' = false ->
  exists r w' l,
    _location lib (PDict kvs) w = Ok (Some r, w') /\ ref_id r = uid' /\
    dict_get (dict_s w') "Location"
    = Some (mkSlot (ids s ++ [uid']) (objs s ++ [ELocation l])) /\
    l_id l = uid'.
Proof.
  intros Hs Hname Hcode uid uid' Hnew. unfold _location. rewrite Hname.
  fold uid. destruct code as [|c code]; [now elim Hcode|]. fold uid'.
  rewrite (bind_step _ _ _ _ _ (reg_find_new _ _ _ _ Hs Hnew)).
  unfold bind at 1. unfold log at 1.
  rewrite (bind_step _ _ _ _ _
             (reg_append_ok "Location" _ _ (mkWorld (dict_s w) _) s Hs)).
  unfold bind, lift, ret. cbn [to_ref].
  eexists. eexists. eexists. split; [reflexivity|]. split; [reflexivity|].
  cbn [dict_s]. rewrite dict_get_set_same. split; reflexivity.
Qed.

(** A data quality system that is not yet registered, likewise: a valid
    identifier of version 4 is kept, anything else is replaced by the
    identifier derived from the kind and the name. *)
Lemma dq_system_identifier_new (dict_d : pyval) (dq_type : string)
    (w w1 : world) (dq : list (string * pyval)) (s : slot) :
  dq_type = "dqSystem" \/ dq_type = "exchangeDqSystem" ->
  _find_dq dict_d dq_type w = Ok (PDict dq, w1) ->
  dict_get (dict_s w1) "DQSystem" = Some s ->
  registered (dict_s w1) "DQSystem" (_val (PDict dq) ["@id"] None) = false ->
  exists r w' d,
    _dq_system lib dict_d dq_type w = Ok (Some r, w') /\
    ref_id r =
      (if _uid_is_valid (_val (PDict dq) ["@id"] None) 4
       then _val (PDict dq) ["@id"] None
       else PStr (_uid lib [AModel DQ_SYSTEM; AVal (PStr dq_type);
                            AVal (_val (PDict dq) ["name"] (Some (PStr "none")))])) /\
    dict_get (dict_s w') "DQSystem"
    = Some (mkSlot (ids s ++ [ref_id r]) (objs s ++ [EDQSystem d])) /\
    dq_id d = ref_id r.
Proof.
  intros Htype Hdq Hs Hnew. unfold _dq_system.
  assert (Ht : negb (String.eqb dq_type "dqSystem"
                     || String.eqb dq_type "exchangeDqSystem") = false)
    by (destruct Htype as [->| ->]; reflexivity).
  rewrite Ht. rewrite (bind_step _ _ _ _ _ Hdq).
  rewrite (bind_step _ _ _ _ _ (reg_find_new _ _ _ _ Hs Hnew)).
  unfold bind at 1. unfold log at 1.
  set (uid := _val (PDict dq) ["@id"] None).
  set (w2 := mkWorld (dict_s w1)
               (logged w1 ++ [(DEBUG, "Creating new DQSystem entity for '%s'")])).
  set (uid' := if _uid_is_valid uid 4 then uid
               else PStr (_uid lib [AModel DQ_SYSTEM; AVal (PStr dq_type);
                                    AVal (_val (PDict dq) ["name"] (Some (PStr "none")))])).
  assert (Hu : exists w3,
             (if negb (_uid_is_valid uid 4) then
                log DEBUG "Generating DQSystem UUID" ;;
                ret (PStr (_uid lib [AModel DQ_SYSTEM; AVal (PStr dq_type);
                                     AVal (_val (PDict dq) ["name"] (Some (PStr "none")))]))
              else ret uid) w2 = Ok (uid', w3) /\ dict_s w3 = dict_s w1).
  { unfold uid'. destruct (_uid_is_valid uid 4); unfold bind, log, ret;
      eexists; split; reflexivity. }
  destruct Hu as (w3 & Hu & D3). rewrite (bind_step _ _ _ _ _ Hu). cbv zeta.
  assert (Hs3 : dict_get (dict_s w3) "DQSystem" = Some s) by (now rewrite D3).
  rewrite (bind_step _ _ _ _ _ (reg_append_ok "DQSystem" _ _ w3 s Hs3)).
  unfold bind, lift, ret. cbn [to_ref].
  eexists. eexists. eexists. split; [reflexivity|]. split; [reflexivity|].
  cbn [dict_s ref_id]. rewrite dict_get_set_same. split; reflexivity.
Qed.

End NewEntities.

Section PlainProcess.
Variable lib : Library.

(** A bare description with plain exchange entries, not yet registered:
    [_process] returns the new process, and has only logged. *)
Lemma plain_process_returns (kvs : list (string * pyval)) (w : world)
    (s : slot) (entries : list pyval) :
  bare_process (PDict kvs) ->
  dict_get (dict_s w) "Process" = Some s ->
  registered (dict_s w) "Process" (process_uid lib (PDict kvs)) = false ->
  _val (PDict kvs) ["exchanges"] (Some (PList [])) = PList entries ->
  Forall (fun e => e = PNone \/ plain_entry lib (dict_s w) e) entries ->
  exists p e_ref w',
    _process lib (PDict kvs) w = Ok (Some p, e_ref, w') /\ only_logs w w' /\
    p_id p = process_uid lib (PDict kvs) /\
    (filter is_entry entries <> [] ->
     In (WARNING, "No flow data received!") (logged w')).
Proof.
  intros Hbare Hs Hnew Hx Hl.
  destruct (bare_process_unfold lib kvs w s Hbare Hs Hnew)
    as (w1 & p0 & L1 & Hid & E).
  destruct (plain_exchange_list lib (PDict kvs) entries w1 Hx)
    as (r_list & q_ref & w' & Hrun & L2 & Hwarn).
  { now rewrite (proj1 L1). }
  rewrite Hrun in E. eexists. exists q_ref, w'. split; [exact E|].
  split; [eapply only_logs_trans; eassumption|]. split; [exact Hid | exact Hwarn].
Qed.

(** A process that is not yet registered is given the supplied ['@id']
    whatever it is, and a derived identifier only when there is none. *)
Lemma process_identifier (dict_d : pyval) (w w' : world) (p : Process)
    (e_ref : option Exchange) :
  _process lib dict_d w = Ok (Some p, e_ref, w') ->
  registered (dict_s w) "Process" (process_uid lib dict_d) = false ->
  p_id p = process_uid lib dict_d.
Proof.
  rewrite process_unfold. intros H Hnew.
  destruct dict_d; try (apply ret_ok in H; discriminate).
  unfold process_body in H. apply bind_ok in H.
  destruct H as (uid & w1 & Hu & H).
  assert (uid = process_uid lib (PDict kvs) /\ dict_s w1 = dict_s w) as [-> Hw].
  { unfold process_uid.
    destruct (_val (PDict kvs) ["@id"] None); run_ok Hu; logs;
      injection Hu as -> ->; auto. }
  apply bind_ok in H. destruct H as (found & w2 & R & H).
  apply reg_find_ok in R. destruct R as [-> R]. rewrite Hw, Hnew in R.
  destruct found; [discriminate|].
  run_ok H.
  match goal with x : (list Exchange * option Exchange)%type |- _ =>
    destruct x as [exchanges q] end.
  run_ok H. injection H as -> _ _. reflexivity.
Qed.

(** The exchanges of a new process, against the entries of its
    description. *)
Lemma process_exchanges_spec (dict_d : pyval) (w w' : world) (p : Process)
    (e_ref : option Exchange) :
  _process lib dict_d w = Ok (Some p, e_ref, w') ->
  registered (dict_s w) "Process" (process_uid lib dict_d) = false ->
  exists entries,
    py_iter (_val dict_d ["exchanges"] (Some (PList []))) = Ok entries /\
    Forall2 built_from (filter is_entry entries) (p_exchanges p) /\
    map internal_id (p_exchanges p) = count_from 1 (length (p_exchanges p)) /\
    e_ref = fold_left (fun acc e => if flagged e then Some e else acc)
                      (p_exchanges p) None.
Proof.
  intros H Hnew.
  destruct (process_new_exchanges lib dict_d w w' p e_ref H Hnew) as (w1 & Hl).
  exact (exchange_list_spec lib dict_d w1 w' _ _ Hl).
Qed.

End PlainProcess.

(** ** C6: the quantitative reference *)

(** Two entries marked as quantitative reference: the process keeps both
    marks, and the reference returned with it is the last of the two. *)
Lemma two_flagged_exchanges_are_kept :
  exists p e_ref w',
    _process Env.lib two_references sample_world = Ok (Some p, e_ref, w') /\
    map flagged (p_exchanges p) = [true; false; true] /\
    option_map internal_id e_ref = Some 3.
Proof.
  eexists. eexists. eexists. split; [vm_compute; reflexivity|].
  split; reflexivity.
Qed.

(** C6, amended. For a description that is not yet registered, the process
    [_process] returns holds one exchange for every entry that is not
    [None], each with the mark of its entry: as many marked exchanges as
    the description marks.  Unique is only the reference returned with the
    process: it is what [_find_ref_exchange] finds on the process, the last
    exchange whose mark is true, and none when no mark is.  A bare
    description with plain entries is built. *)
Theorem reference_is_last_flagged (lib : Library) :
  (forall dict_d w w' p e_ref,
      _process lib dict_d w = Ok (Some p, e_ref, w') ->
      registered (dict_s w) "Process" (process_uid lib dict_d) = false ->
      exists entries,
        py_iter (_val dict_d ["exchanges"] (Some (PList []))) = Ok entries /\
        map is_quantitative_reference (p_exchanges p)
          = map entry_flag (filter is_entry entries) /\
        e_ref = _find_ref_exchange p /\
        match e_ref with
        | Some e =>
            exists before after,
              p_exchanges p = (before ++ e :: after)%list /\ flagged e = true /\
              Forall (fun x => flagged x = false) after
        | None => Forall (fun x => flagged x = false) (p_exchanges p)
        end)
  /\
  (forall kvs w s entries,
      bare_process (PDict kvs) ->
      dict_get (dict_s w) "Process" = Some s ->
      registered (dict_s w) "Process" (process_uid lib (PDict kvs)) = false ->
      _val (PDict kvs) ["exchanges"] (Some (PList [])) = PList entries ->
      Forall (fun e => e = PNone \/ plain_entry lib (dict_s w) e) entries ->
      exists p e_ref w',
        _process lib (PDict kvs) w = Ok (Some p, e_ref, w') /\
        map is_quantitative_reference (p_exchanges p)
          = map entry_flag (filter is_entry entries) /\
        e_ref = _find_ref_exchange p).
Proof.
  assert (G : forall dict_d w w' p e_ref,
             _process lib dict_d w = Ok (Some p, e_ref, w') ->
             registered (dict_s w) "Process" (process_uid lib dict_d) = false ->
             exists entries,
               py_iter (_val dict_d ["exchanges"] (Some (PList []))) = Ok entries /\
               map is_quantitative_reference (p_exchanges p)
                 = map entry_flag (filter is_entry entries) /\
               e_ref = _find_ref_exchange p /\
               match e_ref with
               | Some e =>
                   exists before after,
                     p_exchanges p = (before ++ e :: after)%list /\
                     flagged e = true /\
                     Forall (fun x => flagged x = false) after
               | None => Forall (fun x => flagged x = false) (p_exchanges p)
               end).
  { intros dict_d w w' p e_ref H Hnew.
    destruct (process_exchanges_spec lib dict_d w w' p e_ref H Hnew)
      as (entries & Hit & HF & _ & Hq).
    exists entries. split; [exact Hit|]. split; [|split].
    - clear Hq. induction HF as [|e x es xs (Hflag & _) _ IH]; simpl;
        [reflexivity | now rewrite Hflag, IH].
    - exact Hq.
    - pose proof (last_flagged_spec (p_exchanges p) None) as L.
      rewrite <- Hq in L. destruct e_ref as [e|].
      + destruct L as [L | [L _]]; [exact L | discriminate].
      + exact (proj2 L). }
  split; [exact G|].
  intros kvs w s entries Hbare Hs Hnew Hx Hl.
  destruct (plain_process_returns lib kvs w s entries Hbare Hs Hnew Hx Hl)
    as (p & e_ref & w' & Hrun & _).
  exists p, e_ref, w'. split; [exact Hrun|].
  destruct (G _ _ _ _ _ Hrun Hnew) as (entries' & Hit & Hflags & Href & _).
  rewrite Hx in Hit. simpl in Hit. injection Hit as <-. auto.
Qed.

Lemma reference_is_last_flagged_witness :
  exists p e_ref w',
    _process Env.lib two_references sample_world = Ok (Some p, e_ref, w') /\
    map is_quantitative_reference (p_exchanges p)
      = [PBool true; PBool false; PBool true] /\
    e_ref = _find_ref_exchange p /\
    option_map internal_id e_ref = Some 3.
Proof.
  destruct (proj2 (reference_is_last_flagged Env.lib)
              [("name", PStr "plant");
               ("exchanges",
                PList [PDict [("quantitativeReference", PBool true);
                              ("amount", PInt 1); ("unit", PStr "MWh")];
                       PDict [("amount", PInt 2); ("unit", PStr "MJ")];
                       PNone;
                       PDict [("quantitativeReference", PBool true);
                              ("amount", PInt 3); ("unit", PStr "MWh")]])]
              sample_world (mkSlot [] []) _
              ltac:(repeat constructor) eq_refl eq_refl eq_refl
              ltac:(repeat (first [ apply Forall_nil
                                  | apply Forall_cons; [first [now left | right]|] ]);
                    (split; [discriminate|]);
                    (split; [split; [eexists; reflexivity|];
                             eexists; split; [reflexivity|];
                             eexists; split; [reflexivity|];
                             split; [simpl; lia | constructor]|]);
                    repeat split; discriminate))
    as (p & e_ref & w' & Hrun & Hflags & Href).
  exists p, e_ref, w'. split; [exact Hrun|]. split; [exact Hflags|].
  split; [exact Href|].
  vm_compute in Hrun. injection Hrun as _ <- _. reflexivity.
Defined.

(** ** C7: malformed exchanges *)

Section WithoutFlow.
Variable lib : Library.


End WithoutFlow.



(** Other defects of an entry are not skipped either, they stop the build:
    a data quality entry with a part that is no number, and a flow
    dictionary when the registry has no flow property for the unit. *)
Lemma other_malformed_exchanges_abort :
  _process Env.lib
    (PDict [("name", PStr "plant");
            ("exchanges", PList [PDict [("dqEntry", PStr "(a;b)")]])])
    sample_world
  = Raise ValueError
  /\
  _process Env.lib
    (PDict [("name", PStr "plant");
            ("exchanges",
             PList [PDict [("flow", PDict [("name", PStr "Ash")])]])])
    sample_world
  = Raise AttributeError.
Proof. split; vm_compute; reflexivity. Qed.




(** ** C5: supplied and derived identifiers *)

(** A process description whose ['@id'] is no UUID keeps it: the identifier
    fails validation for versions 3 and 4 alike, and is not the one derived
    from category, location and name. *)
Lemma invalid_process_id_is_kept :
  exists p e_ref w',
    _process Env.lib process_with_bad_id sample_world = Ok (Some p, e_ref, w') /\
    p_id p = PStr "not-a-uuid" /\
    _uid_is_valid (PStr "not-a-uuid") 3 = false /\
    _uid_is_valid (PStr "not-a-uuid") 4 = false /\
    _uid Env.lib [AModel PROCESS; AVal (PStr "power"); AVal (PStr "US");
                  AVal (PStr "plant")]
    = "69768cf3-ea9c-3fe9-be56-704f6e97792d".
Proof.
  eexists. eexists. eexists. split; [vm_compute; reflexivity|].
  repeat split; vm_compute; reflexivity.
Qed.

(** C5, amended. An entity that is not yet in the registry is built
    whatever identifier the description carries, a value of any type, and
    is registered under the identifier it is given.  A flow keeps a valid
    UUID of version 3 or 4, a location one of version 3, a data quality
    system one of version 4; any other value is replaced by the identifier
    derived from the path of the type (flow: model type, category, name;
    location: model type, code; data quality system: model type, kind,
    name).  A process is not validated: it keeps whatever ['@id'] it
    carries, valid or not, and gets a derived identifier (model type,
    category, location, name) only when it carries none; a bare description
    with plain entries is built under that identifier. *)
Theorem identifiers_kept_or_derived (lib : Library) :
  (forall kvs flowprop w s category_path prop,
      dict_get (dict_s w) "Flow" = Some s ->
      _val (PDict kvs) ["category"] (Some (PStr "")) = PStr category_path ->
      as_ref lib flowprop = Ok prop ->
      registered (dict_s w) "Flow" (_val (PDict kvs) ["id"; "@id"] None) = false ->
      exists ref w',
        snd (_flow lib (PDict kvs) flowprop w) = Ok (Some ref, w') /\
        ref_id ref =
          (let uid := _val (PDict kvs) ["id"; "@id"] None in
           if _uid_is_valid uid 3 || _uid_is_valid uid 4 then uid
           else PStr (_uid lib [AModel FLOW; AVal (PStr category_path);
                                AVal (_val (PDict kvs) ["name"] None)])) /\
        exists flow,
          dict_get (dict_s w') "Flow"
          = Some (mkSlot (ids s ++ [ref_id ref]) (objs s ++ [EFlow flow])) /\
          f_id flow = ref_id ref)
  /\
  (forall kvs w s code,
      dict_get (dict_s w) "Location" = Some s ->
      _val (PDict kvs) ["name"] None = PStr code -> code <> "" ->
      let uid := _val (PDict kvs) ["id"; "@id"] None in
      let uid' := if _uid_is_valid uid 3 then uid
                  else PStr (_uid lib [AModel LOCATION; AVal (PStr code)]) in
      registered (dict_s w) "Location" uid' = false ->
      exists r w' l,
        _location lib (PDict kvs) w = Ok (Some r, w') /\ ref_id r = uid' /\
        dict_get (dict_s w') "Location"
        = Some (mkSlot (ids s ++ [uid']) (objs s ++ [ELocation l])) /\
        l_id l = uid')
  /\
  (forall dict_d dq_type w w1 dq s,
      dq_type = "dqSystem" \/ dq_type = "exchangeDqSystem" ->
      _find_dq dict_d dq_type w = Ok (PDict dq, w1) ->
      dict_get (dict_s w1) "DQSystem" = Some s ->
      registered (dict_s w1) "DQSystem" (_val (PDict dq) ["@id"] None) = false ->
      exists r w' d,
        _dq_system lib dict_d dq_type w = Ok (Some r, w') /\
        ref_id r =
          (if _uid_is_valid (_val (PDict dq) ["@id"] None) 4
           then _val (PDict dq) ["@id"] None
           else PStr (_uid lib [AModel DQ_SYSTEM; AVal (PStr dq_type);
                                AVal (_val (PDict dq) ["name"]
                                        (Some (PStr "none")))])) /\
        dict_get (dict_s w') "DQSystem"
        = Some (mkSlot (ids s ++ [ref_id r]) (objs s ++ [EDQSystem d])) /\
        dq_id d = ref_id r)
  /\
  (forall dict_d w w' p e_ref,
      _process lib dict_d w = Ok (Some p, e_ref, w') ->
      registered (dict_s w) "Process" (process_uid lib dict_d) = false ->
      p_id p = process_uid lib dict_d)
  /\
  (forall kvs w s entries,
      bare_process (PDict kvs) ->
      dict_get (dict_s w) "Process" = Some s ->
      registered (dict_s w) "Process" (process_uid lib (PDict kvs)) = false ->
      _val (PDict kvs) ["exchanges"] (Some (PList [])) = PList entries ->
      Forall (fun e => e = PNone \/ plain_entry lib (dict_s w) e) entries ->
      exists p e_ref w',
        _process lib (PDict kvs) w = Ok (Some p, e_ref, w') /\
        p_id p = process_uid lib (PDict kvs)).
Proof.
  split; [exact (flow_identifier_new lib)|].
  split; [exact (location_identifier_new lib)|].
  split; [exact (dq_system_identifier_new lib)|].
  split; [exact (process_identifier lib)|].
  intros kvs w s entries Hbare Hs Hnew Hx Hl.
  destruct (plain_process_returns lib kvs w s entries Hbare Hs Hnew Hx Hl)
    as (p & e_ref & w' & Hrun & _ & Hid & _).
  now exists p, e_ref, w'.
Qed.

Lemma identifiers_kept_or_derived_witness :
  (exists ref w',
      snd (_flow Env.lib
             (PDict [("@id", PStr "not-a-uuid"); ("name", PStr "Ash");
                     ("category", PStr "air")])
             (Some (EOpaque "FlowProperty" (PStr Env.mass_id) (PStr "Mass")))
             sample_world) = Ok (Some ref, w') /\
      ref_id ref = PStr (_uid Env.lib [AModel FLOW; AVal (PStr "air");
                                       AVal (PStr "Ash")]))
  /\
  (exists r w',
      _location Env.lib (PDict [("id", PInt 7); ("name", PStr "US")])
        sample_world = Ok (Some r, w') /\
      ref_id r = PStr (_uid Env.lib [AModel LOCATION; AVal (PStr "US")]))
  /\
  (exists r w',
      _dq_system Env.lib
        (PDict [("dqSystem", PDict [("@id", PStr "69768cf3-ea9c-3fe9-be56-704f6e97792d");
                                    ("name", PStr "pedigree")])])
        "dqSystem" sample_world = Ok (Some r, w') /\
      ref_id r = PStr (_uid Env.lib [AModel DQ_SYSTEM; AVal (PStr "dqSystem");
                                     AVal (PStr "pedigree")]))
  /\
  (exists p e_ref w',
      _process Env.lib (PDict [("@id", PStr "not-a-uuid"); ("name", PStr "plant")])
        sample_world = Ok (Some p, e_ref, w') /\
      p_id p = PStr "not-a-uuid").
Proof.
  pose proof (identifiers_kept_or_derived Env.lib) as (HF & HL & HD & _ & HP).
  split; [|split; [|split]].
  - destruct (HF [("@id", PStr "not-a-uuid"); ("name", PStr "Ash");
                  ("category", PStr "air")]
                (Some (EOpaque "FlowProperty" (PStr Env.mass_id) (PStr "Mass")))
                sample_world (mkSlot [] []) "air" _
                eq_refl eq_refl eq_refl eq_refl)
      as (ref & w' & Hrun & Hid & _).
    exists ref, w'. split; [exact Hrun | exact Hid].
  - destruct (HL [("id", PInt 7); ("name", PStr "US")] sample_world
                (mkSlot [] []) "US" eq_refl eq_refl
                ltac:(discriminate) eq_refl)
      as (r & w' & l & Hrun & Hid & _).
    exists r, w'. split; [exact Hrun | exact Hid].
  - destruct (HD (PDict [("dqSystem",
                          PDict [("@id", PStr "69768cf3-ea9c-3fe9-be56-704f6e97792d");
                                 ("name", PStr "pedigree")])])
                "dqSystem" sample_world sample_world _ (mkSlot [] [])
                (or_introl eq_refl) eq_refl eq_refl eq_refl)
      as (r & w' & d & Hrun & Hid & _).
    exists r, w'. split; [exact Hrun | exact Hid].
  - destruct (HP [("@id", PStr "not-a-uuid"); ("name", PStr "plant")]
                sample_world (mkSlot [] []) []
                ltac:(repeat constructor) eq_refl eq_refl eq_refl
                ltac:(constructor))
      as (p & e_ref & w' & Hrun & Hid).
    exists p, e_ref, w'. split; [exact Hrun | exact Hid].
Defined.

(** ** C10: the flow dictionary of the caller *)

(** A waste flow whose identifier is already registered is resolved to the
    stored flow, and the dictionary of the caller stays as it was, with the
    flow type it stated. *)
Lemma registered_waste_flow_is_not_rewritten :
  PyStr.contains "waste" (PyStr.lower "Waste/solid") = true /\
  fst (_flow Env.lib waste_flow None waste_world) = waste_flow /\
  _val (fst (_flow Env.lib waste_flow None waste_world)) ["flowType"] None
  = PStr "ELEMENTARY_FLOW" /\
  exists r w', snd (_flow Env.lib waste_flow None waste_world) = Ok (Some r, w').
Proof.
  repeat split; try (vm_compute; reflexivity).
  eexists. eexists. vm_compute. reflexivity.
Qed.

(** C10, amended. For a flow dictionary whose category contains "waste" in
    any case, [_flow] overwrites (or adds) ['flowType'] with "WASTE_FLOW"
    in the dictionary of the caller exactly when the identifier of the flow
    is not yet registered; a flow found in the registry leaves the
    dictionary as it was. *)
Theorem waste_flow_type_is_written (lib : Library)
    (kvs : list (string * pyval)) (flowprop : option entity) (w : world)
    (category_path : string) :
  _val (PDict kvs) ["category"] (Some (PStr "")) = PStr category_path ->
  PyStr.contains "waste" (PyStr.lower category_path) = true ->
  let uid := _val (PDict kvs) ["id"; "@id"] None in
  let after := fst (_flow lib (PDict kvs) flowprop w) in
  (registered (dict_s w) "Flow" uid = true -> after = PDict kvs) /\
  (registered (dict_s w) "Flow" uid = false ->
   forall s, dict_get (dict_s w) "Flow" = Some s ->
   after = PDict (dict_set kvs "flowType" (PStr "WASTE_FLOW")) /\
   _val after ["flowType"] None = PStr "WASTE_FLOW").
Proof.
  intros Hc Hw uid after. subst after. unfold _flow. rewrite Hc, Hw. fold uid.
  split.
  - intros Hreg.
    destruct (reg_find "Flow" uid w) as [[[flow|] w1]|e] eqn:R; try reflexivity.
    apply reg_find_ok in R. destruct R as [_ R]. congruence.
  - intros Hnew s Hs. rewrite (reg_find_new _ _ _ s Hs Hnew). simpl fst.
    split; [reflexivity|].
    unfold _val. simpl first_key. now rewrite dict_get_set_same.
Qed.

Lemma waste_flow_type_is_written_witness :
  _val waste_flow ["category"] (Some (PStr "")) = PStr "Waste/solid" /\
  PyStr.contains "waste" (PyStr.lower "Waste/solid") = true /\
  registered (dict_s sample_world) "Flow" (_val waste_flow ["id"; "@id"] None)
  = false /\
  _val (fst (_flow Env.lib waste_flow None sample_world)) ["flowType"] None
  = PStr "WASTE_FLOW".
Proof.
  split; [reflexivity|]. split; [reflexivity|]. split; [reflexivity|].
  refine (proj2 (proj2 (waste_flow_type_is_written Env.lib waste_flow_items
                          None sample_world "Waste/solid" eq_refl eq_refl)
                   eq_refl _ eq_refl)).
Defined.

(** ** C3: merging two registries *)

Lemma py_same_str (a b : pyval) :
  is_pystr a = true -> (py_same a b = true <-> a = b).
Proof.
  destruct a; try discriminate. intros _.
  destruct b; simpl; try (split; [discriminate | discriminate]).
  rewrite String.eqb_eq. split; congruence.
Qed.

Lemma py_same_str_false (a b : pyval) :
  is_pystr a = true -> (py_same a b = false <-> a <> b).
Proof.
  intros Ha. pose proof (py_same_str a b Ha) as E.
  destruct (py_same a b); split; intros H; try congruence.
  - exfalso. apply H. now apply E.
  - intros ->. assert (false = true) by now apply E. discriminate.
Qed.

Lemma odict_get_none (d : list (pyval * entity)) (k : pyval) :
  str_keys d -> (odict_get d k = None <-> ~ In k (map fst d)).
Proof.
  induction 1 as [|[k' v] r Hk _ IH]; simpl; [tauto|].
  simpl in Hk. destruct (py_same k' k) eqn:E.
  - apply (py_same_str _ _ Hk) in E. split; [discriminate | tauto].
  - apply (py_same_str_false _ _ Hk) in E. rewrite IH. tauto.
Qed.

Lemma odict_get_some (d : list (pyval * entity)) (k : pyval) (v : entity) :
  str_keys d -> odict_get d k = Some v -> In (k, v) d.
Proof.
  induction 1 as [|[k' x] r Hk _ IH]; simpl; [discriminate|].
  simpl in Hk. destruct (py_same k' k) eqn:E.
  - apply (py_same_str _ _ Hk) in E. intros H. injection H as <-. subst. now left.
  - intros H. right. now apply IH.
Qed.

Lemma odict_get_in (d : list (pyval * entity)) (k : pyval) (v : entity) :
  str_keys d -> NoDup (map fst d) -> In (k, v) d -> odict_get d k = Some v.
Proof.
  induction 1 as [|[k' x] r Hk _ IH]; simpl; [tauto|].
  intros Hnd [E|Hin].
  - injection E as E1 E2. subst. simpl in Hk.
    now rewrite (proj2 (py_same_str _ _ Hk) eq_refl).
  - inversion Hnd as [|? ? Hnot Hnd']; subst. simpl in Hk.
    destruct (py_same k' k) eqn:E.
    + apply (py_same_str _ _ Hk) in E. subst k'. elim Hnot.
      apply in_map_iff. now exists (k, v).
    + now apply IH.
Qed.

(** Assigning to a key the dictionary has replaces its value in place. *)
Lemma odict_set_old (d : list (pyval * entity)) (k : pyval) (v : entity) :
  str_keys d -> NoDup (map fst d) -> In k (map fst d) ->
  odict_set d k v
  = map (fun kv => (fst kv, if py_same (fst kv) k then v else snd kv)) d.
Proof.
  induction 1 as [|[k' x] r Hk Hr IH]; simpl; [tauto|].
  intros Hnd Hin. inversion Hnd as [|? ? Hnot Hnd']; subst. simpl in Hk.
  destruct (py_same k' k) eqn:E.
  - apply (py_same_str _ _ Hk) in E. subst k'. f_equal.
    rewrite <- (map_id r) at 1. apply map_ext_in. intros [k2 y] Hy. simpl.
    destruct (py_same k2 k) eqn:E2; [|reflexivity].
    rewrite Forall_forall in Hr. apply (py_same_str _ _ (Hr _ Hy)) in E2.
    simpl in E2. subst k2. elim Hnot. apply in_map_iff. now exists (k, y).
  - f_equal. apply IH; [exact Hnd'|].
    destruct Hin as [->|Hin]; [|exact Hin].
    apply (py_same_str_false _ _ Hk) in E. now elim E.
Qed.

(** Assigning to a key the dictionary lacks appends the entry. *)
Lemma odict_set_new (d : list (pyval * entity)) (k : pyval) (v : entity) :
  str_keys d -> ~ In k (map fst d) -> odict_set d k v = (d ++ [(k, v)])%list.
Proof.
  induction 1 as [|[k' x] r Hk _ IH]; simpl; [reflexivity|].
  intros Hnot. simpl in Hk. destruct (py_same k' k) eqn:E.
  - apply (py_same_str _ _ Hk) in E. subst k'. tauto.
  - f_equal. apply IH. tauto.
Qed.

Lemma absent_iff (d : list (pyval * entity)) (k : pyval) :
  str_keys d -> (absent d k = true <-> ~ In k (map fst d)).
Proof.
  intros Hd. rewrite <- (odict_get_none d k Hd). unfold absent.
  destruct (odict_get d k); split; congruence.
Qed.

Lemma absent_same_keys (d d' : list (pyval * entity)) (k : pyval) :
  str_keys d -> str_keys d' ->
  (In k (map fst d) <-> In k (map fst d')) -> absent d k = absent d' k.
Proof.
  intros Hd Hd' Hk.
  pose proof (absent_iff d k Hd) as A. pose proof (absent_iff d' k Hd') as A'.
  destruct (absent d k), (absent d' k); try reflexivity.
  - assert (false = true) by (apply A'; rewrite <- Hk; now apply A). discriminate.
  - assert (false = true) by (apply A; rewrite Hk; now apply A'). discriminate.
Qed.

Lemma str_keys_fst (d d' : list (pyval * entity)) :
  map fst d = map fst d' -> str_keys d -> str_keys d'.
Proof.
  unfold str_keys. rewrite !Forall_forall. intros E H [k v] Hin.
  assert (In k (map fst d')) as Hk by (apply in_map_iff; now exists (k, v)).
  rewrite <- E in Hk. apply in_map_iff in Hk. destruct Hk as ([k0 v0] & <- & H0).
  exact (H _ H0).
Qed.

(** [d_cur.update(d_new)] is the merge of the specification. *)
Lemma odict_update_spec (fresh : list (pyval * entity)) :
  forall d,
    str_keys d -> NoDup (map fst d) ->
    str_keys fresh -> NoDup (map fst fresh) ->
    odict_update d fresh = merge_spec d fresh.
Proof.
  induction fresh as [|[k v] rest IH]; intros d Hd Nd Hf Nf.
  - unfold odict_update, merge_spec. simpl. rewrite app_nil_r.
    rewrite <- (map_id d) at 1. apply map_ext. now intros [].
  - inversion Hf as [|? ? Hk Hrest]; subst. simpl in Hk.
    inversion Nf as [|? ? Hnot Nrest]; subst.
    assert (odict_get rest k = None) as Grest
      by (now apply odict_get_none).
    change (odict_update d ((k, v) :: rest))
      with (odict_update (odict_set d k v) rest).
    destruct (odict_get d k) as [x|] eqn:G.
    + assert (In k (map fst d)) as Hin
        by (apply in_map_iff; exists (k, x); split;
            [reflexivity | now apply odict_get_some]).
      rewrite (odict_set_old d k v Hd Nd Hin).
      set (d1 := map (fun kv => (fst kv, if py_same (fst kv) k then v else snd kv)) d).
      assert (map fst d1 = map fst d) as K1
        by (unfold d1; rewrite map_map; reflexivity).
      assert (str_keys d1) as Hd1 by (apply (str_keys_fst d); auto).
      rewrite IH; [|exact Hd1 | now rewrite K1 | exact Hrest | exact Nrest].
      unfold merge_spec. f_equal.
      * unfold d1. rewrite map_map. apply map_ext_in. intros [k0 y] Hy.
        simpl. f_equal.
        assert (is_pystr k0 = true) as Hk0
          by (unfold str_keys in Hd; rewrite Forall_forall in Hd; exact (Hd _ Hy)).
        destruct (py_same k k0) eqn:E.
        -- apply (py_same_str _ _ Hk) in E. subst k0.
           now rewrite Grest, (proj2 (py_same_str k k Hk) eq_refl).
        -- apply (py_same_str_false _ _ Hk) in E.
           assert (py_same k0 k = false) as E'
             by (apply (py_same_str_false _ _ Hk0); congruence).
           now rewrite E'.
      * simpl. unfold absent at 2. rewrite G.
        apply filter_ext. intros [k0 y]. simpl.
        apply absent_same_keys; auto. now rewrite K1.
    + assert (~ In k (map fst d)) as Hout by (now apply odict_get_none).
      rewrite (odict_set_new d k v Hd Hout).
      assert (str_keys (d ++ [(k, v)])%list) as Hd1
        by (apply Forall_app; split; [exact Hd | now constructor]).
      assert (NoDup (map fst (d ++ [(k, v)])%list)) as Nd1.
      { rewrite map_app. simpl. apply NoDup_app; [exact Nd | | ].
        - constructor; [tauto | constructor].
        - intros a Ha [<-|[]]. tauto. }
      rewrite IH; [|exact Hd1 | exact Nd1 | exact Hrest | exact Nrest].
      unfold merge_spec. rewrite map_app. simpl. rewrite Grest.
      unfold absent at 2. rewrite G. rewrite <- app_assoc. simpl.
      f_equal; [|f_equal].
      * apply map_ext_in. intros [k0 y] Hy. simpl. f_equal.
        destruct (py_same k k0) eqn:E; [|reflexivity].
        apply (py_same_str _ _ Hk) in E. subst k0. elim Hout.
        apply in_map_iff. now exists (k, y).
      * apply filter_ext_in. intros [k0 y] Hy. simpl.
        apply absent_same_keys; auto.
        rewrite map_app, in_app_iff. simpl.
        assert (k <> k0) by (intros ->; apply Hnot; apply in_map_iff; now exists (k0, y)).
        tauto.
Qed.

Lemma fst_combine {A B : Type} (l : list A) : forall (l' : list B),
  length l = length l' -> map fst (combine l l') = l.
Proof.
  induction l as [|a l IH]; intros [|b l'] H; simpl in *; try congruence.
  f_equal. apply IH. congruence.
Qed.

Lemma snd_combine {A B : Type} (l : list A) : forall (l' : list B),
  length l = length l' -> map snd (combine l l') = l'.
Proof.
  induction l as [|a l IH]; intros [|b l'] H; simpl in *; try congruence.
  f_equal. apply IH. congruence.
Qed.

Lemma combine_fst_snd {A B : Type} (l : list (A * B)) :
  combine (map fst l) (map snd l) = l.
Proof.
  induction l as [|[a b] l IH]; simpl; [reflexivity | now rewrite IH].
Qed.

Lemma aligned_entries (s : slot) :
  aligned s -> str_keys (entries_of s) /\ map fst (entries_of s) = ids s.
Proof.
  intros (Hlen & Hstr). unfold entries_of. split.
  - unfold str_keys. rewrite Forall_forall in *. intros [k v] Hin. simpl.
    apply Hstr. now apply in_combine_l in Hin.
  - now rewrite fst_combine.
Qed.

(** A dictionary built by assignments has string keys, none twice. *)
Lemma odict_update_keys (l : list (pyval * entity)) : forall d,
  str_keys d -> NoDup (map fst d) -> str_keys l ->
  str_keys (odict_update d l) /\ NoDup (map fst (odict_update d l)).
Proof.
  induction l as [|[k v] rest IH]; intros d Hd Nd Hl; [now split|].
  inversion Hl as [|? ? Hk Hrest]; subst. simpl in Hk.
  change (odict_update d ((k, v) :: rest))
    with (odict_update (odict_set d k v) rest).
  destruct (odict_get d k) as [x|] eqn:G.
  - assert (In k (map fst d)) as Hin
      by (apply in_map_iff; exists (k, x); split;
          [reflexivity | now apply odict_get_some]).
    rewrite (odict_set_old d k v Hd Nd Hin).
    apply IH; [|rewrite map_map; exact Nd | exact Hrest].
    apply (str_keys_fst d); [now rewrite map_map | exact Hd].
  - assert (~ In k (map fst d)) as Hout by (now apply odict_get_none).
    rewrite (odict_set_new d k v Hd Hout).
    apply IH; [|rewrite map_app; simpl | exact Hrest].
    + apply Forall_app. split; [exact Hd | now constructor].
    + apply NoDup_app; [exact Nd | constructor; [tauto | constructor] |].
      intros a Ha [<-|[]]. tauto.
Qed.

Lemma as_dict_keys (l : list (pyval * entity)) :
  str_keys l -> str_keys (as_dict l) /\ NoDup (map fst (as_dict l)).
Proof.
  intros Hl. apply odict_update_keys; [constructor | constructor | exact Hl].
Qed.

(** Without a repeated identifier the dictionary is the list of entries. *)
Lemma as_dict_nodup (l : list (pyval * entity)) :
  str_keys l -> NoDup (map fst l) -> as_dict l = l.
Proof.
  intros Hl Nl. unfold as_dict.
  rewrite (odict_update_spec l [] (Forall_nil _) (NoDup_nil _) Hl Nl).
  unfold merge_spec. simpl.
  clear. induction l as [|x l IHl]; simpl; [reflexivity | now rewrite IHl].
Qed.

Lemma entity_dict_loop_spec (e_ids : list pyval) : forall e_objs r_dict w,
  length e_ids = length e_objs ->
  Forall (fun uid => is_pystr uid = true) e_ids ->
  entity_dict_loop e_ids e_objs r_dict w
  = Ok (odict_update r_dict (combine e_ids e_objs), w).
Proof.
  induction e_ids as [|uid e_ids IH]; intros [|obj e_objs] r_dict w Hlen Hstr;
    simpl in *; try congruence; [reflexivity|].
  inversion Hstr as [|? ? Hu Hrest]; subst.
  destruct uid; try discriminate. simpl.
  apply IH; [congruence | exact Hrest].
Qed.

(** The dictionary [_make_entity_dict] builds from an aligned slot. *)
Lemma make_entity_dict_spec (e_dict : registry) (e_key : string) (s : slot)
    (w : world) :
  dict_get e_dict e_key = Some s -> aligned s ->
  _make_entity_dict e_dict e_key w = Ok (as_dict (entries_of s), w).
Proof.
  intros Hs (Hlen & Hstr). unfold _make_entity_dict. rewrite Hs.
  now rewrite (entity_dict_loop_spec _ _ _ _ Hlen Hstr).
Qed.

Lemma dict_get_set_other {A : Type} (kvs : list (string * A)) (k k' : string)
    (v : A) :
  k <> k' -> dict_get (dict_set kvs k v) k' = dict_get kvs k'.
Proof.
  intros Hne. induction kvs as [|[k0 x] r IH]; simpl.
  - destruct (String.eqb_spec k k'); [contradiction | reflexivity].
  - destruct (String.eqb_spec k0 k); simpl.
    + subst. destruct (String.eqb_spec k k'); [contradiction | reflexivity].
    + destruct (String.eqb_spec k0 k'); [reflexivity | exact IH].
Qed.

(** The loop of [_update_data] over the keys of the current data. *)
Lemma update_loop_spec (cur_data : registry) (keys : list string) :
  NoDup keys ->
  forall new_data w,
    (forall k, In k keys ->
       exists sc sn, dict_get cur_data k = Some sc /\ aligned sc /\
                     dict_get new_data k = Some sn /\ aligned sn) ->
    exists res,
      update_loop cur_data keys new_data w = Ok (res, w) /\
      (forall k sc sn,
          In k keys -> dict_get cur_data k = Some sc ->
          dict_get new_data k = Some sn ->
          exists s, dict_get res k = Some s /\
                    length (ids s) = length (objs s) /\
                    entries_of s = merge_spec (as_dict (entries_of sc))
                                              (as_dict (entries_of sn))) /\
      (forall k, ~ In k keys -> dict_get res k = dict_get new_data k).
Proof.
  induction 1 as [|k keys Hnot Hnd IH]; intros new_data w Hwf.
  - exists new_data. simpl. split; [reflexivity|]. split; [tauto | reflexivity].
  - destruct (Hwf k (or_introl eq_refl)) as (sc & sn & Hc & Wc & Hn & Wn).
    simpl. unfold bind.
    rewrite (make_entity_dict_spec _ _ _ _ Hc Wc).
    rewrite (make_entity_dict_spec _ _ _ _ Hn Wn).
    destruct (as_dict_keys _ (proj1 (aligned_entries sc Wc))) as [Kc Nc].
    destruct (as_dict_keys _ (proj1 (aligned_entries sn Wn))) as [Kn Nn].
    rewrite (odict_update_spec _ _ Kc Nc Kn Nn).
    set (m := merge_spec (as_dict (entries_of sc)) (as_dict (entries_of sn))).
    set (new1 := dict_set new_data k (mkSlot (map fst m) (map snd m))).
    destruct (IH new1 w) as (res & Hrun & Hin & Hout).
    { intros k' Hk'. destruct (Hwf k' (or_intror Hk')) as (sc' & sn' & ? & ? & ? & ?).
      exists sc', sn'. split; [assumption|]. split; [assumption|].
      split; [|assumption].
      unfold new1. rewrite dict_get_set_other; [assumption|].
      intros ->. contradiction. }
    exists res. split; [exact Hrun|]. split.
    + intros k' sc' sn' [<-|Hk'] Hc' Hn'.
      * rewrite Hout by exact Hnot. unfold new1. rewrite dict_get_set_same.
        eexists. split; [reflexivity|]. simpl.
        split; [now rewrite !length_map|].
        assert (sc' = sc) by congruence. assert (sn' = sn) by congruence.
        subst sc' sn'. unfold entries_of at 1. simpl.
        now rewrite combine_fst_snd.
      * apply (Hin k' sc' sn' Hk' Hc').
        unfold new1. rewrite dict_get_set_other; [assumption|].
        intros ->. contradiction.
    + intros k' Hk'. rewrite Hout by tauto.
      unfold new1. apply dict_get_set_other. intros ->. apply Hk'. now left.
Qed.

Lemma dict_get_keys {A : Type} (kvs : list (string * A)) (k : string) :
  In k (map fst kvs) <-> exists v, dict_get kvs k = Some v.
Proof.
  induction kvs as [|[k' x] r IH]; simpl.
  - split; [tauto | intros [v H]; discriminate].
  - destruct (String.eqb_spec k' k).
    + split; [intros _; now exists x | intros _; now left].
    + rewrite <- IH. split; [intros [E|H]; [contradiction | exact H] | tauto].
Qed.

(** The identifiers of a merge: the existing ones in their order, then the
    fresh ones that are new. *)
Lemma merge_spec_keys (existing fresh : list (pyval * entity)) :
  map fst (merge_spec existing fresh)
  = (map fst existing
     ++ map fst (filter (fun kv => absent existing (fst kv)) fresh))%list.
Proof.
  unfold merge_spec. rewrite map_app, map_map. reflexivity.
Qed.

(** Precedence: under an identifier both sides have, the merge holds the
    fresh object. *)
Lemma merge_spec_precedence (existing fresh : list (pyval * entity))
    (x : pyval) (e1 e2 : entity) :
  In (x, e1) existing -> odict_get fresh x = Some e2 ->
  In (x, e2) (merge_spec existing fresh).
Proof.
  intros H1 H2. unfold merge_spec. apply in_or_app. left.
  apply in_map_iff. exists (x, e1). simpl. now rewrite H2.
Qed.

(** C3. For two registries whose slots hold one object per (string)
    identifier, [_update_data] returns, for every entity name of the
    current data, the slot whose entries are the merge of the
    specification: the existing entries in their order, each replaced in
    place by the fresh entry of the same identifier when there is one,
    followed by the fresh entries whose identifier is new, in their order.
    Each side is read as the dictionary of its entries, which is the list
    of entries itself when no identifier comes twice.  Names only the fresh
    registry has are left as they are. *)
Theorem update_data_merges (cur_data new_data : registry) (w : world) :
  NoDup (map fst cur_data) ->
  (forall k sc, dict_get cur_data k = Some sc ->
     aligned sc /\
     exists sn, dict_get new_data k = Some sn /\ aligned sn) ->
  exists res,
    _update_data cur_data new_data w = Ok (res, w) /\
    (forall k sc sn,
        dict_get cur_data k = Some sc -> dict_get new_data k = Some sn ->
        exists s, dict_get res k = Some s /\
                  length (ids s) = length (objs s) /\
                  entries_of s = merge_spec (as_dict (entries_of sc))
                                            (as_dict (entries_of sn)) /\
                  (NoDup (ids sc) -> as_dict (entries_of sc) = entries_of sc) /\
                  (NoDup (ids sn) -> as_dict (entries_of sn) = entries_of sn)) /\
    (forall k, dict_get cur_data k = None ->
               dict_get res k = dict_get new_data k).
Proof.
  intros Hnd Hwf. unfold _update_data.
  destruct (update_loop_spec cur_data (map fst cur_data) Hnd new_data w)
    as (res & Hrun & Hin & Hout).
  { intros k Hk. apply dict_get_keys in Hk. destruct Hk as (sc & Hc).
    destruct (Hwf k sc Hc) as (Wc & sn & Hn & Wn). now exists sc, sn. }
  exists res. split; [exact Hrun|]. split.
  - intros k sc sn Hc Hn.
    destruct (Hin k sc sn) as (s & Hs & Hlen & He); auto.
    { apply dict_get_keys. now exists sc. }
    destruct (Hwf k sc Hc) as (Wc & sn' & Hn' & Wn).
    assert (sn' = sn) by congruence. subst sn'.
    exists s. split; [exact Hs|]. split; [exact Hlen|]. split; [exact He|].
    destruct (aligned_entries sc Wc) as [Kc Ec].
    destruct (aligned_entries sn Wn) as [Kn En].
    split; intros N; apply as_dict_nodup; congruence.
  - intros k Hk. apply Hout. intros Hin'. apply dict_get_keys in Hin'.
    destruct Hin' as (v & Hv). congruence.
Qed.

Lemma update_data_merges_witness :
  exists res s,
    _update_data archived_flows fresh_flows sample_world = Ok (res, sample_world) /\
    dict_get res "Flow" = Some s /\
    entries_of s
    = [(PStr "flow-a", EOpaque "Flow" (PStr "flow-a") (PStr "old a"));
       (PStr "flow-b", EOpaque "Flow" (PStr "flow-b") (PStr "new b"));
       (PStr "flow-c", EOpaque "Flow" (PStr "flow-c") (PStr "new c"))].
Proof.
  assert (Hnd : NoDup (map fst archived_flows))
    by (repeat constructor; simpl; tauto).
  assert (Hwf : forall k sc, dict_get archived_flows k = Some sc ->
                  aligned sc /\
                  exists sn, dict_get fresh_flows k = Some sn /\ aligned sn).
  { intros k sc H. unfold archived_flows in H. cbn [dict_get] in H.
    destruct (String.eqb_spec "Flow" k); [|discriminate].
    injection H as <-. subst k. split.
    - split; [reflexivity | repeat constructor].
    - eexists. split; [reflexivity|].
      split; [reflexivity | repeat constructor]. }
  destruct (update_data_merges archived_flows fresh_flows sample_world Hnd Hwf)
    as (res & Hrun & Hin & _).
  destruct (Hin "Flow" _ _ eq_refl eq_refl) as (s & Hs & _ & He & _).
  exists res, s. split; [exact Hrun|]. split; [exact Hs|]. exact He.
Defined.

(** *** The registry read from an archive

    The existing side of the merge comes from [_read_jsonld]: for every
    class, the identifiers that have a readable document, each once, with
    the objects of their documents. *)

Lemma py_in_str (x : pyval) (l : list pyval) :
  Forall (fun uid => is_pystr uid = true) l ->
  (py_in x l = true <-> In x l).
Proof.
  unfold py_in. induction 1 as [|y l Hy _ IH]; simpl.
  - split; [discriminate | tauto].
  - rewrite orb_true_iff, IH, (py_same_str y x Hy). tauto.
Qed.

Lemma py_in_pystr (x : string) (seen : list string) :
  py_in (PStr x) (map PStr seen) = existsb (fun y => String.eqb y x) seen.
Proof.
  unfold py_in. induction seen as [|y seen IH]; simpl; [reflexivity|].
  now rewrite IH.
Qed.

Lemma dict_set_keys {A : Type} (kvs : list (string * A)) (k : string) (v x : A) :
  dict_get kvs k = Some x -> map fst (dict_set kvs k v) = map fst kvs.
Proof.
  induction kvs as [|[k' y] r IH]; simpl; [discriminate|].
  destruct (String.eqb k' k); simpl; [reflexivity|].
  intros H. now rewrite IH.
Qed.

(** The loop of [_read_jsonld] over the identifiers of one class. *)
Lemma read_ids_spec (entries : list zentry) (name : string) (l : list string) :
  forall seen objs0 w,
    dict_get (dict_s w) name = Some (mkSlot (map PStr seen) objs0) ->
    exists w',
      read_ids entries name false l w = Ok (tt, w') /\
      dict_get (dict_s w') name
      = Some (mkSlot
                (map PStr (seen ++ first_occurrences seen
                                     (filter (readable entries name) l)))
                (objs0 ++ flat_map (fun rid =>
                                      match zip_read entries name rid with
                                      | Some r_obj => [r_obj]
                                      | None => []
                                      end)
                            (first_occurrences seen
                               (filter (readable entries name) l)))) /\
      (forall k, k <> name -> dict_get (dict_s w') k = dict_get (dict_s w) k) /\
      map fst (dict_s w') = map fst (dict_s w).
Proof.
  induction l as [|rid rest IH]; intros seen objs0 w Hs.
  - exists w. simpl. rewrite !app_nil_r. auto.
  - simpl read_ids. unfold bind at 1. unfold reg_slot at 1. rewrite Hs.
    cbn [ids objs]. rewrite py_in_pystr. simpl filter.
    destruct (existsb (fun y => String.eqb y rid) seen) eqn:Hseen.
    + unfold bind at 1. unfold log at 1.
      destruct (IH seen objs0
                  (mkWorld (dict_s w)
                     (logged w ++ [(DEBUG, "Skipping existing UUID for %s (%s)")]))
                  Hs) as (w' & Hrun & Hslot & Hother & Hkeys).
      exists w'. split; [exact Hrun|].
      destruct (readable entries name rid); simpl first_occurrences;
        rewrite ?Hseen; auto.
    + destruct (zip_read entries name rid) as [r_obj|] eqn:Hread.
      * assert (Hr : readable entries name rid = true)
          by (unfold readable; now rewrite Hread).
        rewrite Hr.
        unfold bind at 1. unfold reg_append, bind, reg_slot. rewrite Hs.
        cbn [ids objs].
        set (w1 := mkWorld (dict_set (dict_s w) name
                              (mkSlot (map PStr seen ++ [PStr rid])
                                      (objs0 ++ [r_obj])))
                           (logged w)).
        destruct (IH (seen ++ [rid])%list (objs0 ++ [r_obj])%list w1)
          as (w' & Hrun & Hslot & Hother & Hkeys).
        { unfold w1. simpl. rewrite dict_get_set_same, map_app. reflexivity. }
        exists w'. split; [exact Hrun|].
        simpl first_occurrences. rewrite Hseen. simpl flat_map. rewrite Hread.
        split; [|split].
        -- rewrite Hslot. rewrite <- !app_assoc. reflexivity.
        -- intros k Hk. rewrite (Hother k Hk). unfold w1. simpl.
           apply dict_get_set_other. congruence.
        -- rewrite Hkeys. unfold w1. simpl. now apply (dict_set_keys _ _ _ _ Hs).
      * assert (Hr : readable entries name rid = false)
          by (unfold readable; now rewrite Hread).
        rewrite Hr.
        unfold bind at 1. unfold log at 1.
        destruct (IH seen objs0
                    (mkWorld (dict_s w)
                       (logged w ++ [(WARNING, "Failed to read %s (%s) from file! %s")]))
                    Hs) as (w' & Hrun & Hslot & Hother & Hkeys).
        exists w'. auto.
Qed.

(** The loop of [_read_jsonld] over the classes. *)
Lemma read_names_spec (entries : list zentry) (names : list string) :
  NoDup names ->
  forall w,
    (forall n, In n names -> dict_get (dict_s w) n = Some (mkSlot [] [])) ->
    exists w',
      read_names entries false names w = Ok (tt, w') /\
      (forall n, In n names ->
                 dict_get (dict_s w') n = Some (archive_slot entries n)) /\
      (forall k, ~ In k names -> dict_get (dict_s w') k = dict_get (dict_s w) k) /\
      map fst (dict_s w') = map fst (dict_s w).
Proof.
  induction 1 as [|name rest Hnot Hnd IH]; intros w Hempty.
  - exists w. simpl. repeat split; tauto.
  - simpl read_names. unfold bind at 1. unfold log at 1.
    set (w0 := mkWorld (dict_s w) (logged w ++ [(INFO, "Read %d UUIDs for %s")])).
    destruct (read_ids_spec entries name (ids_of entries name) [] [] w0)
      as (w1 & Hrun & Hslot & Hother & Hkeys).
    { apply Hempty. now left. }
    unfold bind. rewrite Hrun.
    destruct (IH w1) as (w' & Hrun' & Hin & Hout & Hkeys').
    { intros n Hn. rewrite Hother; [apply Hempty; now right|].
      intros ->. contradiction. }
    exists w'. split; [exact Hrun'|]. split; [|split].
    + intros n [<-|Hn]; [|now apply Hin].
      rewrite (Hout name Hnot). exact Hslot.
    + intros k Hk. simpl in Hk. rewrite Hout by tauto. apply Hother.
      intros ->. tauto.
    + now rewrite Hkeys', Hkeys.
Qed.

Lemma dict_get_none {A : Type} (kvs : list (string * A)) (k : string) :
  ~ In k (map fst kvs) -> dict_get kvs k = None.
Proof.
  intros H. destruct (dict_get kvs k) as [v|] eqn:E; [|reflexivity].
  elim H. apply dict_get_keys. now exists v.
Qed.

(** Two dictionaries with the same keys in the same order, none twice, and
    the same value under every key are equal. *)
Lemma dict_ext {A : Type} (d1 : list (string * A)) : forall d2,
  map fst d1 = map fst d2 -> NoDup (map fst d1) ->
  (forall k, In k (map fst d1) -> dict_get d1 k = dict_get d2 k) -> d1 = d2.
Proof.
  induction d1 as [|[k v] r IH]; intros [|[k2 v2] r2] Hk Hnd Hget;
    simpl in *; try discriminate; [reflexivity|].
  injection Hk as <- Hk. inversion Hnd as [|? ? Hnot Hnd']; subst.
  pose proof (Hget k (or_introl eq_refl)) as Hv. rewrite String.eqb_refl in Hv.
  injection Hv as <-. f_equal. apply IH; [exact Hk | exact Hnd'|].
  intros k' Hk'. specialize (Hget k' (or_intror Hk')).
  destruct (String.eqb_spec k k') as [->|Hne]; [contradiction | exact Hget].
Qed.

Lemma root_entity_names_nodup : NoDup root_entity_names.
Proof.
  unfold root_entity_names.
  repeat (constructor; [simpl; intuition discriminate|]). constructor.
Qed.

Lemma dict_get_map_names {A : Type} (f : string -> A) (names : list string)
    (k : string) :
  dict_get (map (fun name => (name, f name)) names) k
  = if existsb (String.eqb k) names then Some (f k) else None.
Proof.
  induction names as [|n names IH]; simpl; [reflexivity|].
  rewrite (String.eqb_sym k n).
  destruct (String.eqb_spec n k) as [->|Hne]; simpl; [reflexivity | exact IH].
Qed.

Lemma existsb_eqb_in (k : string) (names : list string) :
  In k names -> existsb (String.eqb k) names = true.
Proof.
  intros H. apply existsb_exists. exists k. split; [exact H|].
  apply String.eqb_refl.
Qed.

(** What [_save_to_json] and [_init_root_entities] read from an archive:
    the registry the archive denotes. *)
Lemma read_jsonld_spec (entries : list zentry) (lg : list (level * string)) :
  exists lg',
    _read_jsonld (Some (Archive entries)) false (mkWorld _root_entity_dict lg)
    = Ok (tt, mkWorld (archive_registry entries) lg').
Proof.
  unfold _read_jsonld, bind. unfold log at 1. cbn [dict_s logged].
  assert (Hkeys0 : map fst _root_entity_dict = root_entity_names).
  { unfold _root_entity_dict. rewrite map_map. apply map_id. }
  rewrite Hkeys0.
  destruct (read_names_spec entries root_entity_names root_entity_names_nodup
              (mkWorld _root_entity_dict
                 (lg ++ [(INFO, "Opening JSON-LD file, %s")])))
    as ([reg lg'] & Hrun & Hin & _ & Hkeys).
  { intros n Hn. cbn [dict_s]. unfold _root_entity_dict.
    rewrite dict_get_map_names, (existsb_eqb_in n _ Hn). reflexivity. }
  exists lg'. rewrite Hrun. do 3 f_equal. cbn [dict_s] in Hin, Hkeys.
  rewrite Hkeys0 in Hkeys.
  apply dict_ext.
  - rewrite Hkeys. unfold archive_registry. rewrite map_map. symmetry. apply map_id.
  - rewrite Hkeys. exact root_entity_names_nodup.
  - intros k Hk. rewrite Hkeys in Hk. rewrite (Hin k Hk).
    unfold archive_registry.
    now rewrite dict_get_map_names, (existsb_eqb_in k _ Hk).
Qed.

Lemma first_occurrences_spec (l : list string) : forall seen,
  NoDup (first_occurrences seen l) /\
  forall x, In x (first_occurrences seen l) -> In x l /\ ~ In x seen.
Proof.
  induction l as [|y l IH]; intros seen; simpl.
  - split; [constructor | tauto].
  - destruct (existsb (fun z => String.eqb z y) seen) eqn:E.
    + destruct (IH seen) as [Hnd Hin]. split; [exact Hnd|].
      intros x Hx. destruct (Hin x Hx). tauto.
    + destruct (IH (seen ++ [y])%list) as [Hnd Hin]. split.
      * constructor; [|exact Hnd]. intros Hy. destruct (Hin y Hy) as [_ Hn].
        apply Hn. apply in_or_app. right. now left.
      * intros x [<-|Hx].
        -- split; [now left|]. intros Hs.
           assert (existsb (fun z => String.eqb z y) seen = true) as E'
             by (apply existsb_exists; exists y; split;
                 [exact Hs | apply String.eqb_refl]).
           congruence.
        -- destruct (Hin x Hx) as [Hl Hn]. split; [now right|].
           intros Hs. apply Hn. apply in_or_app. now left.
Qed.

(** The registry an archive denotes holds one object per identifier and no
    identifier twice, whatever the archive repeats. *)
Lemma archive_registry_tidy (entries : list zentry) :
  tidy (archive_registry entries).
Proof.
  intros k s Hs. unfold archive_registry in Hs.
  rewrite dict_get_map_names in Hs.
  destruct (existsb (String.eqb k) root_entity_names); [|discriminate].
  injection Hs as <-. unfold archive_slot, archive_ids.
  set (l := filter (readable entries k) (ids_of entries k)).
  destruct (first_occurrences_spec l []) as [Hnd Hin].
  split; [split|]; cbn [ids objs].
  - rewrite length_map.
    assert (Hr : Forall (fun rid => readable entries k rid = true)
                   (first_occurrences [] l)).
    { apply Forall_forall. intros x Hx. destruct (Hin x Hx) as [Hl _].
      unfold l in Hl. now apply filter_In in Hl. }
    clear Hnd Hin.
    induction Hr as [|rid rest Hrid _ IHr]; [reflexivity|].
    simpl. unfold readable in Hrid.
    destruct (zip_read entries k rid); [|discriminate].
    simpl. now rewrite IHr.
  - apply Forall_forall. intros x Hx. apply in_map_iff in Hx.
    now destruct Hx as (r & <- & _).
  - clear Hin. induction Hnd as [|x rest Hx _ IHn]; simpl; constructor;
      [|exact IHn].
    intros Hm. apply in_map_iff in Hm. destruct Hm as (y & E & Hy).
    injection E as ->. contradiction.
Qed.

Lemma read_jsonld_tidy (entries : list zentry) (lg : list (level * string))
    (rw : world) :
  _read_jsonld (Some (Archive entries)) false (mkWorld _root_entity_dict lg)
  = Ok (tt, rw) ->
  tidy (dict_s rw).
Proof.
  destruct (read_jsonld_spec entries lg) as (lg' & ->).
  intros H. injection H as <-. apply archive_registry_tidy.
Qed.

(** ** C4: saving over a prior archive *)

Lemma to_write_spec (e_dict : registry) (l : list entity) :
  forall docs err,
    to_write e_dict l = (docs, err) ->
    (length docs <= length l)%nat /\
    Forall2 (fun k_obj d => document e_dict k_obj = Ok d)
            (firstn (length docs) l) docs /\
    (err = None <-> length docs = length l).
Proof.
  induction l as [|k_obj rest IH]; intros docs err H; simpl in H.
  - injection H as <- <-. simpl. repeat split; auto.
  - destruct (document e_dict k_obj) as [o|e] eqn:Hdoc.
    + destruct (to_write e_dict rest) as [l' err'].
      injection H as <- <-.
      destruct (IH l' err' eq_refl) as (Hlen & HF & Herr).
      simpl. split; [lia|]. split; [now constructor|].
      rewrite Herr. split; intros E; congruence.
    + injection H as <- <-. simpl. split; [lia|]. split; [constructor|].
      split; intros E; discriminate.
Qed.

Lemma Forall2_firstn {A B : Type} (R : A -> B -> Prop) (n : nat) :
  forall l1 l2, Forall2 R l1 l2 -> Forall2 R (firstn n l1) (firstn n l2).
Proof.
  induction n as [|n IH]; intros l1 l2 H; [constructor|].
  destruct H; simpl; constructor; auto.
Qed.

(** Writing into a file that is not there: the archive receives the
    documents of the registry in order, up to the first that the writer
    refuses or the device does not take, and the block is left without an
    exception exactly when every object has its document. *)
Lemma zip_write_spec (lib : Library) (e_dict : registry) (q : option nat) :
  exists docs,
    (length docs <= length (all_objects e_dict))%nat /\
    Forall2 (fun k_obj d => document e_dict k_obj = Ok d)
            (firstn (length docs) (all_objects e_dict)) docs /\
    disk (fst (zip_write lib e_dict (mkIO None q)))
    = Some (Archive (map (entry_of lib) docs)) /\
    (snd (zip_write lib e_dict (mkIO None q)) = Ok tt
     <-> length docs = length (all_objects e_dict)).
Proof.
  unfold zip_write. cbn [disk quota]. fold (all_objects e_dict).
  destruct (to_write e_dict (all_objects e_dict)) as [docs err] eqn:Hw.
  destruct (to_write_spec _ _ _ _ Hw) as (Hlen & HF & Herr).
  assert (Hall : exists docs',
             docs' = docs /\
             (length docs' <= length (all_objects e_dict))%nat /\
             Forall2 (fun k_obj d => document e_dict k_obj = Ok d)
                     (firstn (length docs') (all_objects e_dict)) docs' /\
             ((match err with Some e => Raise e | None => Ok tt end) = Ok tt
              <-> length docs' = length (all_objects e_dict))).
  { exists docs. repeat split; auto.
    - intros E. apply Herr. destruct err; [discriminate | reflexivity].
    - intros E. apply Herr in E. now subst err. }
  destruct Hall as (docs' & -> & Hlen' & HF' & Hret).
  destruct q as [n|].
  - destruct (Nat.ltb_spec n (length docs)) as [Hlt|Hge].
    + exists (firstn n docs). cbn [fst snd disk]. simpl app.
      rewrite length_firstn, Nat.min_l by lia.
      split; [lia|]. split; [|split; [reflexivity|]].
      * replace (firstn n (all_objects e_dict))
          with (firstn n (firstn (length docs) (all_objects e_dict)))
          by (rewrite firstn_firstn; f_equal; lia).
        now apply Forall2_firstn.
      * split; [discriminate | lia].
    + exists docs. cbn [fst snd disk]. simpl app. auto.
  - exists docs. cbn [fst snd disk]. simpl app. auto.
Qed.

(** [_save_to_json] on a path that holds a readable archive. *)
Lemma save_to_json_over_archive (lib : Library) (e_dict : registry)
    (entries : list zentry) (q : option nat) (w : world) :
  exists lg,
    _save_to_json lib e_dict (mkIO (Some (Archive entries)) q) w
    = match _update_data (archive_registry entries) e_dict
              (mkWorld (dict_s w) lg) with
      | Raise e => (mkIO None q, Raise e)
      | Ok (merged, w2) =>
          let '(fs, r) := zip_write lib merged (mkIO None q) in
          (fs, rbind r (fun _ => Ok (merged, w2)))
      end.
Proof.
  destruct (read_jsonld_spec entries
              (logged w ++ [(INFO, "Looking for %s");
                            (INFO, "Found existing data in JSON-LD")]))
    as (lg' & Hread).
  exists (lg' ++ [(INFO, "Successfully read data from previous JSON-LD");
                  (INFO, "Removing old archive file")])%list.
  unfold _save_to_json. cbn [disk quota dict_s logged].
  rewrite Hread. reflexivity.
Qed.

(** Two failures after the prior archive has been read and removed.  The
    device takes no document: the prior archive, which held a process, is
    gone and the file that replaces it is empty.  The registry holds an
    actor without identifier, which the writer refuses: the same, on a
    device that works. *)
Lemma prior_archive_lost_when_write_fails :
  _save_to_json Env.lib registry_with_flow
    (mkIO (Some prior_archive) (Some O)) sample_world
  = (mkIO (Some (Archive [])) (Some O), Raise OSError)
  /\
  _save_to_json Env.lib registry_with_unnamed_actor
    (mkIO (Some prior_archive) None) sample_world
  = (mkIO (Some (Archive [])) None, Raise ValueError).
Proof. split; vm_compute; reflexivity. Qed.

(** C4, amended. [_save_to_json] leaves the prior archive untouched only
    when it cannot be opened as a zip file.  A prior archive that can be
    read is removed before the merge and before anything is written.  The
    registry it denotes is merged with the new one; if the merge raises, no
    file is left at the path.  Otherwise the path holds a new file with the
    documents of the first objects of the merged registry, and the call
    returns, with the merged registry, exactly when every object of the
    merged registry has its document in the file. *)
Theorem save_removes_prior_archive (lib : Library) (e_dict : registry)
    (q : option nat) (w : world) :
  _save_to_json lib e_dict (mkIO (Some Corrupt) q) w
  = (mkIO (Some Corrupt) q, Raise UnboundLocalError)
  /\
  forall entries,
    let out := _save_to_json lib e_dict (mkIO (Some (Archive entries)) q) w in
    exists lg,
      match _update_data (archive_registry entries) e_dict
              (mkWorld (dict_s w) lg) with
      | Raise e => out = (mkIO None q, Raise e)
      | Ok (merged, w2) =>
          exists docs,
            (length docs <= length (all_objects merged))%nat /\
            Forall2 (fun k_obj d => document merged k_obj = Ok d)
                    (firstn (length docs) (all_objects merged)) docs /\
            disk (fst out) = Some (Archive (map (entry_of lib) docs)) /\
            ((exists r, snd out = Ok r)
             <-> length docs = length (all_objects merged)) /\
            (forall r, snd out = Ok r -> r = (merged, w2))
      end.
Proof.
  split; [reflexivity|].
  intros entries out.
  destruct (save_to_json_over_archive lib e_dict entries q w) as (lg & E).
  exists lg. subst out. rewrite E. clear E.
  destruct (_update_data (archive_registry entries) e_dict
              (mkWorld (dict_s w) lg)) as [[merged w2]|e]; [|reflexivity].
  destruct (zip_write_spec lib merged q) as (docs & Hlen & HF & Hdisk & Hret).
  destruct (zip_write lib merged (mkIO None q)) as [fs r].
  cbn [fst snd] in *. exists docs.
  split; [exact Hlen|]. split; [exact HF|]. split; [exact Hdisk|]. split.
  - rewrite <- Hret. split.
    + intros (x & Hx). destruct r as [[]|]; [reflexivity | discriminate].
    + intros ->. now exists (merged, w2).
  - intros x Hx. destruct r as [[]|]; [|discriminate]. simpl in Hx. congruence.
Qed.


(** ** C1: one entity per identifier *)

(** C1. [write] on a batch in which two names carry the same description:
    the second [_process] finds the process the first one stored and
    returns it, and [write] appends identifier and object once more, so the
    registry it ends with holds the same process twice. *)
Theorem write_registers_process_twice :
  exists processes w p,
    write Env.lib [("first", plant); ("second", plant)] false (mkIO None None)
    = (mkIO None None, Ok (processes, w)) /\
    dict_get (dict_s w) "Process"
    = Some (mkSlot [PStr "69768cf3-ea9c-3fe9-be56-704f6e97792d";
                    PStr "69768cf3-ea9c-3fe9-be56-704f6e97792d"]
                   [EProcess p; EProcess p]) /\
    p_id p = PStr "69768cf3-ea9c-3fe9-be56-704f6e97792d".
Proof.
  eexists. eexists. eexists. split; [vm_compute; reflexivity|].
  split; reflexivity.
Qed.

(** The same registry, for a flow: [_flow] looks the identifier up before
    it derives one, so a flow given twice without identifier is stored
    twice under the derived identifier. *)
Lemma flow_without_id_is_registered_twice :
  exists processes w,
    write Env.lib [("plant", plant_with_two_emissions)] false (mkIO None None)
    = (mkIO None None, Ok (processes, w)) /\
    option_map ids (dict_get (dict_s w) "Flow")
    = Some [PStr "6bb0257d-3cfc-3d7d-a48c-fe05348c7cf3";
            PStr "6bb0257d-3cfc-3d7d-a48c-fe05348c7cf3"].
Proof.
  eexists. eexists. split; vm_compute; reflexivity.
Qed.

(** * Further properties of the writer *)

(** ** Identifiers: [_uid] and [_uid_is_valid] *)

Lemma hex_digit_cases (d : Z) (P : Z -> Prop) :
  0 <= d < 16 ->
  P 0 -> P 1 -> P 2 -> P 3 -> P 4 -> P 5 -> P 6 -> P 7 -> P 8 -> P 9 ->
  P 10 -> P 11 -> P 12 -> P 13 -> P 14 -> P 15 -> P d.
Proof.
  intros H. 
  assert (d = 0 \/ d = 1 \/ d = 2 \/ d = 3 \/ d = 4 \/ d = 5 \/ d = 6 \/ d = 7 \/
          d = 8 \/ d = 9 \/ d = 10 \/ d = 11 \/ d = 12 \/ d = 13 \/ d = 14 \/ d = 15)
    as E by lia.
  intuition (subst; assumption).
Qed.

Lemma hex_val_digit (d : Z) : 0 <= d < 16 -> UUID.hex_val (UUID.hex_digit d) = Some d.
Proof. intros H. apply (hex_digit_cases d (fun d => UUID.hex_val (UUID.hex_digit d) = Some d) H); reflexivity. Qed.

Lemma hex_digit_not_hyphen (d : Z) :
  0 <= d < 16 -> Ascii.eqb (UUID.hex_digit d) "-" = false.
Proof. intros H. apply (hex_digit_cases d (fun d => Ascii.eqb (UUID.hex_digit d) "-" = false) H); reflexivity. Qed.

Lemma hex_digit_lower (d : Z) :
  0 <= d < 16 -> PyStr.lower_char (UUID.hex_digit d) = UUID.hex_digit d.
Proof. intros H. apply (hex_digit_cases d (fun d => PyStr.lower_char (UUID.hex_digit d) = UUID.hex_digit d) H); reflexivity. Qed.

Lemma land_15 (i : Z) : 0 <= Z.land i 15 < 16.
Proof.
  change 15 with (Z.ones 4). rewrite Z.land_ones by lia.
  apply Z.mod_pos_bound. reflexivity.
Qed.

Lemma int_of_hex_hex_of (n : nat) : forall i acc rest,
  UUID.int_of_hex acc (UUID.hex_of n i rest)
  = UUID.int_of_hex (acc * 16 ^ Z.of_nat n + i mod 16 ^ Z.of_nat n) rest.
Proof.
  induction n as [|n IH]; intros i acc rest.
  - simpl. rewrite Z.mod_1_r. f_equal. lia.
  - cbn [UUID.hex_of]. rewrite IH. cbn [UUID.int_of_hex].
    rewrite (hex_val_digit _ (land_15 i)). f_equal.
    rewrite Nat2Z.inj_succ, Z.pow_succ_r by lia.
    change 15 with (Z.ones 4). rewrite Z.land_ones by lia.
    rewrite Z.shiftr_div_pow2 by lia. change (2 ^ 4) with 16.
    rewrite (Z.rem_mul_r i 16 (16 ^ Z.of_nat n)) by lia. ring.
Qed.

Lemma length_hex_of (n : nat) : forall i rest,
  String.length (UUID.hex_of n i rest) = (n + String.length rest)%nat.
Proof.
  induction n as [|n IH]; intros i rest; [reflexivity|].
  cbn [UUID.hex_of]. rewrite IH. simpl. lia.
Qed.

Lemma hex_digit_is_lower_hex (d : Z) :
  0 <= d < 16 -> is_lower_hex (UUID.hex_digit d) = true.
Proof. intros H. apply (hex_digit_cases d (fun d => is_lower_hex (UUID.hex_digit d) = true) H); reflexivity. Qed.

Lemma all_chars_hex_of (n : nat) : forall i rest,
  all_chars is_lower_hex rest = true ->
  all_chars is_lower_hex (UUID.hex_of n i rest) = true.
Proof.
  induction n as [|n IH]; intros i rest H; [exact H|].
  cbn [UUID.hex_of]. apply IH. simpl.
  now rewrite (hex_digit_is_lower_hex _ (land_15 i)).
Qed.

Lemma all_chars_app (p : ascii -> bool) (a b : string) :
  all_chars p (a ++ b) = all_chars p a && all_chars p b.
Proof.
  induction a as [|c a IH]; simpl; [reflexivity|].
  now rewrite IH, andb_assoc.
Qed.

Lemma all_chars_substring (p : ascii -> bool) (s : string) : forall n m,
  all_chars p s = true -> all_chars p (substring n m s) = true.
Proof.
  induction s as [|c s IH]; intros n m H.
  - destruct n, m; reflexivity.
  - simpl in H. apply andb_true_iff in H. destruct H as [Hc Hs].
    destruct n as [|n]; simpl.
    + destruct m as [|m]; simpl; [reflexivity|]. now rewrite Hc, IH.
    + now apply IH.
Qed.

Lemma all_chars_weaken (p q : ascii -> bool) (s : string) :
  (forall c, p c = true -> q c = true) ->
  all_chars p s = true -> all_chars q s = true.
Proof.
  intros Hpq. induction s as [|c s IH]; simpl; [reflexivity|].
  intros H. apply andb_true_iff in H. destruct H as [Hc Hs].
  now rewrite (Hpq c Hc), IH.
Qed.

Lemma substring_split (s : string) : forall n m k,
  substring n (m + k) s = substring n m s ++ substring (n + m) k s.
Proof.
  induction s as [|c s IH]; intros n m k.
  - destruct n, m, k; reflexivity.
  - destruct n as [|n].
    + destruct m as [|m]; simpl; [reflexivity|].
      rewrite (IH 0%nat m k). reflexivity.
    + simpl. apply IH.
Qed.

Lemma substring_all (s : string) : substring 0 (String.length s) s = s.
Proof. induction s as [|c s IH]; simpl; [reflexivity | now rewrite IH]. Qed.

Lemma drop_hyphens_app (a b : string) :
  UUID.drop_hyphens (a ++ b) = UUID.drop_hyphens a ++ UUID.drop_hyphens b.
Proof.
  induction a as [|c a IH]; simpl; [reflexivity|].
  destruct (Ascii.eqb c "-"); simpl; now rewrite IH.
Qed.

Lemma lower_hex_not_hyphen (c : ascii) :
  is_lower_hex c = true -> Ascii.eqb c "-" = false.
Proof.
  intros H. destruct (Ascii.eqb_spec c "-") as [->|]; [discriminate | reflexivity].
Qed.

Lemma drop_hyphens_hex (s : string) :
  all_chars is_lower_hex s = true -> UUID.drop_hyphens s = s.
Proof.
  induction s as [|c s IH]; simpl; [reflexivity|].
  intros H. apply andb_true_iff in H. destruct H as [Hc Hs].
  now rewrite (lower_hex_not_hyphen c Hc), IH.
Qed.

(** The text of an identifier without its hyphens is its 32 digits. *)
Lemma drop_hyphens_to_str (i : Z) :
  UUID.drop_hyphens (UUID.to_str i) = UUID.hex_of 32 i "".
Proof.
  unfold UUID.to_str.
  assert (Hh : all_chars is_lower_hex (UUID.hex_of 32 i "") = true)
    by (now apply all_chars_hex_of).
  assert (Hl : String.length (UUID.hex_of 32 i "") = 32%nat)
    by (now rewrite length_hex_of).
  generalize dependent (UUID.hex_of 32 i ""). intros h Hh Hl.
  assert (E : substring 0 (8 + (4 + (4 + (4 + 12)))) h = h)
    by (change (8 + (4 + (4 + (4 + 12))))%nat with 32%nat; rewrite <- Hl;
        apply substring_all).
  rewrite !substring_split in E.
  rewrite !drop_hyphens_app.
  rewrite !(drop_hyphens_hex (substring _ _ h)) by (now apply all_chars_substring).
  exact E.
Qed.

Lemma of_hex_to_str (i version : Z) :
  0 <= i < 2 ^ 128 -> 1 <= version <= 5 ->
  UUID.of_hex (UUID.to_str i) version = Ok (UUID.stamp version i).
Proof.
  intros Hi Hv. unfold UUID.of_hex. rewrite drop_hyphens_to_str.
  rewrite length_hex_of. simpl negb. cbv iota.
  rewrite (int_of_hex_hex_of 32 i 0 ""). cbn [UUID.int_of_hex].
  change (16 ^ Z.of_nat 32) with (2 ^ 128).
  rewrite Z.mod_small by lia. rewrite Z.mul_0_l, Z.add_0_l.
  replace ((1 <=? version) && (version <=? 5)) with true; [reflexivity|].
  symmetry. apply andb_true_iff. split; apply Z.leb_le; lia.
Qed.

Lemma stamp_idempotent (version i : Z) :
  UUID.stamp version (UUID.stamp version i) = UUID.stamp version i.
Proof.
  unfold UUID.stamp. apply Z.bits_inj'. intros n Hn.
  repeat first [ rewrite Z.lor_spec | rewrite Z.land_spec
               | rewrite Z.lnot_spec by lia ].
  destruct (Z.testbit i n), (Z.testbit (Z.shiftl 49152 48) n),
    (Z.testbit (Z.shiftl 32768 48) n), (Z.testbit (Z.shiftl 61440 64) n),
    (Z.testbit (Z.shiftl version 76) n); reflexivity.
Qed.

Lemma small_iff_high_bits (x : Z) :
  0 <= x -> (x < 2 ^ 128 <-> forall n, 128 <= n -> Z.testbit x n = false).
Proof.
  intros Hx. split.
  - intros Hlt n Hn. destruct (Z.eq_dec x 0) as [->|Hne]; [apply Z.bits_0|].
    apply Z.bits_above_log2; [lia|].
    assert (Hpos : 0 < x) by lia.
    pose proof (proj1 (Z.log2_lt_pow2 x 128 Hpos) Hlt). lia.
  - intros H. destruct (Z.lt_ge_cases x (2 ^ 128)) as [Hlt|Hge]; [exact Hlt|].
    assert (Hpos : 0 < x) by lia.
    pose proof (proj1 (Z.log2_le_pow2 x 128 Hpos) Hge) as Hlog.
    pose proof (Z.bit_log2 x ltac:(lia)) as Hb.
    rewrite (H (Z.log2 x)) in Hb by lia. discriminate.
Qed.

Lemma shiftl_high_bit (a k n : Z) :
  0 <= a -> 0 <= k -> Z.log2 a < n - k -> Z.testbit (Z.shiftl a k) n = false.
Proof.
  intros Ha Hk Hn. pose proof (Z.log2_nonneg a).
  rewrite Z.shiftl_spec by lia.
  destruct (Z.eq_dec a 0) as [->|Hne]; [apply Z.bits_0|].
  apply Z.bits_above_log2; lia.
Qed.

Lemma stamp_range (version i : Z) :
  0 <= version < 16 -> 0 <= i < 2 ^ 128 ->
  0 <= UUID.stamp version i < 2 ^ 128.
Proof.
  intros Hv Hi.
  assert (Hnn : 0 <= UUID.stamp version i).
  { unfold UUID.stamp. apply Z.lor_nonneg. split.
    - apply Z.land_nonneg. left. apply Z.lor_nonneg. split.
      + apply Z.land_nonneg. left. lia.
      + apply Z.shiftl_nonneg. lia.
    - apply Z.shiftl_nonneg. lia. }
  split; [exact Hnn|]. apply (small_iff_high_bits _ Hnn). intros n Hn.
  pose proof (proj1 (small_iff_high_bits i (proj1 Hi)) (proj2 Hi) n Hn) as Hin.
  unfold UUID.stamp.
  repeat first [ rewrite Z.lor_spec | rewrite Z.land_spec
               | rewrite Z.lnot_spec by lia ].
  rewrite Hin.
  rewrite (shiftl_high_bit 32768 48 n) by (try (simpl Z.log2); lia).
  rewrite (shiftl_high_bit version 76 n); [reflexivity | lia | lia |].
  destruct (Z.eq_dec version 0) as [->|Hne]; [simpl; lia|].
  assert (Hpos : 0 < version) by lia.
  pose proof (proj1 (Z.log2_lt_pow2 version 4 Hpos) ltac:(simpl; lia)). lia.
Qed.

Lemma word_bytes_range (w : Z) :
  Forall (fun b => 0 <= b < 256) (UUID.word_bytes w).
Proof.
  unfold UUID.word_bytes.
  repeat constructor;
    (change 255 with (Z.ones 8); rewrite Z.land_ones by lia;
     apply Z.mod_pos_bound; reflexivity).
Qed.

Lemma int_of_bytes_range (l : list Z) :
  Forall (fun b => 0 <= b < 256) l ->
  forall acc, 0 <= acc ->
    0 <= fold_left (fun acc b => acc * 256 + b) l acc
      < (acc + 1) * 256 ^ Z.of_nat (length l).
Proof.
  induction 1 as [|b l Hb _ IH]; intros acc Hacc.
  - simpl. lia.
  - cbn [fold_left length]. rewrite Nat2Z.inj_succ, Z.pow_succ_r by lia.
    specialize (IH (acc * 256 + b) ltac:(lia)).
    assert (0 < 256 ^ Z.of_nat (length l)) by (apply Z.pow_pos_nonneg; lia).
    nia.
Qed.

Lemma md5_range (msg : list Z) :
  0 <= UUID.int_of_bytes (UUID.md5 msg) < 2 ^ 128.
Proof.
  unfold UUID.md5.
  destruct (UUID.blocks _ _ _) as [[[A B] C] D].
  unfold UUID.int_of_bytes.
  pose proof (int_of_bytes_range
                (UUID.word_bytes A ++ UUID.word_bytes B
                 ++ UUID.word_bytes C ++ UUID.word_bytes D)) as H.
  assert (HF : Forall (fun b => 0 <= b < 256)
                 (UUID.word_bytes A ++ UUID.word_bytes B
                  ++ UUID.word_bytes C ++ UUID.word_bytes D))
    by (repeat (apply Forall_app; split); apply word_bytes_range).
  specialize (H HF 0 ltac:(lia)).
  change (Z.of_nat (length (UUID.word_bytes A ++ UUID.word_bytes B
                            ++ UUID.word_bytes C ++ UUID.word_bytes D)))
    with 16 in H.
  change ((0 + 1) * 256 ^ 16) with (2 ^ 128) in H. exact H.
Qed.

(** The text of a number of 128 bits tells it. *)
Lemma to_str_injective (i j : Z) :
  0 <= i < 2 ^ 128 -> 0 <= j < 2 ^ 128 ->
  UUID.to_str i = UUID.to_str j -> i = j.
Proof.
  intros Hi Hj E.
  assert (Ei : UUID.int_of_hex 0 (UUID.drop_hyphens (UUID.to_str i)) = Some i).
  { rewrite drop_hyphens_to_str, (int_of_hex_hex_of 32 i 0 "").
    cbn [UUID.int_of_hex]. change (16 ^ Z.of_nat 32) with (2 ^ 128).
    rewrite Z.mod_small by lia. f_equal. }
  assert (Ej : UUID.int_of_hex 0 (UUID.drop_hyphens (UUID.to_str j)) = Some j).
  { rewrite drop_hyphens_to_str, (int_of_hex_hex_of 32 j 0 "").
    cbn [UUID.int_of_hex]. change (16 ^ Z.of_nat 32) with (2 ^ 128).
    rewrite Z.mod_small by lia. f_equal. }
  rewrite E in Ei. congruence.
Qed.

Lemma stamp_version_bit (i : Z) :
  Z.testbit (UUID.stamp 3 i) 76 = true /\ Z.testbit (UUID.stamp 4 i) 76 = false.
Proof.
  unfold UUID.stamp.
  repeat first [ rewrite Z.lor_spec | rewrite Z.land_spec
               | rewrite Z.lnot_spec by lia ].
  split.
  - replace (Z.testbit (Z.shiftl 3 76) 76) with true by reflexivity.
    apply orb_true_r.
  - replace (Z.testbit (Z.shiftl 4 76) 76) with false by reflexivity.
    replace (Z.testbit (Z.shiftl 61440 64) 76) with true by reflexivity.
    simpl negb. now rewrite andb_false_r.
Qed.

(** Every identifier [_uid] derives is a valid UUID of version 3, and not
    one of version 4. *)
Theorem derived_uid_is_valid_version_3 (lib : Library) (args : list pyarg) :
  _uid_is_valid (PStr (_uid lib args)) 3 = true /\
  _uid_is_valid (PStr (_uid lib args)) 4 = false.
Proof.
  unfold _uid, UUID.uuid3.
  set (m := UUID.int_of_bytes (UUID.md5 _)).
  assert (Hm : 0 <= m < 2 ^ 128) by apply md5_range.
  assert (Hs : 0 <= UUID.stamp 3 m < 2 ^ 128) by (apply stamp_range; lia).
  unfold _uid_is_valid. rewrite !of_hex_to_str by (try exact Hs; lia).
  rewrite stamp_idempotent. split; [apply String.eqb_refl|].
  apply String.eqb_neq. intros E.
  apply to_str_injective in E; [|apply stamp_range; lia | exact Hs].
  pose proof (stamp_version_bit m) as [H3 _].
  pose proof (stamp_version_bit (UUID.stamp 3 m)) as [_ H4].
  rewrite E in H4. congruence.
Qed.

Lemma length_substring (s : string) : forall n m,
  (n + m <= String.length s)%nat -> String.length (substring n m s) = m.
Proof.
  induction s as [|c s IH]; intros n m H; simpl in H.
  - assert (n = O /\ m = O) as [-> ->] by lia. reflexivity.
  - destruct n as [|n].
    + destruct m as [|m]; simpl; [reflexivity|]. rewrite IH; [reflexivity | lia].
    + simpl. apply IH. lia.
Qed.

Lemma length_append (a b : string) :
  String.length (a ++ b) = (String.length a + String.length b)%nat.
Proof. induction a as [|c a IH]; simpl; [reflexivity | now rewrite IH]. Qed.

Lemma length_to_str (i : Z) : String.length (UUID.to_str i) = 36%nat.
Proof.
  unfold UUID.to_str.
  assert (Hl : String.length (UUID.hex_of 32 i "") = 32%nat)
    by (now rewrite length_hex_of).
  generalize dependent (UUID.hex_of 32 i ""). intros h Hl.
  rewrite !length_append, !length_substring by (rewrite Hl; lia).
  reflexivity.
Qed.

Lemma lower_hex_char (c : ascii) :
  is_lower_hex c = true -> PyStr.lower_char c = c.
Proof.
  unfold is_lower_hex, PyStr.lower_char. intros H.
  destruct (((65 <=? PyStr.code c) && (PyStr.code c <=? 90))
            || ((192 <=? PyStr.code c) && (PyStr.code c <=? 222)
                && negb (PyStr.code c =? 215))) eqn:E; [|reflexivity].
  exfalso.
  apply orb_true_iff in H. apply orb_true_iff in E.
  repeat match goal with
         | H : _ \/ _ |- _ => destruct H
         | H : _ && _ = true |- _ => apply andb_true_iff in H; destruct H
         | H : (_ <=? _) = true |- _ => apply Z.leb_le in H
         end; lia.
Qed.

Lemma lower_hex_text (s : string) :
  all_chars (fun c => is_lower_hex c || Ascii.eqb c "-") s = true ->
  PyStr.lower s = s.
Proof.
  induction s as [|c s IH]; simpl; [reflexivity|].
  intros H. apply andb_true_iff in H. destruct H as [Hc Hs].
  rewrite (IH Hs). f_equal. apply orb_true_iff in Hc.
  destruct Hc as [Hc|Hc]; [now apply lower_hex_char|].
  apply Ascii.eqb_eq in Hc. now subst c.
Qed.

Lemma to_str_chars (i : Z) :
  all_chars (fun c => is_lower_hex c || Ascii.eqb c "-") (UUID.to_str i) = true.
Proof.
  unfold UUID.to_str.
  assert (Hh : all_chars (fun c => is_lower_hex c || Ascii.eqb c "-")
                 (UUID.hex_of 32 i "") = true).
  { apply (all_chars_weaken is_lower_hex); [|now apply all_chars_hex_of].
    intros c Hc. now rewrite Hc. }
  generalize dependent (UUID.hex_of 32 i ""). intros h Hh.
  rewrite !all_chars_app.
  rewrite !(all_chars_substring _ h) by exact Hh. reflexivity.
Qed.

(** A string [_uid_is_valid] accepts is the canonical text of a UUID: 36
    characters, lower-case hexadecimal digits and hyphens. *)
Theorem valid_uid_is_canonical (s : string) (version : Z) :
  _uid_is_valid (PStr s) version = true ->
  String.length s = 36%nat /\
  all_chars (fun c => is_lower_hex c || Ascii.eqb c "-") s = true /\
  PyStr.lower s = s /\ PyStr.strip s = s.
Proof.
  unfold _uid_is_valid.
  destruct (UUID.of_hex s version) as [i|e]; [|discriminate].
  intros H. apply String.eqb_eq in H. subst s.
  split; [apply length_to_str|]. split; [apply to_str_chars|].
  split; [apply lower_hex_text, to_str_chars|].
  pose proof (to_str_chars i) as Hc.
  assert (G : forall t, all_chars (fun c => is_lower_hex c || Ascii.eqb c "-") t = true ->
              PyStr.rstrip t = t /\ PyStr.lstrip t = t).
  { assert (Hsp : forall c, (is_lower_hex c || Ascii.eqb c "-") = true ->
                            PyStr.is_space c = false).
    { intros c Hc'. destruct (PyStr.is_space c) eqn:Es; [|reflexivity].
      exfalso. unfold PyStr.is_space in Es. unfold is_lower_hex in Hc'.
      assert (Hh : Ascii.eqb c "-" = true -> PyStr.code c = 45)
        by (intros Ec; apply Ascii.eqb_eq in Ec; now subst c).
      apply orb_true_iff in Hc'.
      repeat match goal with
             | H : _ \/ _ |- _ => destruct H
             | H : _ || _ = true |- _ => apply orb_true_iff in H
             | H : _ && _ = true |- _ => apply andb_true_iff in H; destruct H
             | H : (_ <=? _) = true |- _ => apply Z.leb_le in H
             | H : (_ =? _) = true |- _ => apply Z.eqb_eq in H
             | H : Ascii.eqb _ _ = true |- _ => apply Hh in H
             end; lia. }
    induction t as [|c t IH]; [now split|].
    simpl. intros H. apply andb_true_iff in H. destruct H as [Hc1 Ht].
    destruct (IH Ht) as [Hr Hl]. split.
    - unfold PyStr.rstrip in *. simpl. rewrite Hr.
      destruct t; [now rewrite (Hsp c Hc1) | reflexivity].
    - unfold PyStr.lstrip. simpl. now rewrite (Hsp c Hc1). }
  unfold PyStr.strip. destruct (G _ Hc) as [Hr Hl]. now rewrite Hl, Hr.
Qed.

Lemma valid_uid_is_canonical_witness :
  _uid_is_valid (PStr "c9bf9e57-1685-4c89-bafb-ff5af830be8a") 4 = true /\
  String.length "c9bf9e57-1685-4c89-bafb-ff5af830be8a" = 36%nat /\
  PyStr.lower "c9bf9e57-1685-4c89-bafb-ff5af830be8a"
  = "c9bf9e57-1685-4c89-bafb-ff5af830be8a".
Proof.
  assert (H : _uid_is_valid (PStr "c9bf9e57-1685-4c89-bafb-ff5af830be8a") 4 = true)
    by (vm_compute; reflexivity).
  split; [exact H|].
  destruct (valid_uid_is_canonical _ 4 H) as (Hl & _ & Hlow & _).
  split; [exact Hl | exact Hlow].
Defined.

(** ** Looking up and registering *)

Lemma py_in_app (x : pyval) (l l' : list pyval) :
  py_in x (l ++ l') = py_in x l || py_in x l'.
Proof. unfold py_in. apply existsb_app. Qed.

Lemma py_index_app_new (x : pyval) (l : list pyval) :
  py_in x l = false -> py_same x x = true ->
  py_index x (l ++ [x]) = Some (length l).
Proof.
  unfold py_in. intros Hin Hx. induction l as [|y l IH]; simpl.
  - now rewrite Hx.
  - simpl in Hin. apply orb_false_iff in Hin. destruct Hin as [Hy Hl].
    rewrite Hy, (IH Hl). reflexivity.
Qed.

(** An identifier appended to a slot with one object per identifier is
    found again, with the object appended with it. *)
Lemma reg_find_appended (reg : registry) (key : string) (uid : pyval)
    (o : entity) (s : slot) (lg : list (level * string)) :
  dict_get reg key = Some s ->
  length (ids s) = length (objs s) ->
  py_in uid (ids s) = false -> py_same uid uid = true ->
  reg_find key uid
    (mkWorld (dict_set reg key (mkSlot (ids s ++ [uid]) (objs s ++ [o]))) lg)
  = Ok (Some o,
        mkWorld (dict_set reg key (mkSlot (ids s ++ [uid]) (objs s ++ [o]))) lg).
Proof.
  intros Hs Hlen Hnew Hx. unfold reg_find, bind, reg_slot. cbn [dict_s].
  rewrite dict_get_set_same. cbn [ids objs].
  assert (Hin : py_in uid [uid] = true)
    by (unfold py_in; simpl existsb; rewrite Hx; reflexivity).
  rewrite py_in_app, Hnew, Hin. simpl orb.
  rewrite (py_index_app_new uid (ids s) Hnew Hx), Hlen.
  rewrite nth_error_app2 by lia. rewrite Nat.sub_diag. reflexivity.
Qed.

Lemma reg_find_in (key : string) (uid : pyval) (w w' : world) (o : entity) :
  reg_find key uid w = Ok (Some o, w') ->
  w' = w /\ exists s, dict_get (dict_s w) key = Some s /\ In o (objs s).
Proof.
  unfold reg_find, reg_slot, bind.
  destruct (dict_get (dict_s w) key) as [s|]; [|discriminate].
  destruct (py_in uid (ids s)).
  - destruct (py_index uid (ids s)) as [idx|]; [|discriminate].
    destruct (nth_error (objs s) idx) as [x|] eqn:Hn; [|discriminate].
    unfold ret. intros H. injection H as <- <-. split; [reflexivity|].
    exists s. split; [reflexivity|]. eapply nth_error_In. exact Hn.
  - unfold ret. discriminate.
Qed.

(** [_flow_property] only looks a flow property up: the object it returns
    is one of the flow properties of the registry, and the registry is
    left as it was. *)
Theorem flow_property_is_looked_up (lib : Library) (u : pyval) (w w' : world)
    (fp : option entity) :
  _flow_property lib u w = Ok (fp, w') ->
  only_logs w w' /\
  forall o, fp = Some o ->
    exists s, dict_get (dict_s w) "FlowProperty" = Some s /\ In o (objs s).
Proof.
  assert (G : forall v w0 w1 fp0,
             (p_ref <- lift (property_ref lib v) ;;
              match p_ref with
              | None =>
                  log ERROR "Unknown unit, '%s'; no flow property reference!" ;;
                  ret None
              | Some p_ref =>
                  found <- reg_find "FlowProperty" (ref_id p_ref) ;;
                  match found with
                  | Some r_obj =>
                      log DEBUG "Reading existing flow property" ;; ret (Some r_obj)
                  | None =>
                      log INFO "Failed to find flow property for '%s'" ;; ret None
                  end
              end) w0 = Ok (fp0, w1) ->
             only_logs w0 w1 /\
             forall o, fp0 = Some o ->
               exists s, dict_get (dict_s w0) "FlowProperty" = Some s /\ In o (objs s)).
  { intros v w0 w1 fp0 H. apply bind_ok in H.
    destruct H as (p_ref & w2 & Hp & H). apply lift_ok in Hp.
    destruct Hp as (p & _ & E). injection E as <- <-.
    destruct p_ref as [r|].
    - apply bind_ok in H. destruct H as (found & w3 & Hf & H).
      destruct found as [o|].
      + apply reg_find_in in Hf. destruct Hf as (-> & s & Hs & Hin).
        unfold bind, log, ret in H. injection H as <- <-.
        split; [apply only_logs_log|]. intros o' E. injection E as <-.
        now exists s.
      + apply reg_find_ok in Hf. destruct Hf as [-> _].
        unfold bind, log, ret in H. injection H as <- <-.
        split; [apply only_logs_log | discriminate].
    - unfold bind, log, ret in H. injection H as <- <-.
      split; [apply only_logs_log | discriminate]. }
  unfold _flow_property. intros H.
  destruct u; try (exact (G _ _ _ _ H)).
  destruct (dict_get kvs "name") as [v|]; [exact (G _ _ _ _ H)|].
  unfold bind, log, ret in H. injection H as <- <-.
  split; [apply only_logs_log | discriminate].
Qed.

Lemma flow_property_is_looked_up_witness :
  exists o w',
    _flow_property Env.lib (PDict [("name", PStr "kg")]) world_with_mass
    = Ok (Some o, w') /\
    dict_s w' = dict_s world_with_mass /\
    exists s, dict_get (dict_s world_with_mass) "FlowProperty" = Some s /\
              In o (objs s).
Proof.
  eexists. eexists.
  assert (H : _flow_property Env.lib (PDict [("name", PStr "kg")]) world_with_mass
              = Ok (Some (EOpaque "FlowProperty" (PStr Env.mass_id) (PStr "Mass")),
                    mkWorld (dict_s world_with_mass)
                      [(DEBUG, "Reading existing flow property")]))
    by (vm_compute; reflexivity).
  split; [exact H|].
  destruct (flow_property_is_looked_up Env.lib _ _ _ _ H) as [L F].
  split; [exact (proj1 L)|]. exact (F _ eq_refl).
Defined.

(** ** [_check_source_year] *)

(** The year of a source is always within range: [_check_source_year]
    returns for any value, without touching the registry, a year from 0 to
    the year after the current one; an integer in that range is returned
    as it is. *)
Theorem source_year_is_in_range (lib : Library) (s_year : pyval) (w : world) :
  0 <= current_year lib ->
  exists y w',
    _check_source_year lib s_year w = Ok (y, w') /\ only_logs w w' /\
    0 <= y <= current_year lib + 1 /\
    (forall z, s_year = PInt z -> 0 <= z <= current_year lib + 1 -> y = z).
Proof.
  intros Hy. unfold _check_source_year, _current_year.
  destruct (py_int s_year) as [r_year|e] eqn:Hint.
  - destruct ((r_year <? 0) || (current_year lib + 1 <? r_year)) eqn:Hr.
    + unfold bind, log, ret. eexists. eexists. split; [reflexivity|].
      split; [apply only_logs_log|]. split; [lia|].
      intros z -> Hz. simpl in Hint. injection Hint as <-.
      apply orb_true_iff in Hr. destruct Hr as [Hr|Hr];
        apply Z.ltb_lt in Hr; lia.
    + apply orb_false_iff in Hr. destruct Hr as [H1 H2].
      apply Z.ltb_ge in H1. apply Z.ltb_ge in H2.
      unfold ret. exists r_year, w. split; [reflexivity|].
      split; [apply only_logs_refl|]. split; [lia|].
      intros z -> _. simpl in Hint. now injection Hint.
  - unfold bind, log, ret. eexists. eexists. split; [reflexivity|].
    split; [apply only_logs_log|]. split; [lia|].
    intros z -> _. discriminate.
Qed.

Lemma source_year_is_in_range_witness :
  exists y w',
    _check_source_year Env.lib (PInt 2016) sample_world = Ok (y, w') /\ y = 2016.
Proof.
  destruct (source_year_is_in_range Env.lib (PInt 2016) sample_world
              ltac:(vm_compute; discriminate))
    as (y & w' & Hrun & _ & _ & Hz).
  exists y, w'. split; [exact Hrun|].
  apply (Hz 2016 eq_refl). vm_compute. split; discriminate.
Defined.

(** ** Entities are registered once *)

Lemma py_same_str_refl (s : string) : py_same (PStr s) (PStr s) = true.
Proof. simpl. apply String.eqb_refl. Qed.

(** An actor is registered by the first call for a name, and found by the
    next: the second call returns the same reference and leaves the
    registry as the first call left it. *)
Theorem actor_is_registered_once (lib : Library) (name : string) (w : world)
    (s : slot) :
  name <> "" ->
  dict_get (dict_s w) "Actor" = Some s ->
  length (ids s) = length (objs s) ->
  registered (dict_s w) "Actor"
    (PStr (_uid lib [AModel ACTOR; AVal (PStr name)])) = false ->
  exists r w1 w2,
    _actor lib (PStr name) w = Ok (ReturnsPair r, w1) /\
    ref_name r = PStr name /\
    dict_get (dict_s w1) "Actor"
    = Some (mkSlot (ids s ++ [ref_id r])
                   (objs s ++ [EActor (mkActor (ref_id r) (PStr name))])) /\
    _actor lib (PStr name) w1 = Ok (ReturnsPair r, w2) /\
    dict_s w2 = dict_s w1.
Proof.
  intros Hname Hs Hlen Hnew. unfold _actor.
  destruct name as [|c name]; [now elim Hname|].
  set (uid := PStr (_uid lib [AModel ACTOR; AVal (PStr (String c name))])) in *.
  rewrite (bind_step _ _ _ _ _ (reg_find_new _ _ _ _ Hs Hnew)).
  unfold bind at 1. unfold log at 1.
  rewrite (bind_step _ _ _ _ _
             (reg_append_ok "Actor" _ _ (mkWorld (dict_s w) _) s Hs)).
  cbn [dict_s logged].
  unfold registered in Hnew. rewrite Hs in Hnew.
  eexists. eexists. eexists.
  split; [unfold bind, lift, ret; cbn [to_ref]; reflexivity|].
  cbn [ref_name ref_id a_id a_name dict_s].
  split; [reflexivity|]. split; [apply dict_get_set_same|].
  rewrite (bind_step _ _ _ _ _
             (reg_find_appended (dict_s w) "Actor" uid _ s _ Hs Hlen Hnew
                (py_same_str_refl _))).
  unfold bind, log, lift, ret. cbn [to_ref dict_s].
  split; reflexivity.
Qed.

Lemma actor_is_registered_once_witness :
  exists r w1 w2,
    _actor Env.lib (PStr "EPA") sample_world = Ok (ReturnsPair r, w1) /\
    _actor Env.lib (PStr "EPA") w1 = Ok (ReturnsPair r, w2) /\
    dict_s w2 = dict_s w1.
Proof.
  destruct (actor_is_registered_once Env.lib "EPA" sample_world (mkSlot [] []))
    as (r & w1 & w2 & H1 & _ & _ & H2 & H3);
    [discriminate | reflexivity | reflexivity | reflexivity |].
  exists r, w1, w2. repeat split; assumption.
Defined.

(** Location codes are told apart after trimming and without case: of two
    codes that agree that way, the first registers a location under its own
    spelling and the second is answered with the very same reference,
    leaving the registry as it was. *)
Theorem location_codes_are_folded (lib : Library) (c1 c2 : string)
    (w : world) (s : slot) :
  PyStr.lower (PyStr.strip c1) = PyStr.lower (PyStr.strip c2) ->
  c1 <> "" -> c2 <> "" ->
  dict_get (dict_s w) "Location" = Some s ->
  length (ids s) = length (objs s) ->
  registered (dict_s w) "Location"
    (PStr (_uid lib [AModel LOCATION; AVal (PStr c1)])) = false ->
  exists r w1 w2,
    _location lib (PStr c1) w = Ok (Some r, w1) /\
    ref_name r = PStr c1 /\
    _location lib (PStr c2) w1 = Ok (Some r, w2) /\
    dict_s w2 = dict_s w1.
Proof.
  intros Hfold H1 H2 Hs Hlen Hnew.
  assert (Huid : _uid lib [AModel LOCATION; AVal (PStr c2)]
                 = _uid lib [AModel LOCATION; AVal (PStr c1)]).
  { rewrite !uid_of_segments. cbn [map]. unfold segment at 2 4.
    cbn [arg_str py_str]. now rewrite Hfold. }
  unfold _location.
  destruct c1 as [|a1 c1]; [now elim H1|].
  destruct c2 as [|a2 c2]; [now elim H2|].
  change (_uid_is_valid PNone 3) with false. cbv iota.
  rewrite Huid.
  set (uid := PStr (_uid lib [AModel LOCATION; AVal (PStr (String a1 c1))])) in *.
  rewrite (bind_step _ _ _ _ _ (reg_find_new _ _ _ _ Hs Hnew)).
  unfold bind at 1. unfold log at 1.
  rewrite (bind_step _ _ _ _ _
             (reg_append_ok "Location" _ _ (mkWorld (dict_s w) _) s Hs)).
  cbn [dict_s logged].
  unfold registered in Hnew. rewrite Hs in Hnew.
  eexists. eexists. eexists.
  split; [unfold bind, lift, ret; cbn [to_ref]; reflexivity|].
  cbn [ref_name l_name].
  split; [reflexivity|].
  rewrite (bind_step _ _ _ _ _
             (reg_find_appended (dict_s w) "Location" uid _ s _ Hs Hlen Hnew
                (py_same_str_refl _))).
  unfold bind, log, lift, ret. cbn [to_ref dict_s].
  split; reflexivity.
Qed.

Lemma location_codes_are_folded_witness :
  exists r w1 w2,
    _location Env.lib (PStr "US") sample_world = Ok (Some r, w1) /\
    ref_name r = PStr "US" /\
    _location Env.lib (PStr " us ") w1 = Ok (Some r, w2) /\
    dict_s w2 = dict_s w1.
Proof.
  apply (location_codes_are_folded Env.lib "US" " us " sample_world
           (mkSlot [] []));
    [reflexivity | discriminate | discriminate | reflexivity | reflexivity
    | reflexivity].
Defined.

Lemma first_key_set_other (kvs : list (string * pyval)) (k : string)
    (v : pyval) (path : list string) :
  ~ In k path ->
  first_key (dict_set kvs k v) path = first_key kvs path.
Proof.
  induction path as [|p r IH]; intros Hk; simpl; [reflexivity|].
  rewrite dict_get_set_other by (intros ->; apply Hk; now left).
  rewrite IH by (intros Hin; apply Hk; now right). reflexivity.
Qed.

Lemma val_set_other (kvs : list (string * pyval)) (k : string) (v : pyval)
    (path : list string) (default : option pyval) :
  ~ In k path ->
  _val (PDict (dict_set kvs k v)) path default = _val (PDict kvs) path default.
Proof. intros Hk. unfold _val. now rewrite first_key_set_other. Qed.

Lemma valid_uid_is_str (uid : pyval) (version : Z) :
  _uid_is_valid uid version = true -> exists s, uid = PStr s.
Proof. destruct uid; try discriminate. intros _. now eexists. Qed.

(** A flow whose description carries a valid identifier is registered under
    it by the first call and found by the next: called again with the
    description as the first call left it, [_flow] returns the same
    reference and leaves the registry as it was. *)
Theorem flow_with_valid_id_is_registered_once (lib : Library)
    (kvs : list (string * pyval)) (flowprop : option entity) (w : world)
    (s : slot) (category_path : string) (prop : option Ref) :
  dict_get (dict_s w) "Flow" = Some s ->
  length (ids s) = length (objs s) ->
  _val (PDict kvs) ["category"] (Some (PStr "")) = PStr category_path ->
  as_ref lib flowprop = Ok prop ->
  _uid_is_valid (_val (PDict kvs) ["id"; "@id"] None) 3
  || _uid_is_valid (_val (PDict kvs) ["id"; "@id"] None) 4 = true ->
  registered (dict_s w) "Flow" (_val (PDict kvs) ["id"; "@id"] None) = false ->
  exists ref w1 w2,
    snd (_flow lib (PDict kvs) flowprop w) = Ok (Some ref, w1) /\
    ref_id ref = _val (PDict kvs) ["id"; "@id"] None /\
    (exists flow,
       dict_get (dict_s w1) "Flow"
       = Some (mkSlot (ids s ++ [ref_id ref]) (objs s ++ [EFlow flow]))) /\
    _flow lib (fst (_flow lib (PDict kvs) flowprop w)) flowprop w1
    = (fst (_flow lib (PDict kvs) flowprop w), Ok (Some ref, w2)) /\
    dict_s w2 = dict_s w1.
Proof.
  intros Hs Hlen Hc Hprop Hvalid Hnew.
  set (uid := _val (PDict kvs) ["id"; "@id"] None) in *.
  assert (Hstr : exists u, uid = PStr u).
  { apply orb_true_iff in Hvalid.
    destruct Hvalid as [H|H]; exact (valid_uid_is_str _ _ H). }
  destruct Hstr as [u Hu].
  assert (Hfst : exists kvs',
             fst (_flow lib (PDict kvs) flowprop w) = PDict kvs' /\
             _val (PDict kvs') ["id"; "@id"] None = uid /\
             _val (PDict kvs') ["category"] (Some (PStr "")) = PStr category_path).
  { unfold _flow. rewrite Hc. fold uid.
    rewrite (reg_find_new _ _ _ _ Hs Hnew). cbn [fst].
    destruct (PyStr.contains "waste" (PyStr.lower category_path)).
    - eexists. split; [reflexivity|].
      assert (N : forall path, ~ In "flowType" path ->
                    forall d, _val (PDict (dict_set kvs "flowType"
                                             (PStr "WASTE_FLOW"))) path d
                              = _val (PDict kvs) path d)
        by (intros path Hp d; now apply val_set_other).
      assert (P1 : ~ In "flowType" ["id"; "@id"])
        by (simpl; intros [H|[H|[]]]; discriminate).
      assert (P2 : ~ In "flowType" ["category"])
        by (simpl; intros [H|[]]; discriminate).
      rewrite (N _ P1), (N _ P2). now split.
    - exists kvs. split; [reflexivity|]. split; [reflexivity | exact Hc]. }
  destruct Hfst as (kvs' & -> & Hid' & Hc').
  unfold _flow at 1. rewrite Hc. fold uid.
  rewrite (reg_find_new _ _ _ _ Hs Hnew). cbn [snd].
  unfold bind at 1. unfold log at 1. rewrite Hvalid.
  unfold bind at 1. unfold ret at 1. cbv zeta.
  unfold bind at 1. unfold lift at 1. rewrite Hprop.
  rewrite (bind_step _ _ _ _ _
             (reg_append_ok "Flow" _ _ (mkWorld (dict_s w) _) s Hs)).
  cbn [dict_s logged].
  unfold registered in Hnew. rewrite Hs in Hnew.
  eexists. eexists. eexists.
  split; [unfold bind, lift, ret; cbn [to_ref]; reflexivity|].
  cbn [ref_id f_id]. split; [reflexivity|].
  split; [eexists; cbn [dict_s]; apply dict_get_set_same|].
  unfold _flow. rewrite Hc', Hid'.
  assert (Hx : py_same uid uid = true) by (rewrite Hu; apply py_same_str_refl).
  rewrite (reg_find_appended (dict_s w) "Flow" uid _ s _ Hs Hlen Hnew Hx).
  unfold bind, log, lift, ret. cbn [to_ref dict_s].
  split; reflexivity.
Qed.

Lemma flow_with_valid_id_is_registered_once_witness :
  let d := PDict [("name", PStr "Sludge"); ("category", PStr "Waste/solid");
                  ("id", PStr "c9bf9e57-1685-4c89-bafb-ff5af830be8a")] in
  let mass := Some (EOpaque "FlowProperty" (PStr Env.mass_id) (PStr "Mass")) in
  exists ref w1 w2,
    snd (_flow Env.lib d mass sample_world) = Ok (Some ref, w1) /\
    ref_id ref = PStr "c9bf9e57-1685-4c89-bafb-ff5af830be8a" /\
    _flow Env.lib (fst (_flow Env.lib d mass sample_world)) mass w1
    = (fst (_flow Env.lib d mass sample_world), Ok (Some ref, w2)) /\
    dict_s w2 = dict_s w1.
Proof.
  intros d mass.
  destruct (flow_with_valid_id_is_registered_once Env.lib
              [("name", PStr "Sludge"); ("category", PStr "Waste/solid");
               ("id", PStr "c9bf9e57-1685-4c89-bafb-ff5af830be8a")]
              mass sample_world (mkSlot [] []) "Waste/solid"
              (Some (mkRef (Some "FlowProperty") (PStr Env.mass_id)
                       (PStr "Mass") PNone)))
    as (ref & w1 & w2 & H1 & H2 & _ & H3 & H4);
    [reflexivity | reflexivity | reflexivity | reflexivity
    | vm_compute; reflexivity | reflexivity |].
  exists ref, w1, w2. repeat split; assumption.
Defined.

(** ** [_source] and [_source_list] *)





(** ** What building a process does to the registry *)

Lemma dict_get_some_in {A : Type} (kvs : list (string * A)) (key : string)
    (v : A) :
  dict_get kvs key = Some v -> exists k, In (k, v) kvs.
Proof.
  induction kvs as [|[k x] r IH]; simpl; [discriminate|].
  destruct (String.eqb k key).
  - intros H. injection H as ->. exists k. now left.
  - intros H. destruct (IH H) as [k' H']. exists k'. now right.
Qed.

Lemma pyval_nested_ind (P : pyval -> Prop) :
  P PNone -> (forall b, P (PBool b)) -> (forall z, P (PInt z)) ->
  (forall f, P (PFloat f)) -> (forall s, P (PStr s)) ->
  (forall l, Forall P l -> P (PList l)) ->
  (forall kvs, Forall (fun kv => P (snd kv)) kvs -> P (PDict kvs)) ->
  forall v, P v.
Proof.
  intros HN HB HZ HF HS HL HD.
  fix IH 1. intros v. destruct v as [|b|z|f|s|l|kvs].
  - exact HN.
  - apply HB.
  - apply HZ.
  - apply HF.
  - apply HS.
  - apply HL.
    exact ((fix all (l : list pyval) : Forall P l :=
              match l with
              | [] => Forall_nil P
              | x :: r => Forall_cons x (IH x) (all r)
              end) l).
  - apply HD.
    exact ((fix all (kvs : list (string * pyval))
              : Forall (fun kv => P (snd kv)) kvs :=
              match kvs with
              | [] => Forall_nil _
              | (k, x) :: r =>
                  Forall_cons (P := fun kv => P (snd kv)) (k, x) (IH x) (all r)
              end) kvs).
Qed.

Section RegistryInvariant.

Variable lib : Library.
Variable R : registry -> registry -> Prop.
Hypothesis R_refl : forall reg, R reg reg.
Hypothesis R_trans : forall r1 r2 r3, R r1 r2 -> R r2 r3 -> R r1 r3.
Hypothesis R_append :
  forall reg key s uid o,
    key <> "Process" -> dict_get reg key = Some s ->
    R reg (dict_set reg key (mkSlot (ids s ++ [uid]) (objs s ++ [o]))).

Lemma keeps_ret {A : Type} (a : A) : keeps R (ret a).
Proof. intros w x w' H. apply ret_ok in H. injection H as _ <-. apply R_refl. Qed.

Lemma keeps_raise {A : Type} (e : exn) : keeps R (@raise A e).
Proof. intros w x w' H. discriminate. Qed.

Lemma keeps_lift {A : Type} (r : result A) : keeps R (lift r).
Proof.
  intros w x w' H. apply lift_ok in H. destruct H as (a & _ & E).
  injection E as _ <-. apply R_refl.
Qed.

Lemma keeps_log (lvl : level) (msg : string) : keeps R (log lvl msg).
Proof. intros w x w' H. unfold log in H. injection H as _ <-. apply R_refl. Qed.

Lemma keeps_bind {A B : Type} (m : M A) (k : A -> M B) :
  keeps R m -> (forall a, keeps R (k a)) -> keeps R (bind m k).
Proof.
  intros Hm Hk w b w' H. apply bind_ok in H. destruct H as (a & w1 & H1 & H2).
  eapply R_trans; [exact (Hm _ _ _ H1) | exact (Hk _ _ _ _ H2)].
Qed.

Lemma keeps_reg_find (key : string) (uid : pyval) : keeps R (reg_find key uid).
Proof.
  intros w o w' H. apply reg_find_ok in H. destruct H as [-> _]. apply R_refl.
Qed.

Lemma keeps_reg_append (key : string) (uid : pyval) (o : entity) :
  key <> "Process" -> keeps R (reg_append key uid o).
Proof.
  intros Hk w x w' H. unfold reg_append, bind, reg_slot in H.
  destruct (dict_get (dict_s w) key) as [s|] eqn:Hs; [|discriminate].
  injection H as _ <-. cbn [dict_s]. now apply R_append.
Qed.

(** Decomposes a computation into its steps. *)
Ltac keeps_step :=
  match goal with
  | |- keeps _ (bind _ _) => apply keeps_bind; [|intro]
  | |- keeps _ (ret _) => apply keeps_ret
  | |- keeps _ (raise _) => apply keeps_raise
  | |- keeps _ (lift _) => apply keeps_lift
  | |- keeps _ (log _ _) => apply keeps_log
  | |- keeps _ (reg_find _ _) => apply keeps_reg_find
  | |- keeps _ (reg_append _ _ _) => apply keeps_reg_append; discriminate
  | |- keeps _ (match ?x with _ => _ end) => destruct x
  | |- keeps _ (let '(_, _) := ?x in _) => destruct x
  | H : keeps _ ?m |- keeps _ ?m => exact H
  end.

Lemma keeps_unit (v : pyval) : keeps R (_unit lib v).
Proof. unfold _unit. repeat keeps_step. Qed.

Lemma keeps_flow_property (v : pyval) : keeps R (_flow_property lib v).
Proof. unfold _flow_property. repeat keeps_step. Qed.

Lemma keeps_uncertainty (v : pyval) : keeps R (_uncertainty v).
Proof. unfold _uncertainty. repeat keeps_step. Qed.

Lemma keeps_format_date (v : pyval) : keeps R (_format_date lib v).
Proof. unfold _format_date. repeat keeps_step. Qed.

Lemma keeps_check_source_year (v : pyval) : keeps R (_check_source_year lib v).
Proof. unfold _check_source_year. repeat keeps_step. Qed.

Lemma keeps_location (v : pyval) : keeps R (_location lib v).
Proof. unfold _location. repeat keeps_step. Qed.

Lemma keeps_actor (v : pyval) : keeps R (_actor lib v).
Proof. unfold _actor. repeat keeps_step. Qed.

Lemma keeps_unpack (m : M actor_return) : keeps R m -> keeps R (unpack m).
Proof. intros H. unfold unpack. repeat keeps_step. Qed.

Lemma keeps_source (v : pyval) : keeps R (_source lib v).
Proof.
  unfold _source. repeat first [ apply keeps_check_source_year | keeps_step ].
Qed.

Lemma keeps_source_loop (l : list pyval) :
  forall acc, keeps R (source_loop lib l acc).
Proof.
  induction l as [|d l IH]; intros acc; simpl.
  - apply keeps_ret.
  - apply keeps_bind; [apply keeps_source | intros r; apply IH].
Qed.

Lemma keeps_source_list (v : pyval) : keeps R (_source_list lib v).
Proof.
  unfold _source_list.
  destruct v as [| | | | |[|d rest]|]; try (repeat keeps_step).
  apply keeps_source_loop.
Qed.

Lemma keeps_process_doc (v : pyval) : keeps R (_process_doc lib v).
Proof.
  unfold _process_doc.
  destruct v; try apply keeps_ret.
  repeat first [ apply keeps_format_date
               | apply keeps_unpack; apply keeps_actor
               | apply keeps_source | apply keeps_source_list
               | apply keeps_bind; [|intro] | apply keeps_ret ].
Qed.

Lemma keeps_item_with {A : Type} (key : string) (found : pyval -> M A)
    (missing : M A) (kvs : list (string * pyval)) :
  Forall (fun kv => keeps R (found (snd kv))) kvs -> keeps R missing ->
  keeps R (item_with key found missing kvs).
Proof.
  intros Hf Hm. induction Hf as [|[k v] r Hv _ IH]; simpl; [exact Hm|].
  destruct (String.eqb k key); [exact Hv | exact IH].
Qed.

Lemma keeps_find_dq (v : pyval) : forall key, keeps R (_find_dq v key).
Proof.
  induction v as [|b|z|f|s|l _|kvs IH] using pyval_nested_ind; intros key;
    try apply keeps_ret.
  simpl _find_dq.
  destruct (negb (py_truthy (_val (PDict kvs) [key] None)));
    [|apply keeps_ret].
  apply keeps_bind; [apply keeps_log | intros _].
  apply keeps_item_with; [|apply keeps_ret].
  eapply Forall_impl; [|exact IH]. intros kv H. apply H.
Qed.

Lemma keeps_dq_entry (v : pyval) : keeps R (_dq_entry v).
Proof.
  unfold _dq_entry. apply keeps_bind; [apply keeps_find_dq | intro].
  apply keeps_lift.
Qed.

Lemma keeps_dq_system (v : pyval) (dq_type : string) :
  keeps R (_dq_system lib v dq_type).
Proof.
  unfold _dq_system.
  destruct (negb (String.eqb dq_type "dqSystem"
                  || String.eqb dq_type "exchangeDqSystem"));
    [apply keeps_raise|].
  apply keeps_bind; [apply keeps_find_dq | intros dq].
  repeat keeps_step.
Qed.

Lemma keeps_flow (v : pyval) (flowprop : option entity) :
  keeps R (fun w => snd (_flow lib v flowprop w)).
Proof.
  intros w r w'. unfold _flow.
  destruct v as [| | | | | |kvs];
    try (cbn [snd]; intros H; unfold bind, log, ret in H;
         injection H as _ <-; apply R_refl).
  destruct (_val (PDict kvs) ["category"] (Some (PStr "")));
    try (cbn [snd]; discriminate).
  destruct (reg_find "Flow" (_val (PDict kvs) ["id"; "@id"] None) w)
    as [[[flow|] w1]|e] eqn:Hfind; cbn [snd]; [| |discriminate];
    apply reg_find_ok in Hfind; destruct Hfind as [-> _].
  - match goal with
    | |- ?m w = Ok _ -> _ =>
        assert (K : keeps R m) by (repeat keeps_step); exact (K w r w')
    end.
  - match goal with
    | |- ?m w = Ok _ -> _ =>
        assert (K : keeps R m) by (repeat keeps_step); exact (K w r w')
    end.
Qed.

Lemma keeps_exchange_body (d : pyval)
    (provider : M (option Process * option Exchange)) :
  keeps R provider -> keeps R (exchange_body lib d provider).
Proof.
  intros Hp. unfold exchange_body.
  repeat first [ apply keeps_unit | apply keeps_flow_property
               | apply keeps_flow | apply keeps_uncertainty
               | keeps_step ].
Qed.

Lemma keeps_exchange_loop (exchange : pyval -> M (option Exchange))
    (l : list pyval) :
  Forall (fun e => keeps R (exchange e)) l ->
  forall acc, keeps R (exchange_loop exchange l acc).
Proof.
  induction 1 as [|e rest He _ IH]; intros [[r_list last_id] q_ref]; simpl.
  - apply keeps_ret.
  - apply keeps_bind; [exact He | intros [x|]; apply IH].
Qed.

Lemma keeps_exchange_for (exchange : pyval -> M (option Exchange))
    (l : list pyval) :
  Forall (fun e => keeps R (exchange e)) l ->
  keeps R (exchange_for exchange l).
Proof.
  intros H. unfold exchange_for.
  apply keeps_bind; [now apply keeps_exchange_loop | intros [[r_list i] q]].
  apply keeps_ret.
Qed.

Lemma keeps_process_body (d : pyval)
    (exchange_list : M (list Exchange * option Exchange)) :
  keeps R exchange_list -> keeps R (process_body lib d exchange_list).
Proof.
  intros He. unfold process_body.
  repeat first [ apply keeps_location | apply keeps_process_doc
               | apply keeps_dq_entry | apply keeps_dq_system
               | keeps_step ].
Qed.

(** [_process] and [_exchange] together, along the nesting of the
    description; the entries a value yields when iterated are exchanges
    whose calls keep the relation as well. *)
Lemma keeps_process_exchange (v : pyval) :
  keeps R (_process lib v) /\ keeps R (_exchange lib v) /\
  forall l, py_iter v = Ok l -> Forall (fun e => keeps R (_exchange lib e)) l.
Proof.
  assert (Hstr : forall s, keeps R (_exchange lib (PStr s))).
  { intros s w a w'. rewrite exchange_unfold.
    apply keeps_exchange_body. intros w0 a0 w0'. rewrite process_unfold.
    apply keeps_ret. }
  induction v as [|b|z|f|s|l IH|kvs IH] using pyval_nested_ind.
  - split; [apply keeps_ret|]. split; [|discriminate].
    simpl. repeat keeps_step.
  - split; [apply keeps_ret|]. split; [|discriminate].
    apply keeps_exchange_body, keeps_ret.
  - split; [apply keeps_ret|]. split; [|discriminate].
    apply keeps_exchange_body, keeps_ret.
  - split; [apply keeps_ret|]. split; [|discriminate].
    apply keeps_exchange_body, keeps_ret.
  - split; [apply keeps_ret|]. split; [apply Hstr|].
    intros l H. injection H as <-. apply Forall_forall. intros e He.
    apply in_map_iff in He. destruct He as (c & <- & _). apply Hstr.
  - split; [apply keeps_ret|]. split; [apply keeps_exchange_body, keeps_ret|].
    intros l' H. injection H as <-.
    eapply Forall_impl; [|exact IH]. intros e H. apply H.
  - assert (Hex : keeps R (_exchange_list lib (PDict kvs))).
    { unfold _exchange_list.
      destruct (dict_get kvs "exchanges") as [v|] eqn:Hv.
      - destruct (dict_get_some_in _ _ _ Hv) as [k Hin].
        pose proof (proj1 (Forall_forall _ _) IH (k, v) Hin) as Pv.
        simpl in Pv. destruct Pv as (_ & _ & Pit).
        assert (Hval : _val (PDict kvs) ["exchanges"] (Some (PList []))
                       = match v with PNone => PList [] | _ => v end)
          by (unfold _val; simpl first_key; rewrite Hv; destruct v; reflexivity).
        rewrite Hval. intros w a w' H.
        apply bind_ok in H. destruct H as (lst & w1 & Hl & H).
        apply lift_ok in Hl. destruct Hl as (l0 & Hit & E).
        injection E as -> ->.
        refine (keeps_exchange_for _ l0 _ w a w' H).
        destruct v; try (apply Pit; exact Hit).
        injection Hit as <-. constructor.
      - assert (Hval : _val (PDict kvs) ["exchanges"] (Some (PList []))
                       = PList [])
          by (unfold _val; simpl first_key; rewrite Hv; reflexivity).
        rewrite Hval. intros w a w' H. apply bind_ok in H.
        destruct H as (lst & w1 & Hl & H).
        apply lift_ok in Hl. destruct Hl as (l0 & Hit & E).
        injection E as -> ->. injection Hit as <-.
        exact (keeps_exchange_for _ [] (Forall_nil _) w a w' H). }
    split; [|split].
    + intros w a w'. rewrite process_unfold.
      apply keeps_process_body. exact Hex.
    + intros w a w'. rewrite exchange_unfold.
      apply keeps_exchange_body.
      destruct (dict_get kvs "provider") as [v|] eqn:Hv.
      * assert (Hval : _val (PDict kvs) ["provider"] None = v)
          by (unfold _val; simpl first_key; rewrite Hv; destruct v; reflexivity).
        rewrite Hval.
        destruct (dict_get_some_in _ _ _ Hv) as [k Hin].
        pose proof (proj1 (Forall_forall _ _) IH (k, v) Hin) as Pv.
        simpl in Pv. destruct Pv as (Pp & _ & _). exact Pp.
      * assert (Hval : _val (PDict kvs) ["provider"] None = PNone)
          by (unfold _val; simpl first_key; rewrite Hv; reflexivity).
        rewrite Hval. apply keeps_ret.
    + intros l H. injection H as <-. apply Forall_forall. intros e He.
      apply in_map_iff in He. destruct He as (c & <- & _). apply Hstr.
Qed.

End RegistryInvariant.

Lemma same_slot_append (k : string) (reg : registry) (key : string) (s : slot)
    (uid : pyval) (o : entity) :
  key <> k -> dict_get reg key = Some s ->
  same_slot k reg
    (dict_set reg key (mkSlot (ids s ++ [uid]) (objs s ++ [o]))).
Proof. intros Hk _. unfold same_slot. now apply dict_get_set_other. Qed.

Lemma grown_refl (reg : registry) : grown reg reg.
Proof.
  split; [reflexivity|]. intros key s Hs. exists [], [].
  rewrite !app_nil_r. split; [|reflexivity]. now destruct s.
Qed.

Lemma grown_trans (r1 r2 r3 : registry) :
  grown r1 r2 -> grown r2 r3 -> grown r1 r3.
Proof.
  intros [K1 G1] [K2 G2]. split; [congruence|].
  intros key s Hs. destruct (G1 key s Hs) as (i1 & o1 & H1 & L1).
  destruct (G2 key _ H1) as (i2 & o2 & H2 & L2). cbn [ids objs] in H2.
  exists (i1 ++ i2)%list, (o1 ++ o2)%list. rewrite !app_assoc.
  split; [exact H2|]. rewrite !length_app. lia.
Qed.

Lemma grown_append (reg : registry) (key : string) (s : slot) (uid : pyval)
    (o : entity) :
  dict_get reg key = Some s ->
  grown reg (dict_set reg key (mkSlot (ids s ++ [uid]) (objs s ++ [o]))).
Proof.
  intros Hs. split; [exact (dict_set_keys _ _ _ _ Hs)|].
  intros key' s' Hs'. destruct (String.eqb_spec key key') as [<-|Hne].
  - rewrite dict_get_set_same. rewrite Hs in Hs'. injection Hs' as <-.
    now exists [uid], [o].
  - rewrite dict_get_set_other by exact Hne. exists [], [].
    rewrite !app_nil_r. split; [|reflexivity]. rewrite Hs'. now destruct s'.
Qed.

(** [_process] registers no process: whatever the description nests, the
    slot of processes is the same after the call, so the process it
    returns, and every provider built on the way, is left for the caller
    to register.  [_exchange] likewise. *)
Theorem process_registers_no_process (lib : Library) (dict_d : pyval)
    (w : world) :
  (forall r w', _process lib dict_d w = Ok (r, w') ->
                dict_get (dict_s w') "Process" = dict_get (dict_s w) "Process") /\
  (forall r w', _exchange lib dict_d w = Ok (r, w') ->
                dict_get (dict_s w') "Process" = dict_get (dict_s w) "Process").
Proof.
  destruct (keeps_process_exchange lib (same_slot "Process")
              (fun reg => eq_refl)
              (fun r1 r2 r3 H1 H2 => eq_trans H2 H1)
              (fun reg key s uid o Hk Hs => same_slot_append _ reg key s uid o Hk Hs)
              dict_d) as (Hp & He & _).
  split; intros r w' H; [exact (Hp w r w' H) | exact (He w r w' H)].
Qed.

(** [_process] only appends to the registry: when it returns, the entity
    names are as before and every slot is the slot it was, followed by as
    many new objects as new identifiers. *)
Theorem process_only_appends (lib : Library) (dict_d : pyval) (w w' : world)
    (r : option Process * option Exchange) :
  _process lib dict_d w = Ok (r, w') -> grown (dict_s w) (dict_s w').
Proof.
  destruct (keeps_process_exchange lib grown grown_refl grown_trans
              (fun reg key s uid o _ Hs => grown_append reg key s uid o Hs)
              dict_d) as (Hp & _ & _).
  exact (Hp w r w').
Qed.

(** ** [write]: one registration for each description *)








Lemma process_registers_no_process_witness :
  exists p e w',
    _process Env.lib plant_with_provider world_with_mass = Ok (Some p, e, w') /\
    map (fun x => option_map ref_name (e_default_provider x)) (p_exchanges p)
    = [Some (PStr "mine")] /\
    dict_get (dict_s w') "Process" = Some (mkSlot [] []).
Proof.
  destruct (_process Env.lib plant_with_provider world_with_mass)
    as [[[[p|] e] w']|x] eqn:H; try (vm_compute in H; discriminate).
  exists p, e, w'. split; [reflexivity|]. split.
  - vm_compute in H. injection H as <- _ _. reflexivity.
  - exact (proj1 (process_registers_no_process Env.lib plant_with_provider
                    world_with_mass) _ _ H).
Defined.

Lemma process_only_appends_witness :
  exists r w',
    _process Env.lib plant_with_provider world_with_mass = Ok (r, w') /\
    grown (dict_s world_with_mass) (dict_s w').
Proof.
  destruct (_process Env.lib plant_with_provider world_with_mass)
    as [[r w']|x] eqn:H; [|vm_compute in H; discriminate].
  exists r, w'. split; [reflexivity|].
  exact (process_only_appends Env.lib _ _ _ _ H).
Defined.
